(** * ai-spec-gen: the fact-extraction core, embedded and verified

    The development follows the Python sources:

    - [src/plugins/laravel/parser.py]: the route-table reconstructor
      ([parse_routes], [_parse_route_file], [_parse_routes_with_groups],
      [_normalize_route_action]) and the schema reconstructor
      ([parse_migrations], [_parse_migration_file]);
    - [src/core/ai_backend.py] and [src/core/ai_client.py]: the two
      [generate_json] helpers;
    - [src/plugins/laravel/parser.py] again: the recognisers of controllers
      ([_parse_controller_file], [_augment_auth_methods]), of models
      ([_parse_model_file], [_extract_relations]), of the GraphQL endpoint
      ([parse_graphql_endpoint]) and of the GraphQL operations
      ([parse_graphql_operations]);
    - [src/core/notion_exporter.py]: the conversion of Markdown lines to
      blocks ([_line_to_block], [markdown_to_blocks]) and the requests of
      [upload_markdown].

    Python values are modelled as they are in the interpreter: a [str] is a
    sequence of code points, a file is a sequence of bytes that [open] decodes
    as UTF-8, a [dict] keeps its insertion order, an exception is an explicit
    error result.  The patterns of the [re] module are regular-expression
    syntax trees run by a backtracking matcher. *)

From Stdlib Require Import List NArith ZArith Bool Lia.
From Stdlib.Strings Require Import String Ascii Byte.
From Stdlib Require Import Permutation Sorted.
Import ListNotations.

Set Implicit Arguments.

(* ================================================================== *)
(** ** Python strings, files and exceptions *)
(* ================================================================== *)

Module Py.

Local Open Scope N_scope.

(** A code point; a [str] is a list of them. *)
Definition char := N.
Definition text := list char.

(** A literal of the development, read as Python text (all literals are ASCII). *)
Definition str (s : string) : text :=
  List.map N_of_ascii (list_ascii_of_string s).

(** The interpreter's Unicode database, for the code points beyond ASCII: it is
    part of the Python runtime and not of the repository, so the development
    is parametric in it. *)
Class UnicodeDB := {
  uni_alnum : char -> bool;
  uni_space : char -> bool;
  uni_upper : char -> text
}.

(** The database that classifies no code point beyond ASCII; it serves to
    evaluate documents written in ASCII, on which no other database differs. *)
Definition ascii_db : UnicodeDB :=
  {| uni_alnum := fun _ => false;
     uni_space := fun _ => false;
     uni_upper := fun c => [c] |}.

Definition between (lo hi c : char) : bool := ((lo <=? c) && (c <=? hi))%N.

Section Classes.
Context {U : UnicodeDB}.

(** [str.isspace] on one code point; also the class [\s] of [re]. *)
Definition isspace (c : char) : bool :=
  if (c <? 128)%N
  then between 9 13 c || between 28 31 c || (c =? 32)%N
  else uni_space c.

(** [str.isalnum] on one code point. *)
Definition isalnum (c : char) : bool :=
  if (c <? 128)%N
  then between 48 57 c || between 65 90 c || between 97 122 c
  else uni_alnum c.

(** The class [\w] of [re] on text patterns. *)
Definition isword (c : char) : bool := isalnum c || (c =? 95)%N.

(** [str.upper]. *)
Definition upper_char (c : char) : text :=
  if (c <? 128)%N
  then (if between 97 122 c then [(c - 32)%N] else [c])
  else uni_upper c.

Definition upper (s : text) : text := flat_map upper_char s.

End Classes.

(** Equality of text, [==] on [str]. *)
Fixpoint text_eqb (a b : text) : bool :=
  match a, b with
  | [], [] => true
  | x :: a', y :: b' => (x =? y)%N && text_eqb a' b'
  | _, _ => false
  end.

(** [a < b] on [str]: lexicographic on code points. *)
Fixpoint text_ltb (a b : text) : bool :=
  match a, b with
  | _, [] => false
  | [], _ :: _ => true
  | x :: a', y :: b' => (x <? y)%N || ((x =? y)%N && text_ltb a' b')
  end.

(** [x in xs] for a collection of strings. *)
Definition mem (x : text) (xs : list text) : bool := existsb (text_eqb x) xs.

(** [s.startswith(p)]. *)
Fixpoint startswith (s p : text) : bool :=
  match p, s with
  | [], _ => true
  | _ :: _, [] => false
  | y :: p', x :: s' => (x =? y)%N && startswith s' p'
  end.

(** The first index of [sub] in [s], counting from [pos], or -1. *)
Fixpoint find_at (sub s : text) (pos : Z) : Z :=
  if startswith s sub then pos
  else match s with
       | [] => (-1)%Z
       | _ :: s' => find_at sub s' (pos + 1)%Z
       end.

(** A slice bound as Python normalises it against the length. *)
Definition clamp (len i : Z) : Z :=
  if (i <? 0)%Z then Z.max 0 (len + i) else Z.min i len.

(** [s.find(sub, start)]. *)
Definition find (s sub : text) (start : Z) : Z :=
  let len := Z.of_nat (List.length s) in
  let st := if (start <? 0)%Z then Z.max 0 (len + start) else start in
  if (len <? st)%Z then (-1)%Z
  else find_at sub (skipn (Z.to_nat st) s) st.

(** The last index of [sub] in [s] at or after [pos], or [last]. *)
Fixpoint rfind_at (sub s : text) (pos last : Z) : Z :=
  let last' := if startswith s sub then pos else last in
  match s with
  | [] => last'
  | _ :: s' => rfind_at sub s' (pos + 1)%Z last'
  end.

(** [s.rfind(sub)]. *)
Definition rfind (s sub : text) : Z := rfind_at sub s 0%Z (-1)%Z.

(** [sub in s]. *)
Definition contains (s sub : text) : bool := negb (find s sub 0 =? -1)%Z.

(** [l[i:j]], for a string or a list. *)
Definition slice {A} (l : list A) (i j : Z) : list A :=
  let len := Z.of_nat (List.length l) in
  let i' := clamp len i in
  let j' := clamp len j in
  firstn (Z.to_nat (j' - i')) (skipn (Z.to_nat i') l).

(** [l[:j]]. *)
Definition slice_to {A} (l : list A) (j : Z) : list A := slice l 0%Z j.

(** [s.split(sep)] for a separator of one character. *)
Fixpoint split (sep : char) (s : text) : list text :=
  match s with
  | [] => [[]]
  | x :: s' =>
      if (x =? sep)%N then [] :: split sep s'
      else match split sep s' with
           | l :: ls => (x :: l) :: ls
           | [] => [[x]]
           end
  end.

(** [sep.join(ls)]. *)
Fixpoint join (sep : text) (ls : list text) : text :=
  match ls with
  | [] => []
  | [l] => l
  | l :: ls' => l ++ sep ++ join sep ls'
  end.

Fixpoint dropwhile (p : char -> bool) (s : text) : text :=
  match s with
  | [] => []
  | x :: s' => if p x then dropwhile p s' else s
  end.

Definition lstrip_by (p : char -> bool) (s : text) : text := dropwhile p s.
Definition rstrip_by (p : char -> bool) (s : text) : text := rev (dropwhile p (rev s)).
Definition strip_by (p : char -> bool) (s : text) : text := rstrip_by p (lstrip_by p s).

Definition one_of (cs : text) (c : char) : bool := existsb (N.eqb c) cs.

(** [s.strip()]. *)
Definition strip {U : UnicodeDB} (s : text) : text := strip_by isspace s.

(** [s.strip(chars)], [s.lstrip(chars)], [s.rstrip(chars)]. *)
Definition strip_chars (cs s : text) : text := strip_by (one_of cs) s.
Definition lstrip_chars (cs s : text) : text := lstrip_by (one_of cs) s.
Definition rstrip_chars (cs s : text) : text := rstrip_by (one_of cs) s.

(** A [dict] with string keys: the entries in insertion order, one per key. *)
Definition dict (V : Type) := list (text * V).

(** [d.keys()]. *)
Definition keys {V} (d : dict V) : list text := List.map fst d.

(** [d.get(k)]. *)
Fixpoint dict_get {V} (k : text) (d : dict V) : option V :=
  match d with
  | [] => None
  | (k', v) :: d' => if text_eqb k' k then Some v else dict_get k d'
  end.

(** [d[k] = v]: a key already there keeps its place, a new key goes last. *)
Fixpoint dict_set {V} (k : text) (v : V) (d : dict V) : dict V :=
  match d with
  | [] => [(k, v)]
  | (k', v') :: d' =>
      if text_eqb k' k then (k', v) :: d' else (k', v') :: dict_set k v d'
  end.

(** [d.pop(k, None)], for the dictionary it leaves. *)
Fixpoint dict_pop {V} (k : text) (d : dict V) : dict V :=
  match d with
  | [] => []
  | (k', v') :: d' =>
      if text_eqb k' k then d' else (k', v') :: dict_pop k d'
  end.

(** [d.get(k, dflt)]. *)
Definition dict_get_or {V} (k : text) (dflt : V) (d : dict V) : V :=
  match dict_get k d with
  | Some v => v
  | None => dflt
  end.

(** [d.setdefault(k, dflt)], for the dictionary it leaves; the value it
    returns is [dict_get_or k dflt d]. *)
Definition dict_setdefault {V} (k : text) (dflt : V) (d : dict V) : dict V :=
  match dict_get k d with
  | Some _ => d
  | None => d ++ [(k, dflt)]
  end.

(** The truth value of a string: it is not empty. *)
Definition truthy (s : text) : bool :=
  match s with
  | [] => false
  | _ :: _ => true
  end.

(** [sorted(l, key=...)] and [l.sort(key=...)] for string keys: the sort of
    Python is stable, and a stable sort has one result, the one of insertion
    sort that puts an element before the first one that is not smaller. *)
Fixpoint insert_by {A} (key : A -> text) (x : A) (l : list A) : list A :=
  match l with
  | [] => [x]
  | y :: l' =>
      if text_ltb (key y) (key x) then y :: insert_by key x l' else x :: l
  end.

Definition sort_by {A} (key : A -> text) (l : list A) : list A :=
  fold_right (insert_by key) [] l.

(** Exceptions that the embedded code raises. *)
Inductive exn :=
| UnicodeDecodeError
| ValueError (msg : text).

(** A computation that returns or raises. *)
Inductive result (A : Type) :=
| Ok (a : A)
| Raise (e : exn).
Arguments Ok {A} a.
Arguments Raise {A} e.

Definition bind {A B} (m : result A) (f : A -> result B) : result B :=
  match m with
  | Ok a => f a
  | Raise e => Raise e
  end.

(** A loop whose body may raise: the first exception ends it. *)
Fixpoint for_each {A B} (f : A -> result B) (l : list A) : result (list B) :=
  match l with
  | [] => Ok []
  | a :: l' =>
      bind (f a) (fun b => bind (for_each f l') (fun bs => Ok (b :: bs)))
  end.

(** A continuation byte of UTF-8. *)
Definition utf8_cont (b : N) : bool := between 128 191 b.

(** The strict UTF-8 decoder ([errors='strict'], the default of [open]): the
    well-formed sequences of the Unicode standard, no overlong form, no
    surrogate, nothing above U+10FFFF. *)
Fixpoint utf8_decode (bs : list N) : option text :=
  match bs with
  | [] => Some []
  | b0 :: r0 =>
      if (b0 <? 128)%N then option_map (cons b0) (utf8_decode r0)
      else if between 194 223 b0 then
        match r0 with
        | b1 :: r1 =>
            if utf8_cont b1
            then option_map (cons ((b0 - 192) * 64 + (b1 - 128))%N) (utf8_decode r1)
            else None
        | _ => None
        end
      else if between 224 239 b0 then
        match r0 with
        | b1 :: b2 :: r2 =>
            let lo := if (b0 =? 224)%N then 160%N else 128%N in
            let hi := if (b0 =? 237)%N then 159%N else 191%N in
            if between lo hi b1 && utf8_cont b2
            then option_map
                   (cons ((b0 - 224) * 4096 + (b1 - 128) * 64 + (b2 - 128))%N)
                   (utf8_decode r2)
            else None
        | _ => None
        end
      else if between 240 244 b0 then
        match r0 with
        | b1 :: b2 :: b3 :: r3 =>
            let lo := if (b0 =? 240)%N then 144%N else 128%N in
            let hi := if (b0 =? 244)%N then 143%N else 191%N in
            if between lo hi b1 && utf8_cont b2 && utf8_cont b3
            then option_map
                   (cons ((b0 - 240) * 262144 + (b1 - 128) * 4096
                          + (b2 - 128) * 64 + (b3 - 128))%N)
                   (utf8_decode r3)
            else None
        | _ => None
        end
      else None
  end.

(** Universal newlines of a file opened in text mode: CR LF and a lone CR are
    read as LF. *)
Fixpoint universal_newlines (s : text) : text :=
  match s with
  | [] => []
  | c :: rest =>
      if (c =? 13)%N then
        10%N :: match rest with
                | d :: rest' =>
                    if (d =? 10)%N then universal_newlines rest'
                    else universal_newlines rest
                | [] => []
                end
      else c :: universal_newlines rest
  end.

(** A file, as the bytes it holds. *)
Definition file := list byte.

(** [open(path, 'r', encoding='utf-8').read()]. *)
Definition read_text (f : file) : result text :=
  match utf8_decode (List.map Byte.to_N f) with
  | Some s => Ok (universal_newlines s)
  | None => Raise UnicodeDecodeError
  end.

(** The bytes of an ASCII literal. *)
Definition bytes (s : string) : file := list_byte_of_string s.

End Py.

(* ================================================================== *)
(** ** The [re] module: patterns and the backtracking matcher *)
(* ================================================================== *)

Module Re.
Import Py.

(** The syntax of the patterns the repository uses.  [Star] is the greedy
    star and [LazyStar] the one written with a question mark; [Grp n r] is the
    n-th capturing group; alternatives are tried left to right. *)
Inductive regex :=
| Eps
| Chr (c : char)
| Cls (p : char -> bool)
| Seq (r1 r2 : regex)
| Alt (r1 r2 : regex)
| Star (r : regex)
| LazyStar (r : regex)
| Grp (n : nat) (r : regex).

(** The groups that took part in a match, the latest binding first. *)
Definition captures := list (nat * text).

Definition cont := text -> captures -> option (text * captures).

Definition orelse {A} (a b : option A) : option A :=
  match a with
  | Some _ => a
  | None => b
  end.

(** One run of the matcher at the head of [s]: [k] receives what is left of
    the input and the groups bound so far, and a [None] of [k] makes the
    matcher backtrack into the latest choice.  An iteration of a star must
    consume input (no pattern of the repository iterates over an empty match),
    so the length of the input bounds the number of iterations. *)
Fixpoint run (r : regex) (s : text) (caps : captures) (k : cont)
  : option (text * captures) :=
  match r with
  | Eps => k s caps
  | Chr c =>
      match s with
      | x :: s' => if (x =? c)%N then k s' caps else None
      | [] => None
      end
  | Cls p =>
      match s with
      | x :: s' => if p x then k s' caps else None
      | [] => None
      end
  | Seq r1 r2 => run r1 s caps (fun s' caps' => run r2 s' caps' k)
  | Alt r1 r2 => orelse (run r1 s caps k) (run r2 s caps k)
  | Star r1 =>
      (fix loop (fuel : nat) (s0 : text) (caps0 : captures) {struct fuel} :=
         match fuel with
         | O => k s0 caps0
         | S fuel' =>
             orelse
               (run r1 s0 caps0
                  (fun s' caps' =>
                     if (List.length s' <? List.length s0)%nat
                     then loop fuel' s' caps' else None))
               (k s0 caps0)
         end) (List.length s) s caps
  | LazyStar r1 =>
      (fix loop (fuel : nat) (s0 : text) (caps0 : captures) {struct fuel} :=
         match fuel with
         | O => k s0 caps0
         | S fuel' =>
             orelse
               (k s0 caps0)
               (run r1 s0 caps0
                  (fun s' caps' =>
                     if (List.length s' <? List.length s0)%nat
                     then loop fuel' s' caps' else None))
         end) (List.length s) s caps
  | Grp n r1 =>
      run r1 s caps
        (fun s' caps' =>
           k s' ((n, firstn (List.length s - List.length s') s) :: caps'))
  end.

(** A match object: the text of the whole match and its groups. *)
Record rmatch := { whole : text; groups : captures }.

(** A match that starts at the head of [s]. *)
Definition match_here (r : regex) (s : text) : option rmatch :=
  match run r s [] (fun s' caps => Some (s', caps)) with
  | Some (rest, caps) =>
      Some {| whole := firstn (List.length s - List.length rest) s;
              groups := caps |}
  | None => None
  end.

Fixpoint lookup_group (n : nat) (caps : captures) : option text :=
  match caps with
  | [] => None
  | (m, t) :: caps' => if (m =? n)%nat then Some t else lookup_group n caps'
  end.

(** [m.group(n)]: [None] for a group that took no part in the match. *)
Definition group (m : rmatch) (n : nat) : option text :=
  lookup_group n (groups m).

(** [m.group(n) or d]. *)
Definition group_or (m : rmatch) (n : nat) (d : text) : text :=
  match group m n with
  | Some ((_ :: _) as t) => t
  | _ => d
  end.

(** [m.group(n)] for a group outside every optional part of its pattern: it
    takes part in every match, so the value is a string. *)
Definition group_str (m : rmatch) (n : nat) : text :=
  match group m n with
  | Some t => t
  | None => []
  end.

(** [re.finditer]: the matches from left to right, none overlapping another;
    [skip] counts the positions the previous match still covers. *)
Fixpoint scan (r : regex) (skip : nat) (s : text) : list rmatch :=
  match skip with
  | S k =>
      match s with
      | [] => []
      | _ :: s' => scan r k s'
      end
  | O =>
      match match_here r s with
      | Some m =>
          m :: match s with
               | [] => []
               | _ :: s' => scan r (pred (List.length (whole m))) s'
               end
      | None =>
          match s with
          | [] => []
          | _ :: s' => scan r 0 s'
          end
      end
  end.

Definition finditer (r : regex) (s : text) : list rmatch := scan r 0 s.

(** [re.search]: the leftmost match. *)
Fixpoint search (r : regex) (s : text) : option rmatch :=
  match match_here r s with
  | Some m => Some m
  | None =>
      match s with
      | [] => None
      | _ :: s' => search r s'
      end
  end.

(** [re.findall] for a pattern with one group. *)
Definition findall1 (r : regex) (s : text) : list text :=
  List.map (fun m => group_str m 1) (finditer r s).

(** *** Pattern combinators *)

Definition seq (rs : list regex) : regex := fold_right Seq Eps rs.

Fixpoint alts (rs : list regex) : regex :=
  match rs with
  | [] => Cls (fun _ => false)
  | [r] => r
  | r :: rs' => Alt r (alts rs')
  end.

(** A literal run of characters. *)
Definition lit (s : string) : regex := seq (List.map Chr (str s)).

(** [r?], [r+]. *)
Definition opt (r : regex) : regex := Alt r Eps.
Definition plus (r : regex) : regex := Seq r (Star r).

(** [.] under [re.DOTALL]. *)
Definition any : regex := Cls (fun _ => true).

(** A negated class [[^...]]. *)
Definition none_of (cs : text) : regex := Cls (fun c => negb (one_of cs c)).

(** The apostrophe and the double quote, and the class of the two. *)
Definition quotes : text := [39%N; 34%N].
Definition quote : regex := Cls (one_of quotes).

Section Classes.
Context {U : UnicodeDB}.

(** [\s], [\w], [\s*], [\w+]. *)
Definition space : regex := Cls isspace.
Definition word : regex := Cls isword.
Definition ws : regex := Star space.
Definition ident : regex := plus word.

End Classes.

End Re.

(* ================================================================== *)
(** ** [plugins/laravel/parser.py]: routes *)
(* ================================================================== *)

Module Laravel.
Import Py Re.

(** One entry of the route list: the dictionary with the keys [method],
    [uri], [action] and [middleware]. *)
Record Route := {
  method : text;
  uri : text;
  action : text;
  middleware : list text
}.

Section Routes.
Context {U : UnicodeDB}.

(** [(get|post|put|delete|patch|options|any)] *)
Definition http_method : regex :=
  alts [lit "get"; lit "post"; lit "put"; lit "delete"; lit "patch";
        lit "options"; lit "any"].

(** The pattern of a route declaration, the same text in [_parse_route_file]
    and in [_parse_routes_with_groups].  In the patterns quoted here, Q stands
    for the class of the two quote characters, METHOD for the alternatives of
    [http_method], and a blank separates a star from a closing parenthesis:
    [Route::(METHOD)\s*\(\s*Q([^Q]+)Q\s*,\s*([^\);]+)\)\s*(?:->middleware\(([^)]* )\))?] *)
Definition route_pattern : regex :=
  seq [lit "Route::"; Grp 1 http_method; ws; lit "("; ws;
       quote; Grp 2 (plus (none_of quotes)); quote; ws; lit ","; ws;
       Grp 3 (plus (none_of (str ");"))); lit ")"; ws;
       opt (seq [lit "->middleware("; Grp 4 (Star (none_of (str ")"))); lit ")"])].

(** [Route::middleware\(\s*([^)]+)\s*\)\s*->\s*(METHOD)\s*\(\s*Q([^Q]+)Q\s*,\s*([^\);]+)] *)
Definition mw_route_pattern : regex :=
  seq [lit "Route::middleware("; ws; Grp 1 (plus (none_of (str ")"))); ws;
       lit ")"; ws; lit "->"; ws; Grp 2 http_method; ws; lit "("; ws;
       quote; Grp 3 (plus (none_of quotes)); quote; ws; lit ","; ws;
       Grp 4 (plus (none_of (str ");")))].

(** [Route::(?:middleware\(([^)]* )\)\s* )?(?:prefix\(([^)]* )\)\s* )?group\s*\(\s*function\s*\(\s*\)\s*\{(.*?)\}\s*\);]
    compiled with [re.DOTALL]. *)
Definition group_pattern : regex :=
  seq [lit "Route::";
       opt (seq [lit "middleware("; Grp 1 (Star (none_of (str ")"))); lit ")"; ws]);
       opt (seq [lit "prefix("; Grp 2 (Star (none_of (str ")"))); lit ")"; ws]);
       lit "group"; ws; lit "("; ws; lit "function"; ws; lit "("; ws; lit ")";
       ws; lit "{"; Grp 3 (LazyStar any); lit "}"; ws; lit ");"].

(** [[\w\\]]: a word character or a backslash. *)
Definition class_name_char : regex := Cls (fun c => isword c || (c =? 92)%N).

(** [([\w\\]+)::class\s*,\s*Q(\w+)Q] *)
Definition class_call_pattern : regex :=
  seq [Grp 1 (plus class_name_char); lit "::class"; ws; lit ","; ws;
       quote; Grp 2 ident; quote].

(** [Q?([\w\\]+@[\w]+)Q?] *)
Definition at_call_pattern : regex :=
  seq [opt quote; Grp 1 (seq [plus class_name_char; lit "@"; ident]); opt quote].

(** [_normalize_route_action] *)
Definition _normalize_route_action (action : text) : text :=
  match search class_call_pattern action with
  | Some class_call => group_str class_call 1 ++ str "@" ++ group_str class_call 2
  | None =>
      match search at_call_pattern action with
      | Some at_call => group_str at_call 1
      | None => action
      end
  end.

(** [[m.strip().strip(QUOTES) for m in raw.split(',') if m.strip()]] *)
Definition middleware_list (raw : text) : list text :=
  List.map (fun m => strip_chars quotes (strip m))
           (filter (fun m => truthy (strip m)) (split 44%N raw)).

(** The body of the first loop of [_parse_route_file]. *)
Definition route_of_match (m : rmatch) : Route :=
  {| method := upper (group_str m 1);
     uri := group_str m 2;
     action := _normalize_route_action (strip (group_str m 3));
     middleware := middleware_list (group_or m 4 []) |}.

(** The body of its second loop, over [mw_route_pattern]. *)
Definition route_of_mw_match (m : rmatch) : Route :=
  {| method := upper (group_str m 2);
     uri := group_str m 3;
     action := _normalize_route_action (strip (group_str m 4));
     middleware := middleware_list (group_str m 1) |}.

(** [_parse_route_file], after the file is read. *)
Definition parse_route_content (content : text) : list Route :=
  List.map route_of_match (finditer route_pattern content)
  ++ List.map route_of_mw_match (finditer mw_route_pattern content).

(** [_parse_route_file] *)
Definition _parse_route_file (file_path : file) : result (list Route) :=
  bind (read_text file_path) (fun content => Ok (parse_route_content content)).

(** [f"{prefix.rstrip('/')}/{uri.lstrip('/')}"] under [if prefix:]. *)
Definition join_prefix (prefix uri : text) : text :=
  if truthy prefix
  then rstrip_chars (str "/") prefix ++ str "/" ++ lstrip_chars (str "/") uri
  else uri.

(** [all_mw = middlewares.copy(); all_mw.extend(extra_mw)] *)
Definition inherit_middleware (middlewares extra_mw : list text) : list text :=
  middlewares ++ extra_mw.

(** The body of the inner loop of [_parse_routes_with_groups]. *)
Definition grouped_route (middlewares : list text) (prefix : text) (m : rmatch)
  : Route :=
  {| method := upper (group_str m 1);
     uri := join_prefix prefix (group_str m 2);
     action := _normalize_route_action (strip (group_str m 3));
     middleware :=
       inherit_middleware middlewares (middleware_list (group_or m 4 [])) |}.

(** The body of its outer loop: the routes of one group block. *)
Definition routes_of_group (gm : rmatch) : list Route :=
  let middleware_raw := group_or gm 1 [] in
  let prefix_raw := group_or gm 2 [] in
  let body := group_str gm 3 in
  let middlewares := middleware_list middleware_raw in
  let prefix := strip_chars quotes (strip prefix_raw) in
  List.map (grouped_route middlewares prefix) (finditer route_pattern body).

(** [_parse_routes_with_groups] *)
Definition _parse_routes_with_groups (content : text) : list Route :=
  flat_map routes_of_group (finditer group_pattern content).

(** The body of the loop of [parse_routes]: [routes_in_file] for one file. *)
Definition routes_in_file (route_file : file) : result (list Route) :=
  bind (_parse_route_file route_file) (fun flat =>
  bind (read_text route_file) (fun content =>
  Ok (flat ++ _parse_routes_with_groups content))).

(** [parse_routes]: [routes_dir] is [None] when the directory does not exist,
    and otherwise lists the [*.php] files as [glob] yields them, each with its
    stem. *)
Definition parse_routes (routes_dir : option (list (text * file)))
  : result (dict (list Route)) :=
  match routes_dir with
  | None => Ok []
  | Some files =>
      fold_left
        (fun acc entry =>
           bind acc (fun routes =>
           bind (routes_in_file (snd entry)) (fun rs =>
           Ok (dict_set (fst entry) rs routes))))
        files (Ok [])
  end.

End Routes.

(* ------------------------------------------------------------------ *)
(** *** Migrations: the operations of one document *)

(** One operation of a migration body: the dictionary with the keys [action],
    [name] and [type], and for a foreign key the four keys more (a key that is
    not there reads as [None] through [op.get]). *)
Record Op := {
  op_action : text;
  op_name : text;
  op_type : text;
  op_references : option text;
  op_on : option text;
  op_on_delete : option text;
  op_on_update : option text
}.

(** [{'action': a, 'name': n, 'type': t}] *)
Definition mk_op (a : string) (n t : text) : Op :=
  {| op_action := str a; op_name := n; op_type := t;
     op_references := None; op_on := None;
     op_on_delete := None; op_on_update := None |}.

Section MigrationFile.
Context {U : UnicodeDB}.

(** The section of [up()]: the text from [function up] to the first
    [function down] after it, when both are found, and the whole text
    otherwise. *)
Definition apply_section (content : text) : text :=
  let up_start := find content (str "function up") 0 in
  let down_start :=
    find content (str "function down")
         (if negb (up_start =? -1)%Z then up_start else 0%Z) in
  if negb (up_start =? -1)%Z && negb (down_start =? -1)%Z
  then slice content up_start down_start
  else content.

(** [Schema::(create|table)\s*\(\s*Q(\w+)Q\s*,\s*function\s*\([^)]*\)\s*\{(.*?)\}\s*\);]
    compiled with [re.DOTALL]. *)
Definition block_pattern : regex :=
  seq [lit "Schema::"; Grp 1 (alts [lit "create"; lit "table"]); ws; lit "(";
       ws; quote; Grp 2 ident; quote; ws; lit ","; ws; lit "function"; ws;
       lit "("; Star (none_of (str ")")); lit ")"; ws; lit "{";
       Grp 3 (LazyStar any); lit "}"; ws; lit ");"].

(** [\$table->(\w+)\s*\(\s*Q(\w+)Q] *)
Definition add_pattern : regex :=
  seq [lit "$table->"; Grp 1 ident; ws; lit "("; ws; quote; Grp 2 ident; quote].

(** [\$table->(id|bigIncrements|increments)\s*\(\s*Q?(\w* )Q?\s*\)] *)
Definition id_pattern : regex :=
  seq [lit "$table->";
       Grp 1 (alts [lit "id"; lit "bigIncrements"; lit "increments"]);
       ws; lit "("; ws; opt quote; Grp 2 (Star word); opt quote; ws; lit ")"].

(** [\$table->foreignId\s*\(\s*Q(\w+)Q\s*\)(?:->\w+\([^)]*\))*] *)
Definition foreign_id_pattern : regex :=
  seq [lit "$table->foreignId"; ws; lit "("; ws; quote; Grp 1 ident; quote;
       ws; lit ")";
       Star (seq [lit "->"; ident; lit "("; Star (none_of (str ")")); lit ")"])].

(** [\$table->(index|unique|primary)\s*\(\s*Q(\w+)Q] *)
Definition index_pattern : regex :=
  seq [lit "$table->"; Grp 1 (alts [lit "index"; lit "unique"; lit "primary"]);
       ws; lit "("; ws; quote; Grp 2 ident; quote].

(** [\$table->foreign\s*\(\s*Q(\w+)Q\s*\)([^;]+);] *)
Definition foreign_pattern : regex :=
  seq [lit "$table->foreign"; ws; lit "("; ws; quote; Grp 1 ident; quote; ws;
       lit ")"; Grp 2 (plus (none_of (str ";"))); lit ";"].

(** [references\(\s*Q(\w+)Q], [on\(\s*Q(\w+)Q],
    [onDelete\(\s*Q?(\w+)Q?\)], [onUpdate\(\s*Q?(\w+)Q?\)] *)
Definition references_pattern : regex :=
  seq [lit "references("; ws; quote; Grp 1 ident; quote].
Definition on_pattern : regex :=
  seq [lit "on("; ws; quote; Grp 1 ident; quote].
Definition on_delete_pattern : regex :=
  seq [lit "onDelete("; ws; opt quote; Grp 1 ident; opt quote; lit ")"].
Definition on_update_pattern : regex :=
  seq [lit "onUpdate("; ws; opt quote; Grp 1 ident; opt quote; lit ")"].

(** [dropColumn\(\s*Q(\w+)Q\s*\)] *)
Definition drop_pattern : regex :=
  seq [lit "dropColumn("; ws; quote; Grp 1 ident; quote; ws; lit ")"].

(** [dropColumn\(\s*\[\s*([^\]]+)\]\s*\)] and, for the names in the list,
    [Q(\w+)Q] *)
Definition drop_array_pattern : regex :=
  seq [lit "dropColumn("; ws; lit "["; ws; Grp 1 (plus (none_of (str "]")));
       lit "]"; ws; lit ")"].
Definition quoted_name_pattern : regex := seq [quote; Grp 1 ident; quote].

(** The types of the first recogniser that stand for an index or a constraint
    and not for a column. *)
Definition constraint_types : list text :=
  List.map str ["index"; "unique"; "primary"; "foreign"; "fullText";
                "spatialIndex"]%string.

(** [m.group(1) if m else None] *)
Definition group1_opt (m : option rmatch) : option text :=
  option_map (fun m' => group_str m' 1) m.

(** The operation of one explicit foreign-key declaration. *)
Definition foreign_op (fk : rmatch) : Op :=
  let col := group_str fk 1 in
  let chain := group_str fk 2 in
  {| op_action := str "add"; op_name := col; op_type := str "foreign";
     op_references := group1_opt (search references_pattern chain);
     op_on := group1_opt (search on_pattern chain);
     op_on_delete := group1_opt (search on_delete_pattern chain);
     op_on_update := group1_opt (search on_update_pattern chain) |}.

(** The operations of one block body, in the order in which the recognisers
    of [_parse_migration_file] append them to [ops]. *)
Definition ops_of_body (body : text) : list Op :=
  flat_map
    (fun add =>
       let col_type := group_str add 1 in
       let col_name := group_str add 2 in
       if mem col_type constraint_types then []
       else [mk_op "add" col_name col_type])
    (finditer add_pattern body)
  ++ List.map
       (fun add => mk_op "add" (group_or add 2 (str "id")) (group_str add 1))
       (finditer id_pattern body)
  ++ (if contains body (str "timestamps()")
      then [mk_op "add" (str "created_at") (str "timestamp");
            mk_op "add" (str "updated_at") (str "timestamp")]
      else [])
  ++ (if contains body (str "softDeletes()")
      then [mk_op "add" (str "deleted_at") (str "timestamp")]
      else [])
  ++ List.map
       (fun add => mk_op "add" (group_str add 1) (str "foreignId"))
       (finditer foreign_id_pattern body)
  ++ List.map
       (fun idx => mk_op "add" (group_str idx 2) (group_str idx 1))
       (finditer index_pattern body)
  ++ List.map foreign_op (finditer foreign_pattern body)
  ++ List.map
       (fun drop => mk_op "drop" (group_str drop 1) (str "drop"))
       (finditer drop_pattern body)
  ++ flat_map
       (fun drop_arr =>
          List.map (fun name => mk_op "drop" name (str "drop"))
                   (findall1 quoted_name_pattern (group_str drop_arr 1)))
       (finditer drop_array_pattern body).

(** [_parse_migration_file], after the file is read: the pairs
    [(table_name, ops)] it yields, one per block. *)
Definition parse_migration_content (content : text)
  : list (text * list Op) :=
  List.map
    (fun m => (group_str m 2, ops_of_body (group_str m 3)))
    (finditer block_pattern (apply_section content)).

(** [_parse_migration_file] *)
Definition _parse_migration_file (file_path : file)
  : result (list (text * list Op)) :=
  bind (read_text file_path) (fun content =>
  Ok (parse_migration_content content)).

End MigrationFile.

(* ------------------------------------------------------------------ *)
(** *** Migrations: the fold of [parse_migrations] *)

(** An entry of [table_indexes]: the keys [column] and [type]. *)
Record Index := { idx_column : text; idx_type : text }.

(** An entry of [table_fks]. *)
Record ForeignKey := {
  fk_column : text;
  fk_references : option text;
  fk_on : option text;
  fk_on_delete : option text;
  fk_on_update : option text
}.

(** The four dictionaries of [parse_migrations], keyed by table name. *)
Record Tables := {
  table_schemas : dict (dict text);
  table_indexes : dict (list Index);
  table_fks : dict (list ForeignKey);
  table_files : dict (list text)
}.

Definition no_tables : Tables :=
  {| table_schemas := []; table_indexes := []; table_fks := [];
     table_files := [] |}.

(** What the loop over [ops] works on: [schema], [idxs] and [fks] of the
    table of the block. *)
Definition TableState : Type := (dict text * list Index * list ForeignKey)%type.

Definition index_types : list text :=
  List.map str ["index"; "unique"; "primary"]%string.

(** The body of [for op in ops]. *)
Definition apply_op (st : TableState) (op : Op) : TableState :=
  let '(schema, idxs, fks) := st in
  if text_eqb (op_action op) (str "add") then
    if mem (op_type op) index_types then
      (schema, idxs ++ [{| idx_column := op_name op; idx_type := op_type op |}], fks)
    else if text_eqb (op_type op) (str "foreign") then
      (schema, idxs,
       fks ++ [{| fk_column := op_name op;
                  fk_references := op_references op;
                  fk_on := op_on op;
                  fk_on_delete := op_on_delete op;
                  fk_on_update := op_on_update op |}])
    else (dict_set (op_name op) (op_type op) schema, idxs, fks)
  else if text_eqb (op_action op) (str "drop") then
    (dict_pop (op_name op) schema, idxs, fks)
  else st.

(** The body of [for table_name, ops in self._parse_migration_file(...)].
    [setdefault] hands out the list or dictionary stored under the table, and
    the loop changes that object in place: here the value is read, changed
    and stored back under its key, which keeps its place. *)
Definition process_block (file_name : text) (st : Tables)
           (block : text * list Op) : Tables :=
  let (table_name, ops) := block in
  if negb (truthy table_name) then st
  else
    let files0 := dict_setdefault table_name [] (table_files st) in
    let names := dict_get_or table_name [] files0 in
    let files1 :=
      if mem file_name names then files0
      else dict_set table_name (names ++ [file_name]) files0 in
    let schemas0 := dict_setdefault table_name [] (table_schemas st) in
    let indexes0 := dict_setdefault table_name [] (table_indexes st) in
    let fks0 := dict_setdefault table_name [] (table_fks st) in
    let '(schema, idxs, fks) :=
      fold_left apply_op ops
                (dict_get_or table_name [] schemas0,
                 dict_get_or table_name [] indexes0,
                 dict_get_or table_name [] fks0) in
    {| table_schemas := dict_set table_name schema schemas0;
       table_indexes := dict_set table_name idxs indexes0;
       table_fks := dict_set table_name fks fks0;
       table_files := files1 |}.

(** A migration document after [_parse_migration_file]: the name of the file
    and the blocks it yields. *)
Definition Document : Type := (text * list (text * list Op))%type.

(** The loop over the migration files, on the documents in the order given. *)
Definition fold_documents (docs : list Document) : Tables :=
  fold_left
    (fun st doc => fold_left (process_block (fst doc)) (snd doc) st)
    docs no_tables.

(** An entry of the [columns] list of a result. *)
Record Column := { col_name : text; col_type : text }.

(** One entry of the list [parse_migrations] returns. *)
Record TableSchema := {
  table_name : text;
  columns : list Column;
  files : list text;
  indexes : list Index;
  foreign_keys : list ForeignKey
}.

(** The entry built for one item [(table, cols)] of [table_schemas]. *)
Definition result_entry (st : Tables) (item : text * dict text) : TableSchema :=
  let (table, cols) := item in
  {| table_name := table;
     columns :=
       List.map
         (fun name => {| col_name := name;
                         col_type := dict_get_or name [] cols |})
         (List.map fst cols);
     files := dict_get_or table [] (table_files st);
     indexes := dict_get_or table [] (table_indexes st);
     foreign_keys := dict_get_or table [] (table_fks st) |}.

(** The end of [parse_migrations]: one entry per table, sorted by name. *)
Definition format_result (st : Tables) : list TableSchema :=
  sort_by table_name (List.map (result_entry st) (table_schemas st)).

(** The schema that [parse_migrations] reconstructs from documents processed
    in the order given. *)
Definition reconstruct (docs : list Document) : list TableSchema :=
  format_result (fold_documents docs).

Section Migrations.
Context {U : UnicodeDB}.

(** The loop header of [parse_migrations]: the files in the order of
    [sorted], each read by [_parse_migration_file]. *)
Definition read_documents (migration_files : list (text * file))
  : result (list Document) :=
  for_each
    (fun migration_file =>
       bind (_parse_migration_file (snd migration_file))
            (fun blocks => Ok (fst migration_file, blocks)))
    (sort_by fst migration_files).

(** [parse_migrations]: [migrations_dir] is [None] when the directory does not
    exist, and otherwise lists the [*.php] files with their names. *)
Definition parse_migrations (migrations_dir : option (list (text * file)))
  : result (list TableSchema) :=
  match migrations_dir with
  | None => Ok []
  | Some migration_files =>
      bind (read_documents migration_files) (fun docs => Ok (reconstruct docs))
  end.

End Migrations.

End Laravel.

(* ================================================================== *)
(** ** [core/ai_backend.py] and [core/ai_client.py]: [generate_json] *)
(* ================================================================== *)

(** What the two [generate_json] methods have in common. *)
Module Json.
Import Py.

(** The fence of a code block and the fence annotated with [json]. *)
Definition fence : text := str "```".
Definition fence_json : text := str "```json".
Definition newline : text := [10%N].

(** The two fixed parts of the message of the [ValueError]: the text before
    the description of the decoding error, and the text between it and the
    response (a line feed and the label of the response). *)
Definition error_head : text :=
  [74; 83; 79; 78; 35299; 26512; 12456; 12521; 12540; 58; 32]%N.
Definition error_label : text :=
  [10; 12524; 12473; 12509; 12531; 12473; 58; 32]%N.

(** [lines = text.split('\n'); text = '\n'.join(lines[1:-1])] *)
Definition drop_fence_lines (t : text) : text :=
  let lines := split 10%N t in
  join newline (slice lines 1 (-1)).

(** [f'... {e}\n...: {text[:500]}...'] *)
Definition error_message (e t : text) : text :=
  error_head ++ e ++ error_label ++ slice_to t 500 ++ str "...".

Section Loads.

(** [json.loads] belongs to the standard library of Python: a text is decoded
    to a value, or rejected with a [JSONDecodeError] and its description. *)
Variable JSON : Type.
Variable json_loads : text -> JSON + text.

(** [try: return json.loads(text)]
    [except json.JSONDecodeError as e: raise ValueError(...)] *)
Definition loads_or_raise (t : text) : result JSON :=
  match json_loads t with
  | inl v => Ok v
  | inr e => Raise (ValueError (error_message e t))
  end.

End Loads.

End Json.

(** The abstract class [AIBackend]. *)
Module AIBackend.
Import Py Json.

Section GenerateJson.
Context {U : UnicodeDB}.
Variable JSON : Type.
Variable json_loads : text -> JSON + text.

(** The text that [generate_json] hands to [json.loads]. *)
Definition payload (t : text) : text :=
  if contains t fence_json then
    let start := (find t fence_json 0 + 7)%Z in
    let end_ := rfind t fence in
    strip (slice t start end_)
  else if startswith t fence then drop_fence_lines t
  else t.

(** [generate_json], on the text that [self.generate(prompt)] returned. *)
Definition generate_json (generated : text) : result JSON :=
  loads_or_raise json_loads (payload generated).

End GenerateJson.

End AIBackend.

(** The class [AIClient]. *)
Module AIClient.
Import Py Json.

Section GenerateJson.
Context {U : UnicodeDB}.
Variable JSON : Type.
Variable json_loads : text -> JSON + text.

(** [generate]: the text of the response of the model, stripped. *)
Definition generate (response_text : text) : text := strip response_text.

(** The text that [generate_json] hands to [json.loads]. *)
Definition payload (t : text) : text :=
  if startswith t fence then drop_fence_lines t else t.

(** [generate_json], on the text of the response of the model. *)
Definition generate_json (response_text : text) : result JSON :=
  loads_or_raise json_loads (payload (generate response_text)).

End GenerateJson.

End AIClient.

(* ================================================================== *)
(** ** [plugins/laravel/parser.py]: controllers, models and the endpoint *)
(* ================================================================== *)

Module Controllers.
Import Py Re Laravel.

(** An entry of [methods]: the keys [name] and [parameters], and the key
    [note] for a method that a trait brings (absent otherwise). *)
Record Method := {
  name : text;
  parameters : option text;
  note : option text
}.

(** An entry of [validations]: the keys [field] and [rules]. *)
Record Validation := { field : text; rules : text }.

(** What [_parse_controller_file] returns for a controller. *)
Record Controller := {
  class_name : text;
  file_path : text;
  methods : list Method;
  traits : list text;
  validations : list Validation
}.

(** The dictionary [known] of [_augment_auth_methods]. *)
Definition known : dict (list text) :=
  [(str "AuthenticatesUsers", List.map str ["login"; "logout"; "showLoginForm"]%string);
   (str "RegistersUsers", List.map str ["showRegistrationForm"; "register"]%string);
   (str "ResetsPasswords", List.map str ["showResetForm"; "reset"]%string);
   (str "VerifiesEmails", List.map str ["verify"; "show"]%string)].

(** [{'name': name, 'parameters': None, 'note': f'from {t}'}] *)
Definition trait_method (t nm : text) : Method :=
  {| name := nm; parameters := None; note := Some (str "from " ++ t) |}.

(** [_augment_auth_methods]: the set [existing] is built once, before the
    loops, from the methods given. *)
Definition _augment_auth_methods (traits : list text) (methods : list Method)
  : list Method :=
  let existing := List.map name methods in
  fold_left
    (fun ms t =>
       match dict_get t known with
       | Some names =>
           fold_left
             (fun ms' nm =>
                if mem nm existing then ms' else ms' ++ [trait_method t nm])
             names ms
       | None => ms
       end)
    traits methods.

Section Files.
Context {U : UnicodeDB}.

(** [class\s+(\w+)\s+extends\s+Controller] *)
Definition class_pattern : regex :=
  seq [lit "class"; plus space; Grp 1 ident; plus space; lit "extends";
       plus space; lit "Controller"].

(** [use\s+([\w\\]+);] *)
Definition use_pattern : regex :=
  seq [lit "use"; plus space; Grp 1 (plus class_name_char); lit ";"].

(** [public\s+function\s+(\w+)\s*\(([^)]* )\)] *)
Definition method_pattern : regex :=
  seq [lit "public"; plus space; lit "function"; plus space; Grp 1 ident; ws;
       lit "("; Grp 2 (Star (none_of (str ")"))); lit ")"].

(** [validate\s*\(\s*\[\s*(.*?)\s*\]\s*\)], compiled with [re.DOTALL]. *)
Definition validate_pattern : regex :=
  seq [lit "validate"; ws; lit "("; ws; lit "["; ws; Grp 1 (LazyStar any); ws;
       lit "]"; ws; lit ")"].

(** [Validator::make\s*\(\s*[^,]+,\s*\[\s*(.*?)\s*\]\s*\)], compiled with
    [re.DOTALL]. *)
Definition validator_pattern : regex :=
  seq [lit "Validator::make"; ws; lit "("; ws; plus (none_of (str ","));
       lit ","; ws; lit "["; ws; Grp 1 (LazyStar any); ws; lit "]"; ws; lit ")"].

(** [Q(\w+)Q\s*=>\s*Q([^Q]+)Q] *)
Definition rule_pattern : regex :=
  seq [quote; Grp 1 ident; quote; ws; lit "=>"; ws; quote;
       Grp 2 (plus (none_of quotes)); quote].

(** [trait_match.group(1).split('\\')[-1]] *)
Definition trait_name (trait_match : rmatch) : text :=
  last (split 92%N (group_str trait_match 1)) [].

(** The body of the loop over [method_pattern]. *)
Definition method_of_match (m : rmatch) : list Method :=
  let method_name := group_str m 1 in
  let params := strip (group_str m 2) in
  if startswith method_name (str "__") then []
  else [{| name := method_name;
           parameters := if truthy params then Some params else None;
           note := None |}].

(** The rules of one validation body. *)
Definition rules_of_body (body : text) : list Validation :=
  List.map (fun rule => {| field := group_str rule 1; rules := group_str rule 2 |})
           (finditer rule_pattern body).

(** [_parse_controller_file], after the file is read; [relative_path] is the
    path of the file under the project root. *)
Definition parse_controller_content (relative_path content : text)
  : option Controller :=
  match search class_pattern content with
  | None => None
  | Some class_match =>
      let traits := List.map trait_name (finditer use_pattern content) in
      let methods := flat_map method_of_match (finditer method_pattern content) in
      let methods := _augment_auth_methods traits methods in
      let validations :=
        flat_map (fun vm => rules_of_body (group_str vm 1))
                 (finditer validate_pattern content)
        ++ flat_map (fun vm => rules_of_body (group_str vm 1))
                    (finditer validator_pattern content) in
      Some {| class_name := group_str class_match 1;
              file_path := relative_path;
              methods := methods;
              traits := traits;
              validations := validations |}
  end.

(** [_parse_controller_file] *)
Definition _parse_controller_file (relative_path : text) (f : file)
  : result (option Controller) :=
  bind (read_text f) (fun content =>
  Ok (parse_controller_content relative_path content)).

End Files.

End Controllers.

Module Models.
Import Py Re Laravel.

(** An entry of [relations]: the keys [method], [type] and [related_model]. *)
Record Relation := {
  method : text;
  type : text;
  related_model : text
}.

(** What [_parse_model_file] returns for a model. *)
Record Model := {
  class_name : text;
  file_path : text;
  table_name : option text;
  fillable : list text;
  relations : list Relation
}.

Section Files.
Context {U : UnicodeDB}.

(** [class\s+(\w+)\s+extends\s+Model] *)
Definition class_pattern : regex :=
  seq [lit "class"; plus space; Grp 1 ident; plus space; lit "extends";
       plus space; lit "Model"].

(** [protected\s+\$table\s*=\s*Q(\w+)Q] *)
Definition table_pattern : regex :=
  seq [lit "protected"; plus space; lit "$table"; ws; lit "="; ws; quote;
       Grp 1 ident; quote].

(** [protected\s+\$fillable\s*=\s*\[(.*?)\]], compiled with [re.DOTALL]. *)
Definition fillable_pattern : regex :=
  seq [lit "protected"; plus space; lit "$fillable"; ws; lit "="; ws; lit "[";
       Grp 1 (LazyStar any); lit "]"].

(** [(belongsTo|hasMany|hasOne|belongsToMany)] *)
Definition relation_kind : regex :=
  alts [lit "belongsTo"; lit "hasMany"; lit "hasOne"; lit "belongsToMany"].

(** [public\s+function\s+(\w+)\s*\([^)]*\)\s*:\s*\w+\s*\{\s*return\s+\$this->(KIND)\((\w+)::class] *)
Definition relation_pattern : regex :=
  seq [lit "public"; plus space; lit "function"; plus space; Grp 1 ident; ws;
       lit "("; Star (none_of (str ")")); lit ")"; ws; lit ":"; ws; ident; ws;
       lit "{"; ws; lit "return"; plus space; lit "$this->";
       Grp 2 relation_kind; lit "("; Grp 3 ident; lit "::class"].

(** [_extract_relations] *)
Definition _extract_relations (content : text) : list Relation :=
  List.map
    (fun m => {| method := group_str m 1;
                 type := group_str m 2;
                 related_model := group_str m 3 |})
    (finditer relation_pattern content).

(** [_parse_model_file], after the file is read.  The list of [fillable] is
    built by the comprehension that builds a middleware list. *)
Definition parse_model_content (relative_path content : text) : option Model :=
  match search class_pattern content with
  | None => None
  | Some class_match =>
      Some {| class_name := group_str class_match 1;
              file_path := relative_path;
              table_name := group1_opt (search table_pattern content);
              fillable :=
                match search fillable_pattern content with
                | Some fillable_match => middleware_list (group_str fillable_match 1)
                | None => []
                end;
              relations := _extract_relations content |}
  end.

(** [_parse_model_file] *)
Definition _parse_model_file (relative_path : text) (f : file)
  : result (option Model) :=
  bind (read_text f) (fun content =>
  Ok (parse_model_content relative_path content)).

End Files.

End Models.

Module GraphQL.
Import Py Re Laravel.

(** ['route'\s*=>\s*Q([^Q]+)Q] *)
Definition endpoint_pattern {U : UnicodeDB} : regex :=
  seq [lit "'route'"; ws; lit "=>"; ws; quote; Grp 1 (plus (none_of quotes));
       quote].

(** [parse_graphql_endpoint]: [config_file] is [None] when
    [config/lighthouse.php] does not exist. *)
Definition parse_graphql_endpoint {U : UnicodeDB} (config_file : option file)
  : result text :=
  match config_file with
  | Some f =>
      bind (read_text f) (fun content =>
      match search endpoint_pattern content with
      | Some m => Ok (group_str m 1)
      | None => Ok (str "/graphql")
      end)
  | None => Ok (str "/graphql")
  end.

End GraphQL.

(* ================================================================== *)
(** ** [core/notion_exporter.py]: Markdown lines to blocks *)
(* ================================================================== *)

Module Notion.
Import Py.

Local Open Scope N_scope.

(** The value under the key [type] of a block. *)
Inductive block_type :=
| heading_1
| heading_2
| heading_3
| bulleted_list_item
| paragraph.

(** A block: its type and the [content] of its text. *)
Record Block := { type : block_type; content : text }.

(** The characters at which [str.splitlines] ends a line. *)
Definition is_linebreak (c : char) : bool :=
  between 10 13 c || between 28 30 c || (c =? 133) || (c =? 8232)
  || (c =? 8233).

(** [s.splitlines()]: CR LF ends one line, and the end of the text after a
    line end opens no line. *)
Fixpoint splitlines (s : text) : list text :=
  match s with
  | [] => []
  | c :: s' =>
      if is_linebreak c then
        [] :: match s' with
              | d :: s'' =>
                  if (c =? 13) && (d =? 10) then splitlines s''
                  else splitlines s'
              | [] => []
              end
      else match splitlines s' with
           | l :: ls => (c :: l) :: ls
           | [] => [[c]]
           end
  end.

Section Lines.
Context {U : UnicodeDB}.

(** [_line_to_block]: the empty dictionary of a blank line is [None]. *)
Definition _line_to_block (line : text) : option Block :=
  let line := rstrip_by isspace line in
  if negb (truthy line) then None
  else if startswith line (str "### ") then
    Some {| type := heading_3; content := slice line 4 (Z.of_nat (List.length line)) |}
  else if startswith line (str "## ") then
    Some {| type := heading_2; content := slice line 3 (Z.of_nat (List.length line)) |}
  else if startswith line (str "# ") then
    Some {| type := heading_1; content := slice line 2 (Z.of_nat (List.length line)) |}
  else if startswith line (str "- ") then
    Some {| type := bulleted_list_item;
            content := slice line 2 (Z.of_nat (List.length line)) |}
  else Some {| type := paragraph; content := line |}.

(** [markdown_to_blocks] *)
Definition markdown_to_blocks (markdown : text) : list Block :=
  flat_map
    (fun raw_line =>
       match _line_to_block raw_line with
       | Some block => [block]
       | None => []
       end)
    (splitlines markdown).

End Lines.

(** [range(start, stop, step)] for a positive step. *)
Fixpoint range_from (fuel : nat) (i stop step : Z) : list Z :=
  match fuel with
  | O => []
  | S fuel' =>
      if (i <? stop)%Z then i :: range_from fuel' (i + step)%Z stop step
      else []
  end.

Definition range (start stop step : Z) : list Z :=
  range_from (Z.to_nat (stop - start)) start stop step.

(** The calls that [upload_markdown] makes to the client of Notion. *)
Inductive call :=
| pages_create (parent_page_id title : text) (children : list Block)
| children_append (page_id : text) (children : list Block).

Definition children_of (c : call) : list Block :=
  match c with
  | pages_create _ _ children => children
  | children_append _ children => children
  end.

(** [upload_markdown], as the calls it makes in order; [page_id] is the [id]
    of the response to the first call. *)
Definition upload_markdown {U : UnicodeDB}
           (markdown parent_page_id title page_id : text) : list call :=
  let blocks := markdown_to_blocks markdown in
  pages_create parent_page_id title (slice_to blocks 100)
  :: List.map
       (fun i => children_append page_id (slice blocks i (i + 100)%Z))
       (range 100 (Z.of_nat (List.length blocks)) 100).

End Notion.

(* ================================================================== *)
(** ** [plugins/laravel/parser.py]: the operations of a GraphQL schema *)
(* ================================================================== *)

(** [parse_graphql_operations]: the fields of the [extend type] blocks. *)
Module Operations.
Import Py Re Laravel.

(** An entry of [queries] or [mutations]: the keys [name], [args] and
    [return]. *)
Record Operation := { name : text; args : text; ret : text }.

Section Schemas.
Context {U : UnicodeDB}.

(** [[\w\[\]!]]: a character of a return type. *)
Definition type_char (c : char) : bool :=
  isword c || (c =? 91)%N || (c =? 93)%N || (c =? 33)%N.

(** [extend\s+type\s+KIND\s*\{(.*?)\}], compiled with [re.DOTALL]. *)
Definition block_pattern (kind : string) : regex :=
  seq [lit "extend"; plus space; lit "type"; plus space; lit kind; ws;
       lit "{"; Grp 1 (LazyStar any); lit "}"].

(** [(\w+)\s*\(([^)]* )\)\s*:\s*([\w\[\]!]+)] *)
Definition call_pattern : regex :=
  seq [Grp 1 ident; ws; lit "("; Grp 2 (Star (none_of (str ")"))); lit ")"; ws;
       lit ":"; ws; Grp 3 (plus (Cls type_char))].

(** [(\w+)\s*:\s*([\w\[\]!]+)] *)
Definition field_pattern : regex :=
  seq [Grp 1 ident; ws; lit ":"; ws; Grp 2 (plus (Cls type_char))].

(** The body of the loop over the lines of a block; [re.match] looks for a
    match at the start of the line. *)
Definition ops_of_line (line : text) : list Operation :=
  let line := strip line in
  if negb (truthy line) || startswith line (str "#") then []
  else
    match match_here call_pattern line with
    | Some m =>
        [{| name := group_str m 1; args := group_str m 2; ret := group_str m 3 |}]
    | None =>
        match match_here field_pattern line with
        | Some m =>
            [{| name := group_str m 1; args := []; ret := group_str m 2 |}]
        | None => []
        end
    end.

(** [extract_ops] *)
Definition extract_ops (kind : string) (content : text) : list Operation :=
  flat_map (fun block => flat_map ops_of_line (Notion.splitlines block))
           (findall1 (block_pattern kind) content).

(** [parse_graphql_operations], on the contents of the schema files in the
    order of the dictionary: the queries and the mutations. *)
Definition parse_graphql_operations (schemas : list text)
  : list Operation * list Operation :=
  (flat_map (extract_ops "Query") schemas,
   flat_map (extract_ops "Mutation") schemas).

End Schemas.

End Operations.

(* ================================================================== *)
(** ** The words of the specification *)
(* ================================================================== *)

(** The notions the specification states its properties with, defined on
    their own; the theorems below compare them with the code. *)
Module Spec.
Import Py Laravel.

(** A block with the name of the document it comes from. *)
Definition Block : Type := (text * (text * list Op))%type.

Definition block_file (b : Block) : text := fst b.
Definition block_table (b : Block) : text := fst (snd b).
Definition block_ops (b : Block) : list Op := snd (snd b).

(** The blocks of the documents, in the order in which they are processed. *)
Definition blocks_of (docs : list Document) : list Block :=
  flat_map (fun doc => List.map (pair (fst doc)) (snd doc)) docs.

(** The blocks that name a table. *)
Definition live_blocks (docs : list Document) : list Block :=
  filter (fun b => truthy (block_table b)) (blocks_of docs).

(** The blocks of one table, and its operations, in processing order. *)
Definition blocks_for (t : text) (bs : list Block) : list Block :=
  filter (fun b => text_eqb (block_table b) t) bs.

Definition table_ops (t : text) (docs : list Document) : list Op :=
  flat_map block_ops (blocks_for t (live_blocks docs)).

(** The distinct elements of a list, each at its first occurrence. *)
Fixpoint firsts (l : list text) : list text :=
  match l with
  | [] => []
  | x :: l' => x :: filter (fun y => negb (text_eqb y x)) (firsts l')
  end.

(** The tables the documents touch, in the order of their first block. *)
Definition touched (docs : list Document) : list text :=
  firsts (List.map block_table (live_blocks docs)).

(** A document touches a table when one of its blocks names it. *)
Definition touches (doc : Document) (t : text) : Prop :=
  truthy t = true /\ In t (List.map fst (snd doc)).

(** Documents that touch pairwise disjoint tables. *)
Definition disjoint_documents (d1 d2 : Document) : Prop :=
  forall t, ~ (touches d1 t /\ touches d2 t).

Definition pairwise_disjoint (docs : list Document) : Prop :=
  ForallOrdPairs disjoint_documents docs.

(** A table that at most one document of the list touches. *)
Fixpoint touched_by_at_most_one (t : text) (docs : list Document) : Prop :=
  match docs with
  | [] => True
  | d :: docs' =>
      (touches d t -> forall d', In d' docs' -> ~ touches d' t)
      /\ touched_by_at_most_one t docs'
  end.

(** The kinds of operation: an Add of a column, a Drop, the declaration of an
    index, the declaration of a foreign key. *)
Definition is_add (op : Op) : bool :=
  text_eqb (op_action op) (str "add")
  && negb (mem (op_type op) index_types)
  && negb (text_eqb (op_type op) (str "foreign")).

Definition is_drop (op : Op) : bool := text_eqb (op_action op) (str "drop").

Definition is_index (op : Op) : bool :=
  text_eqb (op_action op) (str "add") && mem (op_type op) index_types.

Definition is_foreign_key (op : Op) : bool :=
  text_eqb (op_action op) (str "add") && text_eqb (op_type op) (str "foreign").

(** The columns of a table as a map from names to types, and the net effect
    of a sequence of operations on it: an Add inserts or overwrites the type
    of its column, a Drop removes its column, nothing else changes the map. *)
Definition ColumnMap : Type := text -> option text.

Definition net_step (m : ColumnMap) (op : Op) : ColumnMap :=
  if is_add op then
    fun c => if text_eqb c (op_name op) then Some (op_type op) else m c
  else if is_drop op then
    fun c => if text_eqb c (op_name op) then None else m c
  else m.

Definition net_effect (ops : list Op) : ColumnMap :=
  fold_left net_step ops (fun _ => None).

(** The index and foreign-key records that a sequence of operations declares,
    in order. *)
Definition index_record (op : Op) : Index :=
  {| idx_column := op_name op; idx_type := op_type op |}.

Definition foreign_key_record (op : Op) : ForeignKey :=
  {| fk_column := op_name op;
     fk_references := op_references op;
     fk_on := op_on op;
     fk_on_delete := op_on_delete op;
     fk_on_update := op_on_update op |}.

Definition declared_indexes (ops : list Op) : list Index :=
  List.map index_record (filter is_index ops).

Definition declared_foreign_keys (ops : list Op) : list ForeignKey :=
  List.map foreign_key_record (filter is_foreign_key ops).

(** The entry of a table in a result. *)
Definition find_table (t : text) (res : list TableSchema) : option TableSchema :=
  List.find (fun r => text_eqb (table_name r) t) res.

(** The type a result entry gives a column. *)
Definition column_type (r : TableSchema) (c : text) : option text :=
  option_map col_type
    (List.find (fun col => text_eqb (col_name col) c) (columns r)).

(** The names of the documents that hold a block of a table, each once. *)
Definition source_files (t : text) (docs : list Document) : list text :=
  firsts (List.map block_file (blocks_for t (live_blocks docs))).

(** A middleware list as a declaration writes it: the names between
    apostrophes, separated by a comma and a blank; and a name that holds no
    comma and no quote character. *)
Definition quoted (n : text) : text := str "'" ++ n ++ str "'".

Definition declared (names : list text) : text :=
  join (str ", ") (List.map quoted names).

Definition plain (n : text) : Prop :=
  n <> [] /\ forall c, In c n -> c <> 44%N /\ one_of Re.quotes c = false.

End Spec.

(* ================================================================== *)
(** ** Documents of the scenarios *)
(* ================================================================== *)

Module Scenarios.
Import Py Laravel.

(** A document, line by line. *)
Definition php (ls : list string) : string :=
  String.concat (String "010"%char EmptyString) ls.

(** *** Route files *)

(** One ungrouped route and one group with a prefix and a middleware, as
    Laravel writes the group: the calls are chained with arrows. *)
Definition routes_laravel : string :=
  php ["<?php";
       "";
       "Route::get('/health', [HealthController::class, 'check']);";
       "";
       "Route::middleware('auth')->prefix('api')->group(function () {";
       "    Route::get('/users', [UserController::class, 'index']);";
       "});";
       ""]%string.

(** The same file with the calls of the group written one after the other,
    the only shape [group_pattern] matches. *)
Definition routes_chained : string :=
  php ["<?php";
       "";
       "Route::get('/health', [HealthController::class, 'check']);";
       "";
       "Route::middleware('auth')prefix('api')group(function () {";
       "    Route::get('/users', [UserController::class, 'index']);";
       "});";
       ""]%string.

Definition route_health : Route :=
  {| method := str "GET"; uri := str "/health";
     action := str "HealthController@check"; middleware := [] |}.

Definition route_users (u : string) (mw : list string) : Route :=
  {| method := str "GET"; uri := str u;
     action := str "UserController@index"; middleware := List.map str mw |}.

(** A group with the middleware A and B around a route with its own
    middleware: C, or A once more. *)
Definition group_ab (own : string) : string :=
  php ["Route::middleware('A', 'B')group(function () {";
       "    Route::get('/reports', 'ReportController@index')->middleware('"
         ++ own ++ "');";
       "});"]%string.

Definition route_reports (mw : list string) : Route :=
  {| method := str "GET"; uri := str "/reports";
     action := str "ReportController@index";
     middleware := List.map str mw |}.

(** A group with the prefix [api], and a group without a prefix. *)
Definition group_prefix_api : string :=
  php ["Route::prefix('api')group(function () {";
       "    Route::get('/users', 'UserController@index');";
       "});"]%string.

Definition group_no_prefix : string :=
  php ["Route::group(function () {";
       "    Route::get('/users', 'UserController@index');";
       "});"]%string.

(** A route file that declares no route. *)
Definition routes_none : string :=
  php ["<?php";
       "";
       "// The API of this project is served by its GraphQL schema.";
       ""]%string.

(** *** Migration files *)

Definition create_todos_name : text :=
  str "2024_01_01_000000_create_todos_table.php".
Definition alter_todos_name : text :=
  str "2024_01_02_000000_add_done_to_todos_table.php".

(** [todos] is created with [id] and [title]. *)
Definition create_todos : string :=
  php ["<?php";
       "";
       "return new class extends Migration";
       "{";
       "    public function up(): void";
       "    {";
       "        Schema::create('todos', function (Blueprint $table) {";
       "            $table->id();";
       "            $table->string('title');";
       "        });";
       "    }";
       "";
       "    public function down(): void";
       "    {";
       "        Schema::dropIfExists('todos');";
       "    }";
       "};";
       ""]%string.

(** [todos] gets [done] and loses [title]. *)
Definition alter_todos : string :=
  php ["<?php";
       "";
       "return new class extends Migration";
       "{";
       "    public function up(): void";
       "    {";
       "        Schema::table('todos', function (Blueprint $table) {";
       "            $table->boolean('done');";
       "            $table->dropColumn('title');";
       "        });";
       "    }";
       "";
       "    public function down(): void";
       "    {";
       "        Schema::table('todos', function (Blueprint $table) {";
       "            $table->string('title');";
       "            $table->dropColumn('done');";
       "        });";
       "    }";
       "};";
       ""]%string.

Definition todos_schema : TableSchema :=
  {| table_name := str "todos";
     columns := [ {| col_name := str "id"; col_type := str "id" |};
                  {| col_name := str "done"; col_type := str "boolean" |} ];
     files := [create_todos_name; alter_todos_name];
     indexes := [];
     foreign_keys := [] |}.

(** The two sections of a migration that drops the table [legacy]: [up()]
    drops it and [down()] creates it again. *)
Definition drop_legacy_up : list string :=
  ["    public function up(): void";
   "    {";
   "        Schema::dropIfExists('legacy');";
   "    }"]%string.

Definition drop_legacy_down : list string :=
  ["    public function down(): void";
   "    {";
   "        Schema::create('legacy', function (Blueprint $table) {";
   "            $table->id();";
   "            $table->string('name');";
   "        });";
   "    }"]%string.

Definition migration_class (first second : list string) : string :=
  php (["<?php"; ""; "return new class extends Migration"; "{"]%string
       ++ first ++ [""%string] ++ second ++ ["};"; ""]%string).

(** The class with [up()] before [down()], and with [down()] before [up()]. *)
Definition drop_legacy_up_first : string :=
  migration_class drop_legacy_up drop_legacy_down.
Definition drop_legacy_down_first : string :=
  migration_class drop_legacy_down drop_legacy_up.

Definition drop_legacy_name : text :=
  str "2024_03_01_000000_drop_legacy_table.php".

Definition legacy_schema : TableSchema :=
  {| table_name := str "legacy";
     columns := [ {| col_name := str "name"; col_type := str "string" |};
                  {| col_name := str "id"; col_type := str "id" |} ];
     files := [drop_legacy_name];
     indexes := [];
     foreign_keys := [] |}.

(** A migration saved in Latin-1: the comment holds the byte E9, an e with an
    acute accent, which is not UTF-8. *)
Definition latin1_migration : file :=
  bytes "<?php // caf" ++ [Byte.xe9] ++ bytes (php [""; "return 0;"; ""]%string).

Definition latin1_name : text :=
  str "2024_04_01_000000_create_cafes_table.php".

(** [posts] is created with a unique index and a foreign key, and a later
    document drops the two columns they are on. *)
Definition create_posts_name : text :=
  str "2024_02_01_000000_create_posts_table.php".
Definition trim_posts_name : text :=
  str "2024_02_02_000000_trim_posts_table.php".

Definition create_posts : string :=
  php ["<?php";
       "";
       "return new class extends Migration";
       "{";
       "    public function up(): void";
       "    {";
       "        Schema::create('posts', function (Blueprint $table) {";
       "            $table->id();";
       "            $table->string('slug');";
       "            $table->unsignedBigInteger('user_id');";
       "            $table->unique('slug');";
       "            $table->foreign('user_id')->references('id')->on('users')->onDelete('cascade');";
       "        });";
       "    }";
       "};";
       ""]%string.

Definition trim_posts : string :=
  php ["<?php";
       "";
       "return new class extends Migration";
       "{";
       "    public function up(): void";
       "    {";
       "        Schema::table('posts', function (Blueprint $table) {";
       "            $table->dropColumn(['slug', 'user_id']);";
       "        });";
       "    }";
       "};";
       ""]%string.

Definition posts_schema : TableSchema :=
  {| table_name := str "posts";
     columns := [ {| col_name := str "id"; col_type := str "id" |} ];
     files := [create_posts_name; trim_posts_name];
     indexes := [ {| idx_column := str "slug"; idx_type := str "unique" |} ];
     foreign_keys :=
       [ {| fk_column := str "user_id";
            fk_references := Some (str "id");
            fk_on := Some (str "users");
            fk_on_delete := Some (str "cascade");
            fk_on_update := None |} ] |}.

(** The documents of the scenarios after [_parse_migration_file]: the blocks
    and operations the files above yield. *)
Definition doc_create_todos : Document :=
  (create_todos_name,
   [(str "todos", [mk_op "add" (str "title") (str "string");
                   mk_op "add" (str "id") (str "id")])]).

Definition doc_alter_todos : Document :=
  (alter_todos_name,
   [(str "todos", [mk_op "add" (str "done") (str "boolean");
                   mk_op "add" (str "title") (str "dropColumn");
                   mk_op "drop" (str "title") (str "drop")])]).

Definition doc_create_posts : Document :=
  (create_posts_name,
   [(str "posts",
     [mk_op "add" (str "slug") (str "string");
      mk_op "add" (str "user_id") (str "unsignedBigInteger");
      mk_op "add" (str "id") (str "id");
      mk_op "add" (str "slug") (str "unique");
      {| op_action := str "add"; op_name := str "user_id";
         op_type := str "foreign";
         op_references := Some (str "id"); op_on := Some (str "users");
         op_on_delete := Some (str "cascade"); op_on_update := None |}])]).

Definition doc_trim_posts : Document :=
  (trim_posts_name,
   [(str "posts", [mk_op "drop" (str "slug") (str "drop");
                   mk_op "drop" (str "user_id") (str "drop")])]).

(** Two documents on different tables, after [_parse_migration_file]. *)
Definition doc_users : Document :=
  (str "2024_05_01_000000_create_users_table.php",
   [(str "users", [mk_op "add" (str "id") (str "id");
                   mk_op "add" (str "email") (str "string")])]).

Definition doc_teams : Document :=
  (str "2024_05_02_000000_create_teams_table.php",
   [(str "teams", [mk_op "add" (str "id") (str "id");
                   mk_op "add" (str "name") (str "string");
                   mk_op "drop" (str "name") (str "drop")])]).

(** A stand-in for [json.loads] that accepts the text [null] and nothing
    else, to run [generate_json] on a response. *)
Definition loads_null (t : text) : unit + text :=
  if text_eqb t (str "null") then inl tt else inr (str "Expecting value").

End Scenarios.

(* ================================================================== *)
(** ** The fold, one dictionary at a time *)
(* ================================================================== *)

(** The loop of [parse_migrations] changes four dictionaries side by side.
    Each of them changes by itself: under the table of the block, the value
    stored (or the default of [setdefault]) is replaced by its image.  The
    definitions here name these separate changes; the facts below show that
    the code is made of them. *)
Module Model.
Import Py Laravel Spec.

Section Upsert.
Variable V : Type.
Variable dflt : V.

(** The value under [k], or the default, replaced by its image under [g]. *)
Definition upsert (k : text) (g : V -> V) (d : dict V) : dict V :=
  dict_set k (g (dict_get_or k dflt d)) d.

Definition apply_updates (ups : list (text * (V -> V))) (d : dict V) : dict V :=
  fold_left (fun d' u => upsert (fst u) (snd u) d') ups d.

(** The value that the updates of key [k] build from the default. *)
Definition value_of (k : text) (ups : list (text * (V -> V))) : V :=
  fold_left (fun v u => if text_eqb (fst u) k then snd u v else v) ups dflt.

End Upsert.

(** What one operation does to [schema], to [idxs] and to [fks]. *)
Definition schema_step (schema : dict text) (op : Op) : dict text :=
  if is_add op then dict_set (op_name op) (op_type op) schema
  else if is_drop op then dict_pop (op_name op) schema
  else schema.

Definition index_step (idxs : list Index) (op : Op) : list Index :=
  if is_index op then idxs ++ [index_record op] else idxs.

Definition foreign_key_step (fks : list ForeignKey) (op : Op) : list ForeignKey :=
  if is_foreign_key op then fks ++ [foreign_key_record op] else fks.

(** What one block does to the list of file names of its table. *)
Definition add_file (file_name : text) (names : list text) : list text :=
  if mem file_name names then names else names ++ [file_name].

(** The [columns] list of a result entry, from the dictionary of the table. *)
Definition columns_of (cols : dict text) : list Column :=
  List.map (fun name => {| col_name := name;
                           col_type := dict_get_or name [] cols |})
           (keys cols).

(** The columns dictionary that the operations of a table build. *)
Definition final_schema (ops : list Op) : dict text :=
  fold_left schema_step ops [].

(** The entry of a table, from the blocks of that table alone. *)
Definition table_entry (t : text) (docs : list Document) : TableSchema :=
  {| table_name := t;
     columns := columns_of (final_schema (table_ops t docs));
     files := source_files t docs;
     indexes := declared_indexes (table_ops t docs);
     foreign_keys := declared_foreign_keys (table_ops t docs) |}.

(** The updates the blocks make to each of the four dictionaries. *)
Definition schema_updates (bs : list Block) : list (text * (dict text -> dict text)) :=
  List.map (fun b => (block_table b,
                      fun s => fold_left schema_step (block_ops b) s)) bs.

Definition index_updates (bs : list Block) : list (text * (list Index -> list Index)) :=
  List.map (fun b => (block_table b,
                      fun i => fold_left index_step (block_ops b) i)) bs.

Definition foreign_key_updates (bs : list Block)
  : list (text * (list ForeignKey -> list ForeignKey)) :=
  List.map (fun b => (block_table b,
                      fun f => fold_left foreign_key_step (block_ops b) f)) bs.

Definition file_updates (bs : list Block) : list (text * (list text -> list text)) :=
  List.map (fun b => (block_table b, add_file (block_file b))) bs.

End Model.

(* ================================================================== *)
(** ** The words of a pattern *)
(* ================================================================== *)

(** What a pattern matches, said without the matcher: the words of the
    pattern, the bodies of its groups, and the groups that every match
    binds.  The facts below show that the backtracking matcher only finds
    words of the pattern and only binds a group to a word of its body. *)
Module Words.
Import Py Re.

(** [matches r w]: the word [w] belongs to the pattern [r]. *)
Fixpoint matches (r : regex) (w : text) : Prop :=
  match r with
  | Eps => w = []
  | Chr c => w = [c]
  | Cls p => exists c, w = [c] /\ p c = true
  | Seq r1 r2 => exists w1 w2, w = w1 ++ w2 /\ matches r1 w1 /\ matches r2 w2
  | Alt r1 r2 => matches r1 w \/ matches r2 w
  | Star r1 => exists ws, w = List.concat ws /\ Forall (matches r1) ws
  | LazyStar r1 => exists ws, w = List.concat ws /\ Forall (matches r1) ws
  | Grp _ r1 => matches r1 w
  end.

(** The bodies of the groups numbered [n] in a pattern. *)
Fixpoint bodies (r : regex) (n : nat) : list regex :=
  match r with
  | Grp m r1 => (if (m =? n)%nat then [r1] else []) ++ bodies r1 n
  | Seq r1 r2 => bodies r1 n ++ bodies r2 n
  | Alt r1 r2 => bodies r1 n ++ bodies r2 n
  | Star r1 => bodies r1 n
  | LazyStar r1 => bodies r1 n
  | _ => []
  end.

(** A binding of a group to a word of one of its bodies. *)
Definition bound (r : regex) (b : nat * text) : Prop :=
  exists r1, In r1 (bodies r (fst b)) /\ matches r1 (snd b).

(** The group [n] is outside every alternative and every star of the pattern:
    it takes part in every match. *)
Fixpoint mandatory (r : regex) (n : nat) : bool :=
  match r with
  | Grp m r1 => (m =? n)%nat || mandatory r1 n
  | Seq r1 r2 => mandatory r1 n || mandatory r2 n
  | _ => false
  end.

(** What a successful run of the matcher did: it read a word of the pattern,
    bound groups to words of their bodies, every mandatory group among them,
    and handed the rest to the continuation. *)
Definition run_spec (r : regex) (s : text) (caps : captures) (k : cont)
           (res : text * captures) : Prop :=
  exists w s' new,
    s = w ++ s' /\ matches r w /\ Forall (bound r) new
    /\ (forall n, mandatory r n = true -> In n (List.map fst new))
    /\ k s' (new ++ caps) = Some res.

(** A match object that the matcher built for the pattern [r], somewhere. *)
Definition found (r : regex) (m : rmatch) : Prop :=
  exists s, match_here r s = Some m.

End Words.

(* ================================================================== *)
(** ** Shapes and closed forms *)
(* ================================================================== *)

(** The shape of what the recognisers of the migrations yield. *)
Module Shape.
Import Py Laravel Controllers.

Section Names.
Context {U : UnicodeDB}.

(** A name as the recognisers capture it: a run of word characters that is
    not empty. *)
Definition word_name (n : text) : Prop :=
  n <> [] /\ Forall (fun c => isword c = true) n.

(** An operation with one of the two actions, the name of a column and a
    type. *)
Definition well_formed (op : Op) : Prop :=
  (op_action op = str "add" \/ op_action op = str "drop")
  /\ word_name (op_name op)
  /\ op_type op <> [].

End Names.

(** The methods that one trait brings to a controller whose methods have the
    names [existing]: those of its known methods that are not among them. *)
Definition brought (existing : list text) (t : text) : list Method :=
  match dict_get t known with
  | Some names =>
      List.map (trait_method t)
               (filter (fun nm => negb (mem nm existing)) names)
  | None => []
  end.

(** The body of the loop of [parse_routes], on the result so far. *)
Definition route_step {U : UnicodeDB} (acc : result (dict (list Route)))
           (entry : text * file) : result (dict (list Route)) :=
  bind acc (fun routes =>
  bind (routes_in_file (snd entry)) (fun rs =>
  Ok (dict_set (fst entry) rs routes))).

(** The marker that a line of Markdown carries for a block of each type. *)
Definition marker (ty : Notion.block_type) : text :=
  match ty with
  | Notion.heading_1 => str "# "
  | Notion.heading_2 => str "## "
  | Notion.heading_3 => str "### "
  | Notion.bulleted_list_item => str "- "
  | Notion.paragraph => []
  end.

(** The blocks of one line: one, or none for a blank line. *)
Definition blocks_of_line {U : UnicodeDB} (line : text) : list Notion.Block :=
  match Notion._line_to_block line with
  | Some block => [block]
  | None => []
  end.

End Shape.

(** What a greedy run leaves, and the characters of a class name. *)
Module Greedy.
Import Py Re.

(** What follows a greedy run of a class: the end of the text, or a
    character that is not in the class. *)
Definition stops (p : char -> bool) (rest : text) : Prop :=
  match rest with
  | [] => True
  | x :: _ => p x = false
  end.

(** The class of [class_name_char]. *)
Definition class_char {U : UnicodeDB} (c : char) : bool :=
  isword c || (c =? 92)%N.

End Greedy.

(* ================================================================== *)
(** ** Further documents *)
(* ================================================================== *)

(** Documents for the properties of the other recognisers. *)
Module Samples.
Import Py Laravel.

(** A controller with one trait, a constructor and one method. *)
Definition verify_controller_path : text :=
  str "app/Http/Controllers/VerifyController.php".

Definition verify_controller_text : text :=
  str "class VerifyController extends Controller { use Auth\VerifiesEmails; public function __construct() {} public function index() {} }".

Definition verify_controller : Controllers.Controller :=
  {| Controllers.class_name := str "VerifyController";
     Controllers.file_path := verify_controller_path;
     Controllers.methods :=
       [{| Controllers.name := str "index";
           Controllers.parameters := None;
           Controllers.note := None |};
        Controllers.trait_method (str "VerifiesEmails") (str "verify");
        Controllers.trait_method (str "VerifiesEmails") (str "show")];
     Controllers.traits := [str "VerifiesEmails"];
     Controllers.validations := [] |}.

(** A model with a table, two fillable attributes and one relation. *)
Definition post_model_path : text := str "app/Models/Post.php".

Definition post_model_text : text :=
  str "class Post extends Model { protected $table = 'posts'; protected $fillable = ['title', 'body']; public function user(): BelongsTo { return $this->belongsTo(User::class); } }".

Definition post_model : Models.Model :=
  {| Models.class_name := str "Post";
     Models.file_path := post_model_path;
     Models.table_name := Some (str "posts");
     Models.fillable := [str "title"; str "body"];
     Models.relations :=
       [{| Models.method := str "user";
           Models.type := str "belongsTo";
           Models.related_model := str "User" |}] |}.

(** A configuration of Lighthouse without a route, and one with a route. *)
Definition lighthouse_plain : string := "<?php return ['schema' => 'graphql/schema.graphql'];".
Definition lighthouse_route : string := "<?php return ['route' => '/api/graphql'];".

(** A route file with one declaration. *)
Definition health_routes : string :=
  "<?php Route::get('/health', 'HealthController@check');".

(** A document of three lines, the second one blank. *)
Definition three_lines : list text := [str "# Title"; []; str "- item"].

End Samples.

(* ================================================================== *)
(** ** Facts about strings, dictionaries and sorting *)
(* ================================================================== *)

Module PyFacts.
Import Py.

Lemma text_eqb_eq (a b : text) : text_eqb a b = true <-> a = b.
Proof.
  revert b; induction a as [|x a IH]; intros [|y b]; simpl;
    try (split; [discriminate | discriminate]); try tauto.
  rewrite andb_true_iff, N.eqb_eq, IH.
  split; [intros [-> ->]; reflexivity | intros H; injection H; auto].
Qed.

Lemma text_eqb_refl (a : text) : text_eqb a a = true.
Proof. apply text_eqb_eq; reflexivity. Qed.

Lemma text_eqb_neq (a b : text) : text_eqb a b = false <-> a <> b.
Proof.
  rewrite <- text_eqb_eq. destruct (text_eqb a b); split; congruence.
Qed.

Lemma text_eqb_sym (a b : text) : text_eqb a b = text_eqb b a.
Proof.
  destruct (text_eqb a b) eqn:E.
  - apply text_eqb_eq in E; subst; symmetry; apply text_eqb_refl.
  - symmetry; apply text_eqb_neq; apply text_eqb_neq in E; congruence.
Qed.

Lemma text_eq_dec (a b : text) : {a = b} + {a <> b}.
Proof.
  destruct (text_eqb a b) eqn:E.
  - left; apply text_eqb_eq; exact E.
  - right; apply text_eqb_neq; exact E.
Qed.

Ltac text_cases a b :=
  let E := fresh "E" in
  destruct (text_eqb a b) eqn:E;
  [apply text_eqb_eq in E | apply text_eqb_neq in E].

Lemma mem_In (x : text) (xs : list text) : mem x xs = true <-> In x xs.
Proof.
  unfold mem; rewrite existsb_exists; split.
  - intros [y [Hy E]]; apply text_eqb_eq in E; subst; exact Hy.
  - intros H; exists x; split; [exact H | apply text_eqb_refl].
Qed.

Lemma mem_false (x : text) (xs : list text) : mem x xs = false <-> ~ In x xs.
Proof.
  rewrite <- mem_In; destruct (mem x xs); split; congruence.
Qed.

(** *** The order of strings is a strict total order *)

Lemma text_ltb_irrefl (a : text) : text_ltb a a = false.
Proof.
  induction a as [|x a IH]; simpl; [reflexivity|].
  rewrite N.ltb_irrefl, N.eqb_refl, IH; reflexivity.
Qed.

Lemma text_ltb_trans (a b c : text) :
  text_ltb a b = true -> text_ltb b c = true -> text_ltb a c = true.
Proof.
  revert b c; induction a as [|x a IH]; intros [|y b] [|z c]; simpl;
    try discriminate; try reflexivity.
  rewrite !orb_true_iff, !andb_true_iff, !N.ltb_lt, !N.eqb_eq.
  intros [Hxy | [-> Hab]] [Hyz | [Eyz Hbc]]; subst.
  - left; lia.
  - left; exact Hxy.
  - left; exact Hyz.
  - right; split; [reflexivity | eapply IH; eassumption].
Qed.

Lemma text_ltb_total (a b : text) :
  text_ltb a b = false -> text_ltb b a = false -> a = b.
Proof.
  revert b; induction a as [|x a IH]; intros [|y b]; simpl;
    try discriminate; try reflexivity.
  rewrite !orb_false_iff, !andb_false_iff, !N.ltb_ge, !N.eqb_neq.
  intros [Hxy Hab] [Hyx Hba].
  assert (x = y) by lia; subst y.
  f_equal; apply IH.
  - destruct Hab as [Hab | Hab]; [congruence | exact Hab].
  - destruct Hba as [Hba | Hba]; [congruence | exact Hba].
Qed.

Lemma text_ltb_asym (a b : text) : text_ltb a b = true -> text_ltb b a = false.
Proof.
  intros H; destruct (text_ltb b a) eqn:E; [|reflexivity].
  pose proof (text_ltb_trans _ _ _ H E) as T.
  rewrite text_ltb_irrefl in T; discriminate.
Qed.

(** Not smaller than one, smaller than another. *)
Lemma text_ltb_le_lt (x z y : text) :
  text_ltb z x = false -> text_ltb z y = true -> text_ltb x y = true.
Proof.
  intros Hzx Hzy; destruct (text_ltb x z) eqn:Hxz.
  - eapply text_ltb_trans; eassumption.
  - rewrite (text_ltb_total _ _ Hxz Hzx); exact Hzy.
Qed.

(** *** Dictionaries *)

Section Dict.
Variable V : Type.
Implicit Types (d : dict V) (k : text) (v : V).

Lemma dict_get_None d k : dict_get k d = None <-> ~ In k (keys d).
Proof.
  induction d as [|[k' v'] d IH]; simpl; [tauto|].
  text_cases k' k.
  - split; [discriminate | intros H; exfalso; apply H; left; exact E].
  - rewrite IH; split; [intros H [H'|H']; [congruence | tauto] | tauto].
Qed.

Lemma dict_get_In d k v : dict_get k d = Some v -> In k (keys d).
Proof.
  intros H; destruct (in_dec text_eq_dec k (keys d)) as [Hin|Hin]; [exact Hin|].
  apply dict_get_None in Hin; congruence.
Qed.

Lemma dict_set_absent d k v : ~ In k (keys d) -> dict_set k v d = d ++ [(k, v)].
Proof.
  induction d as [|[k' v'] d IH]; simpl; intros H; [reflexivity|].
  text_cases k' k; [exfalso; apply H; left; exact E|].
  rewrite IH; [reflexivity | tauto].
Qed.

Lemma keys_dict_set_present d k v : In k (keys d) -> keys (dict_set k v d) = keys d.
Proof.
  induction d as [|[k' v'] d IH]; simpl; intros H; [tauto|].
  text_cases k' k; simpl; [reflexivity|].
  f_equal; apply IH; destruct H; [congruence | assumption].
Qed.

Lemma dict_get_set_same d k v : dict_get k (dict_set k v d) = Some v.
Proof.
  induction d as [|[k' v'] d IH]; simpl.
  - rewrite text_eqb_refl; reflexivity.
  - destruct (text_eqb k' k) eqn:E; simpl; rewrite E; [reflexivity | exact IH].
Qed.

Lemma dict_get_set_other d k k' v :
  k' <> k -> dict_get k' (dict_set k v d) = dict_get k' d.
Proof.
  intros Hne; induction d as [|[k0 v0] d IH]; simpl.
  - text_cases k k'; [congruence | reflexivity].
  - text_cases k0 k; simpl.
    + subst k0. text_cases k k'; [congruence | reflexivity].
    + rewrite IH; reflexivity.
Qed.

End Dict.

End PyFacts.

(** *** Dictionaries listed from their keys, and folds of updates *)
Module DictFacts.
Import Py Spec Model PyFacts.

Section Dict.
Variable V : Type.
Implicit Types (d : dict V) (k : text) (v : V).

Lemma dict_get_or_present d k v dflt :
  dict_get k d = Some v -> dict_get_or k dflt d = v.
Proof. unfold dict_get_or; intros ->; reflexivity. Qed.

Lemma dict_get_or_absent d k dflt :
  ~ In k (keys d) -> dict_get_or k dflt d = dflt.
Proof.
  intros H; apply dict_get_None in H; unfold dict_get_or; rewrite H; reflexivity.
Qed.

(** A dictionary listed from its keys. *)
Lemma dict_get_map (f : text -> V) (ks : list text) k :
  In k ks -> dict_get k (List.map (fun k' => (k', f k')) ks) = Some (f k).
Proof.
  induction ks as [|k0 ks IH]; simpl; [tauto|].
  intros H; text_cases k0 k; [subst; reflexivity|].
  apply IH; destruct H; [congruence | assumption].
Qed.

Lemma keys_map (f : text -> V) (ks : list text) :
  keys (List.map (fun k' => (k', f k')) ks) = ks.
Proof.
  unfold keys; rewrite map_map; simpl; apply map_id.
Qed.

Lemma dict_set_map (f : text -> V) (ks : list text) k v :
  NoDup ks -> In k ks ->
  dict_set k v (List.map (fun k' => (k', f k')) ks)
  = List.map (fun k' => (k', if text_eqb k' k then v else f k')) ks.
Proof.
  induction ks as [|k0 ks IH]; simpl; [tauto|].
  intros Hnd H; inversion Hnd as [|? ? Hk0 Hnd']; subst.
  text_cases k0 k.
  - subst k0; f_equal.
    apply map_ext_in; intros k' Hk'.
    text_cases k' k; [congruence | reflexivity].
  - f_equal; apply IH; [assumption | destruct H; [congruence | assumption]].
Qed.

End Dict.

(** *** First occurrences *)

Lemma firsts_In (x : text) (l : list text) : In x (firsts l) <-> In x l.
Proof.
  induction l as [|y l IH]; simpl; [tauto|].
  rewrite filter_In, IH, negb_true_iff, text_eqb_neq.
  destruct (text_eq_dec y x) as [->|Hne]; [tauto|].
  split; [tauto | intros [H|H]; [tauto | right; split; [assumption | congruence]]].
Qed.

Lemma NoDup_filter {A} (p : A -> bool) (l : list A) : NoDup l -> NoDup (filter p l).
Proof.
  induction 1 as [|x l Hx Hnd IH]; simpl; [constructor|].
  destruct (p x); [constructor; [rewrite filter_In; tauto | exact IH] | exact IH].
Qed.

Lemma firsts_NoDup (l : list text) : NoDup (firsts l).
Proof.
  induction l as [|y l IH]; simpl; constructor.
  - rewrite filter_In, negb_true_iff, text_eqb_neq; tauto.
  - apply NoDup_filter; exact IH.
Qed.

Lemma firsts_snoc (l : list text) (k : text) :
  firsts (l ++ [k]) = if mem k l then firsts l else firsts l ++ [k].
Proof.
  induction l as [|x l IH]; simpl; [reflexivity|].
  rewrite IH; unfold mem in *; simpl.
  destruct (existsb (text_eqb k) l) eqn:E; simpl.
  - rewrite orb_true_r; reflexivity.
  - rewrite orb_false_r, filter_app; simpl.
    destruct (text_eqb k x); simpl; [rewrite app_nil_r|]; reflexivity.
Qed.

(** *** A fold of updates, in closed form *)

Section Upsert.
Variable V : Type.
Variable dflt : V.
Implicit Types (ups : list (text * (V -> V))) (k : text).

Lemma value_of_snoc ups k k' (g : V -> V) :
  value_of dflt k' (ups ++ [(k, g)])
  = if text_eqb k k' then g (value_of dflt k' ups) else value_of dflt k' ups.
Proof. unfold value_of; rewrite fold_left_app; reflexivity. Qed.

Theorem apply_updates_spec ups :
  apply_updates dflt ups []
  = List.map (fun k => (k, value_of dflt k ups)) (firsts (List.map fst ups)).
Proof.
  induction ups as [|[k g] ups IH] using rev_ind; [reflexivity|].
  unfold apply_updates in *; rewrite fold_left_app; simpl.
  rewrite IH; clear IH; unfold upsert.
  rewrite map_app; simpl; rewrite firsts_snoc.
  set (ks := firsts (List.map fst ups)).
  assert (Hnd : NoDup ks) by apply firsts_NoDup.
  destruct (mem k (List.map fst ups)) eqn:Hm.
  - assert (Hin : In k ks) by (apply firsts_In, mem_In; exact Hm).
    erewrite dict_get_or_present by (apply dict_get_map; exact Hin).
    rewrite dict_set_map by assumption.
    apply map_ext; intros k'; rewrite value_of_snoc, (text_eqb_sym k k').
    text_cases k' k; [subst; reflexivity | reflexivity].
  - assert (Hin : ~ In k ks).
    { intros H; unfold ks in H; rewrite firsts_In, <- mem_In in H; congruence. }
    rewrite dict_get_or_absent by (rewrite keys_map; exact Hin).
    rewrite dict_set_absent by (rewrite keys_map; exact Hin).
    rewrite map_app; simpl; rewrite value_of_snoc, text_eqb_refl.
    f_equal.
    + apply map_ext_in; intros k' Hk'; rewrite value_of_snoc.
      text_cases k k'; [congruence | reflexivity].
    + assert (E : value_of dflt k ups = dflt).
      { clear - Hm. apply mem_false in Hm. unfold value_of.
        generalize dflt. induction ups as [|[k0 g0] ups IH]; intros v; simpl; [reflexivity|].
        simpl in Hm. text_cases k0 k; [tauto|]. apply IH; tauto. }
      rewrite E; reflexivity.
Qed.

End Upsert.

End DictFacts.

(** *** The loop body of [parse_migrations], one dictionary at a time *)
Module FoldFacts.
Import Py Laravel Spec Model PyFacts DictFacts.

(** *** One block *)

Lemma foreign_not_index (ty : text) :
  text_eqb ty (str "foreign") = true -> mem ty index_types = false.
Proof. intros E; apply text_eqb_eq in E; subst; reflexivity. Qed.

Lemma add_not_drop (a : text) :
  text_eqb a (str "add") = true -> text_eqb a (str "drop") = false.
Proof. intros E; apply text_eqb_eq in E; subst; reflexivity. Qed.

Lemma apply_op_split (s : dict text) (i : list Index) (f : list ForeignKey) (op : Op) :
  apply_op (s, i, f) op
  = (schema_step s op, index_step i op, foreign_key_step f op).
Proof.
  unfold apply_op, schema_step, index_step, foreign_key_step,
    is_add, is_drop, is_index, is_foreign_key, index_record, foreign_key_record.
  destruct (text_eqb (op_action op) (str "add")) eqn:Ea.
  - rewrite (add_not_drop _ Ea).
    destruct (text_eqb (op_type op) (str "foreign")) eqn:Ef.
    + rewrite (foreign_not_index _ Ef); reflexivity.
    + destruct (mem (op_type op) index_types); reflexivity.
  - destruct (text_eqb (op_action op) (str "drop")); reflexivity.
Qed.

Lemma fold_apply_op (ops : list Op) (s : dict text) (i : list Index) (f : list ForeignKey) :
  fold_left apply_op ops (s, i, f)
  = (fold_left schema_step ops s, fold_left index_step ops i,
     fold_left foreign_key_step ops f).
Proof.
  revert s i f; induction ops as [|op ops IH]; intros; cbn [fold_left];
    [reflexivity|].
  rewrite apply_op_split; apply IH.
Qed.

Lemma index_fold (ops : list Op) (i : list Index) :
  fold_left index_step ops i = i ++ declared_indexes ops.
Proof.
  revert i; induction ops as [|op ops IH]; intros i; simpl.
  - symmetry; apply app_nil_r.
  - rewrite IH; unfold index_step, declared_indexes; simpl.
    destruct (is_index op); simpl; [rewrite <- app_assoc|]; reflexivity.
Qed.

Lemma foreign_key_fold (ops : list Op) (f : list ForeignKey) :
  fold_left foreign_key_step ops f = f ++ declared_foreign_keys ops.
Proof.
  revert f; induction ops as [|op ops IH]; intros f; simpl.
  - symmetry; apply app_nil_r.
  - rewrite IH; unfold foreign_key_step, declared_foreign_keys; simpl.
    destruct (is_foreign_key op); simpl; [rewrite <- app_assoc|]; reflexivity.
Qed.

Section Setdefault.
Variable V : Type.
Implicit Types (d : dict V) (k : text) (v : V).

Lemma dict_set_app_absent d d' k v :
  ~ In k (keys d) -> dict_set k v (d ++ d') = d ++ dict_set k v d'.
Proof.
  induction d as [|[k0 v0] d IH]; simpl; intros H; [reflexivity|].
  text_cases k0 k; [exfalso; apply H; left; exact E|].
  rewrite IH; [reflexivity | tauto].
Qed.

Lemma dict_set_setdefault d k v dflt :
  dict_set k v (dict_setdefault k dflt d) = dict_set k v d.
Proof.
  unfold dict_setdefault; destruct (dict_get k d) eqn:E; [reflexivity|].
  apply dict_get_None in E.
  rewrite dict_set_app_absent by exact E; simpl.
  rewrite text_eqb_refl; symmetry; apply dict_set_absent; exact E.
Qed.

Lemma dict_get_app_absent d d' k :
  ~ In k (keys d) -> dict_get k (d ++ d') = dict_get k d'.
Proof.
  induction d as [|[k0 v0] d IH]; simpl; intros H; [reflexivity|].
  text_cases k0 k; [exfalso; apply H; left; exact E|].
  apply IH; tauto.
Qed.

Lemma dict_get_or_setdefault d k dflt :
  dict_get_or k dflt (dict_setdefault k dflt d) = dict_get_or k dflt d.
Proof.
  unfold dict_setdefault, dict_get_or; destruct (dict_get k d) eqn:E.
  - rewrite E; reflexivity.
  - apply dict_get_None in E.
    rewrite dict_get_app_absent by exact E; simpl.
    rewrite text_eqb_refl; reflexivity.
Qed.

Lemma dict_set_same_value d k v : dict_get k d = Some v -> dict_set k v d = d.
Proof.
  induction d as [|[k0 v0] d IH]; simpl; [discriminate|].
  text_cases k0 k.
  - intros H; injection H as ->; reflexivity.
  - intros H; rewrite IH by exact H; reflexivity.
Qed.

(** What the code does under [setdefault] is an update of the value. *)
Lemma setdefault_update d k dflt (g : V -> V) :
  dict_set k (g (dict_get_or k dflt (dict_setdefault k dflt d)))
           (dict_setdefault k dflt d)
  = upsert dflt k g d.
Proof.
  rewrite dict_get_or_setdefault, dict_set_setdefault; reflexivity.
Qed.

End Setdefault.

Lemma files_update (fn t : text) (d : dict (list text)) :
  (let files0 := dict_setdefault t [] d in
   let names := dict_get_or t [] files0 in
   if mem fn names then files0 else dict_set t (names ++ [fn]) files0)
  = upsert [] t (add_file fn) d.
Proof.
  cbv zeta; rewrite dict_get_or_setdefault.
  unfold upsert, add_file.
  destruct (mem fn (dict_get_or t [] d)) eqn:Hm.
  - unfold dict_setdefault, dict_get_or in *.
    destruct (dict_get t d) as [names|] eqn:E.
    + symmetry; apply dict_set_same_value; exact E.
    + discriminate.
  - apply dict_set_setdefault.
Qed.

(** The four dictionaries after one block that names a table. *)
Lemma process_block_live (fn t : text) (ops : list Op) (st : Tables) :
  truthy t = true ->
  process_block fn st (t, ops)
  = {| table_schemas :=
         upsert [] t (fun s => fold_left schema_step ops s) (table_schemas st);
       table_indexes :=
         upsert [] t (fun i => fold_left index_step ops i) (table_indexes st);
       table_fks :=
         upsert [] t (fun f => fold_left foreign_key_step ops f) (table_fks st);
       table_files := upsert [] t (add_file fn) (table_files st) |}.
Proof.
  intros Ht; unfold process_block; rewrite Ht; simpl negb; cbv iota zeta.
  rewrite fold_apply_op.
  rewrite !setdefault_update.
  f_equal. apply files_update.
Qed.

Lemma process_block_dead (fn t : text) (ops : list Op) (st : Tables) :
  truthy t = false -> process_block fn st (t, ops) = st.
Proof. intros Ht; unfold process_block; rewrite Ht; reflexivity. Qed.

End FoldFacts.

(** *** The result of the reconstructor in closed form *)
Module ReconstructFacts.
Import Py Laravel Spec Model PyFacts DictFacts FoldFacts.

(** *** The loop over documents is a loop over their blocks *)

Lemma fold_documents_blocks (docs : list Document) :
  fold_documents docs
  = fold_left (fun st b => process_block (block_file b) st (snd b))
              (blocks_of docs) no_tables.
Proof.
  unfold fold_documents; generalize no_tables.
  induction docs as [|[fn blocks] docs IH]; intros st; [reflexivity|].
  unfold blocks_of in *; cbn [fold_left flat_map fst snd].
  rewrite fold_left_app, IH; f_equal.
  clear IH; revert st; induction blocks as [|b blocks IHb]; intros st;
    [reflexivity|].
  cbn [fold_left List.map]; rewrite IHb; reflexivity.
Qed.

Lemma fold_blocks_live (bs : list Block) (st : Tables) :
  fold_left (fun st b => process_block (block_file b) st (snd b)) bs st
  = fold_left (fun st b => process_block (block_file b) st (snd b))
              (filter (fun b => truthy (block_table b)) bs) st.
Proof.
  set (F := fun (st : Tables) (b : Block) =>
              process_block (block_file b) st (snd b)).
  revert st; induction bs as [|[fn [t ops]] bs IH]; intros st; [reflexivity|].
  cbn [fold_left filter].
  change (truthy (block_table (fn, (t, ops)))) with (truthy t).
  change (F st (fn, (t, ops))) with (process_block fn st (t, ops)).
  destruct (truthy t) eqn:Ht.
  - cbn [fold_left]; apply IH.
  - rewrite process_block_dead by exact Ht; apply IH.
Qed.

Lemma fold_live_blocks (bs : list Block) (st : Tables) :
  Forall (fun b => truthy (block_table b) = true) bs ->
  fold_left (fun st b => process_block (block_file b) st (snd b)) bs st
  = {| table_schemas := apply_updates [] (schema_updates bs) (table_schemas st);
       table_indexes := apply_updates [] (index_updates bs) (table_indexes st);
       table_fks := apply_updates [] (foreign_key_updates bs) (table_fks st);
       table_files := apply_updates [] (file_updates bs) (table_files st) |}.
Proof.
  set (F := fun (st : Tables) (b : Block) =>
              process_block (block_file b) st (snd b)).
  intros H; revert st; induction H as [|[fn [t ops]] bs Ht Hbs IH]; intros st.
  - destruct st; reflexivity.
  - cbn [fold_left]; rewrite IH; clear IH.
    change (F st (fn, (t, ops))) with (process_block fn st (t, ops)).
    change (truthy t = true) in Ht.
    rewrite process_block_live by exact Ht; reflexivity.
Qed.

Lemma live_blocks_Forall (docs : list Document) :
  Forall (fun b => truthy (block_table b) = true) (live_blocks docs).
Proof.
  apply Forall_forall; intros b Hb; apply filter_In in Hb; tauto.
Qed.

(** *** The value of a table after all blocks *)

Lemma value_of_blocks {V} (dflt : V) (step : V -> Op -> V) (bs : list Block) (t : text) :
  value_of dflt t
    (List.map (fun b => (block_table b, fun v => fold_left step (block_ops b) v)) bs)
  = fold_left step (flat_map block_ops (blocks_for t bs)) dflt.
Proof.
  unfold value_of; generalize dflt.
  induction bs as [|b bs IH]; intros v; [reflexivity|].
  cbn [List.map fold_left fst snd blocks_for filter].
  destruct (text_eqb (block_table b) t).
  - cbn [flat_map]; rewrite fold_left_app; apply IH.
  - apply IH.
Qed.

Lemma mem_firsts (f : text) (fs : list text) : mem f (firsts fs) = mem f fs.
Proof.
  destruct (mem f fs) eqn:E.
  - apply mem_In, firsts_In, mem_In; exact E.
  - apply mem_false; intros H; rewrite firsts_In, <- mem_In in H; congruence.
Qed.

Lemma add_file_fold (fs : list text) :
  fold_left (fun names f => add_file f names) fs [] = firsts fs.
Proof.
  induction fs as [|f fs IH] using rev_ind; [reflexivity|].
  rewrite fold_left_app; cbn [fold_left]; rewrite IH, firsts_snoc.
  unfold add_file; rewrite mem_firsts; reflexivity.
Qed.

Lemma value_of_files (bs : list Block) (t : text) :
  value_of [] t (file_updates bs)
  = firsts (List.map block_file (blocks_for t bs)).
Proof.
  rewrite <- add_file_fold.
  unfold value_of, file_updates; generalize (@nil text).
  induction bs as [|b bs IH]; intros v; [reflexivity|].
  cbn [List.map fold_left fst snd blocks_for filter].
  destruct (text_eqb (block_table b) t); cbn [List.map fold_left]; apply IH.
Qed.

(** *** The result, table by table *)

Lemma columns_of_entry (st : Tables) (t : text) (cols : dict text) :
  columns (result_entry st (t, cols)) = columns_of cols.
Proof. reflexivity. Qed.

Lemma updates_tables (bs : list Block) :
  List.map fst (schema_updates bs) = List.map block_table bs
  /\ List.map fst (index_updates bs) = List.map block_table bs
  /\ List.map fst (foreign_key_updates bs) = List.map block_table bs
  /\ List.map fst (file_updates bs) = List.map block_table bs.
Proof.
  unfold schema_updates, index_updates, foreign_key_updates, file_updates.
  rewrite !map_map; repeat split; reflexivity.
Qed.

(** Every entry of the result is built from the blocks of its own table. *)
Theorem reconstruct_spec (docs : list Document) :
  reconstruct docs
  = sort_by table_name (List.map (fun t => table_entry t docs) (touched docs)).
Proof.
  unfold reconstruct, format_result.
  rewrite fold_documents_blocks, fold_blocks_live.
  fold (live_blocks docs).
  rewrite fold_live_blocks by apply live_blocks_Forall.
  cbn [table_schemas table_indexes table_fks table_files no_tables].
  rewrite !apply_updates_spec.
  destruct (updates_tables (live_blocks docs)) as (-> & -> & -> & ->).
  fold (touched docs).
  rewrite map_map.
  f_equal; apply map_ext_in; intros t Ht.
  unfold result_entry, table_entry; cbn [table_files table_indexes table_fks].
  erewrite !dict_get_or_present by (apply dict_get_map; exact Ht).
  unfold schema_updates, index_updates, foreign_key_updates.
  rewrite !value_of_blocks, value_of_files, index_fold, foreign_key_fold.
  reflexivity.
Qed.

End ReconstructFacts.

(** *** Sorting by key *)
Module SortFacts.
Import Py Laravel Spec Model PyFacts DictFacts FoldFacts ReconstructFacts.

Section Sort.
Variable A : Type.
Variable key : A -> text.

(** Two insertions under different keys commute. *)
Lemma insert_by_comm (x y : A) (l : list A) :
  key x <> key y ->
  insert_by key x (insert_by key y l) = insert_by key y (insert_by key x l).
Proof.
  intros Hne; induction l as [|z l IH]; simpl.
  - destruct (text_ltb (key y) (key x)) eqn:Hyx.
    + rewrite (text_ltb_asym _ _ Hyx); reflexivity.
    + destruct (text_ltb (key x) (key y)) eqn:Hxy; [reflexivity|].
      exfalso; apply Hne; apply text_ltb_total; assumption.
  - destruct (text_ltb (key z) (key y)) eqn:Hzy;
      destruct (text_ltb (key z) (key x)) eqn:Hzx; simpl;
      rewrite ?Hzy, ?Hzx.
    + rewrite IH; reflexivity.
    + rewrite (text_ltb_le_lt _ _ _ Hzx Hzy); simpl; rewrite ?Hzy; reflexivity.
    + rewrite (text_ltb_le_lt _ _ _ Hzy Hzx); simpl; rewrite ?Hzx; reflexivity.
    + destruct (text_ltb (key y) (key x)) eqn:Hyx.
      * rewrite (text_ltb_asym _ _ Hyx); simpl; rewrite ?Hzx; reflexivity.
      * destruct (text_ltb (key x) (key y)) eqn:Hxy.
        -- simpl; rewrite ?Hzy; reflexivity.
        -- exfalso; apply Hne; apply text_ltb_total; assumption.
Qed.

(** With distinct keys, the sorted list does not depend on the order of the
    input. *)
Lemma sort_by_perm (l1 l2 : list A) :
  Permutation l1 l2 -> NoDup (List.map key l1) -> sort_by key l1 = sort_by key l2.
Proof.
  induction 1 as [|x l l' HP IH|x y l|l l' l'' HP1 IH1 HP2 IH2]; intros Hnd.
  - reflexivity.
  - simpl; rewrite IH; [reflexivity | inversion Hnd; assumption].
  - simpl; apply insert_by_comm.
    inversion Hnd as [|? ? Hy _]; subst; simpl in Hy; intros E; apply Hy; left.
    symmetry; exact E.
  - rewrite IH1 by exact Hnd; apply IH2.
    eapply Permutation_NoDup; [apply Permutation_map; exact HP1 | exact Hnd].
Qed.

(** The first element under a key is the same before and after the sort. *)
Lemma find_insert_by (t : text) (x : A) (l : list A) :
  List.find (fun r => text_eqb (key r) t) (insert_by key x l)
  = if text_eqb (key x) t then Some x
    else List.find (fun r => text_eqb (key r) t) l.
Proof.
  induction l as [|y l IH]; simpl; [reflexivity|].
  destruct (text_ltb (key y) (key x)) eqn:Hyx; simpl; [|reflexivity].
  rewrite IH.
  text_cases (key y) t; [|reflexivity].
  text_cases (key x) t; [|reflexivity].
  rewrite E, E0, text_ltb_irrefl in Hyx; discriminate.
Qed.

Lemma find_sort_by (t : text) (l : list A) :
  List.find (fun r => text_eqb (key r) t) (sort_by key l)
  = List.find (fun r => text_eqb (key r) t) l.
Proof.
  induction l as [|x l IH]; simpl; [reflexivity|].
  rewrite find_insert_by, IH; reflexivity.
Qed.

Lemma insert_by_perm (x : A) (l : list A) : Permutation (x :: l) (insert_by key x l).
Proof.
  induction l as [|y l IH]; simpl; [reflexivity|].
  destruct (text_ltb (key y) (key x)); [|reflexivity].
  rewrite perm_swap; constructor; exact IH.
Qed.

Lemma sort_by_permutation (l : list A) : Permutation l (sort_by key l).
Proof.
  induction l as [|x l IH]; simpl; [constructor|].
  rewrite <- insert_by_perm; constructor; exact IH.
Qed.

End Sort.

(** *** The entry of a table in the result *)

Lemma find_table_entries (docs : list Document) (t : text) (ks : list text) :
  find_table t (List.map (fun t' => table_entry t' docs) ks)
  = if mem t ks then Some (table_entry t docs) else None.
Proof.
  unfold find_table, mem; induction ks as [|k ks IH]; simpl; [reflexivity|].
  rewrite (text_eqb_sym t k); text_cases k t; [subst; reflexivity | exact IH].
Qed.

Theorem find_table_reconstruct (docs : list Document) (t : text) :
  find_table t (reconstruct docs)
  = if mem t (touched docs) then Some (table_entry t docs) else None.
Proof.
  rewrite reconstruct_spec; unfold find_table at 1.
  rewrite find_sort_by; apply find_table_entries.
Qed.

End SortFacts.

(** *** The order of the documents *)
Module OrderFacts.
Import Py Laravel Spec Model PyFacts DictFacts FoldFacts ReconstructFacts SortFacts.

Lemma live_blocks_cons (d : Document) (docs : list Document) :
  live_blocks (d :: docs) = live_blocks [d] ++ live_blocks docs.
Proof.
  unfold live_blocks, blocks_of; cbn [flat_map].
  rewrite app_nil_r, filter_app; reflexivity.
Qed.

Lemma blocks_for_cons (t : text) (d : Document) (docs : list Document) :
  blocks_for t (live_blocks (d :: docs))
  = blocks_for t (live_blocks [d]) ++ blocks_for t (live_blocks docs).
Proof.
  rewrite live_blocks_cons; unfold blocks_for; apply filter_app.
Qed.

Lemma In_live_blocks (b : Block) (docs : list Document) :
  In b (live_blocks docs)
  <-> exists d, In d docs /\ fst d = block_file b /\ In (snd b) (snd d)
                /\ truthy (block_table b) = true.
Proof.
  unfold live_blocks, blocks_of; rewrite filter_In, in_flat_map; split.
  - intros [[d [Hd Hb]] Ht]; exists d.
    apply in_map_iff in Hb; destruct Hb as [blk [<- Hblk]].
    repeat split; assumption.
  - intros [d (Hd & Hf & Hb & Ht)]; split; [|exact Ht].
    exists d; split; [exact Hd|].
    apply in_map_iff; exists (snd b); split; [|exact Hb].
    rewrite Hf; destruct b; reflexivity.
Qed.

(** A block of a table in a document: the document touches the table. *)
Lemma block_touches (t : text) (d : Document) (b : Block) :
  In b (blocks_for t (live_blocks [d])) -> touches d t.
Proof.
  unfold blocks_for; rewrite filter_In, text_eqb_eq, In_live_blocks.
  intros [[d' (Hd' & _ & Hin & Ht)] Et].
  destruct Hd' as [<-|[]]; subst t; split; [exact Ht|].
  apply in_map_iff; exists (snd b); split; [reflexivity | exact Hin].
Qed.

(** A document that does not touch a table brings it no block. *)
Lemma untouched_no_block (t : text) (d : Document) :
  ~ touches d t -> blocks_for t (live_blocks [d]) = [].
Proof.
  intros H; destruct (blocks_for t (live_blocks [d])) as [|b bs] eqn:E;
    [reflexivity|].
  exfalso; apply H, (block_touches t d b); rewrite E; left; reflexivity.
Qed.

Lemma at_most_one_perm (t : text) (l1 l2 : list Document) :
  Permutation l1 l2 ->
  touched_by_at_most_one t l1 ->
  blocks_for t (live_blocks l1) = blocks_for t (live_blocks l2)
  /\ touched_by_at_most_one t l2.
Proof.
  induction 1 as [|x l l' HP IH|x y l|l l' l'' HP1 IH1 HP2 IH2].
  - intros _; split; [reflexivity | exact I].
  - intros [Hx Hl]; destruct (IH Hl) as [E Hl']; split.
    + rewrite (blocks_for_cons t x l), (blocks_for_cons t x l'), E; reflexivity.
    + split; [|exact Hl'].
      intros Hxt d' Hd'; apply (Hx Hxt).
      eapply Permutation_in; [symmetry; exact HP | exact Hd'].
  - intros [Hy [Hx Hl]]; split.
    + rewrite (blocks_for_cons t y (x :: l)), (blocks_for_cons t x l),
        (blocks_for_cons t x (y :: l)), (blocks_for_cons t y l).
      destruct (blocks_for t (live_blocks [y])) as [|b bs] eqn:Ey.
      * reflexivity.
      * assert (Hyt : touches y t)
          by (apply (block_touches t y b); rewrite Ey; left; reflexivity).
        rewrite (untouched_no_block (Hy Hyt x (or_introl eq_refl))).
        rewrite app_nil_l; reflexivity.
    + split; [|split; [|exact Hl]].
      * intros Hxt d' [<-|Hd']; [|apply (Hx Hxt _ Hd')].
        intros Hyt; apply (Hy Hyt x (or_introl eq_refl)); exact Hxt.
      * intros Hyt d' Hd'; apply (Hy Hyt); right; exact Hd'.
  - intros H1; destruct (IH1 H1) as [E1 H2]; destruct (IH2 H2) as [E2 H3].
    split; [rewrite E1; exact E2 | exact H3].
Qed.

Lemma pairwise_at_most_one (t : text) (docs : list Document) :
  pairwise_disjoint docs -> touched_by_at_most_one t docs.
Proof.
  induction 1 as [|d docs Hd Hdocs IH]; [exact I|].
  split; [|exact IH].
  intros Hdt d' Hd' Hd't.
  rewrite Forall_forall in Hd; apply (Hd d' Hd' t); split; assumption.
Qed.

Lemma In_touched (t : text) (docs : list Document) :
  In t (touched docs) <-> exists b, In b (live_blocks docs) /\ block_table b = t.
Proof.
  unfold touched; rewrite firsts_In, in_map_iff.
  split; intros [b [H1 H2]]; exists b; tauto.
Qed.

Lemma touched_perm (l1 l2 : list Document) :
  Permutation l1 l2 -> Permutation (touched l1) (touched l2).
Proof.
  intros HP; apply NoDup_Permutation; try apply firsts_NoDup.
  assert (Hin : forall la lb, Permutation la lb ->
                  forall t, In t (touched la) -> In t (touched lb)).
  { intros la lb HPab t; rewrite !In_touched.
    intros [b [Hb Et]]; exists b; split; [|exact Et].
    apply In_live_blocks in Hb; apply In_live_blocks.
    destruct Hb as [d (Hd & H)]; exists d; split; [|exact H].
    eapply Permutation_in; eassumption. }
  intros t; split; apply Hin; [exact HP | symmetry; exact HP].
Qed.

Lemma table_entry_blocks (t : text) (docs1 docs2 : list Document) :
  blocks_for t (live_blocks docs1) = blocks_for t (live_blocks docs2) ->
  table_entry t docs1 = table_entry t docs2.
Proof.
  intros E; unfold table_entry, table_ops, source_files; rewrite E; reflexivity.
Qed.

(** *** More documents

    Further documents add operations after the ones already there. *)

Lemma table_ops_app (t : text) (docs more : list Document) :
  table_ops t (docs ++ more) = table_ops t docs ++ table_ops t more.
Proof.
  unfold table_ops, blocks_for, live_blocks, blocks_of.
  rewrite flat_map_app, !filter_app, flat_map_app; reflexivity.
Qed.

Lemma touched_app (t : text) (docs more : list Document) :
  In t (touched docs) -> In t (touched (docs ++ more)).
Proof.
  rewrite !In_touched; intros [b [Hb Et]]; exists b; split; [|exact Et].
  unfold live_blocks, blocks_of in *; rewrite flat_map_app, filter_app.
  apply in_or_app; left; exact Hb.
Qed.

Lemma declared_indexes_app (ops1 ops2 : list Op) :
  declared_indexes (ops1 ++ ops2) = declared_indexes ops1 ++ declared_indexes ops2.
Proof. unfold declared_indexes; rewrite filter_app, map_app; reflexivity. Qed.

Lemma declared_foreign_keys_app (ops1 ops2 : list Op) :
  declared_foreign_keys (ops1 ++ ops2)
  = declared_foreign_keys ops1 ++ declared_foreign_keys ops2.
Proof. unfold declared_foreign_keys; rewrite filter_app, map_app; reflexivity. Qed.

End OrderFacts.

(** *** Columns: the dictionary of a table refines the map of its columns *)
Module ColumnFacts.
Import Py Laravel Spec Model PyFacts DictFacts FoldFacts ReconstructFacts SortFacts.

Lemma dict_get_set {V} (d : dict V) (k c : text) (v : V) :
  dict_get c (dict_set k v d) = if text_eqb c k then Some v else dict_get c d.
Proof.
  text_cases c k.
  - subst; apply dict_get_set_same.
  - apply dict_get_set_other; exact E.
Qed.

Lemma keys_dict_pop {V} (d : dict V) (k x : text) :
  In x (keys (dict_pop k d)) -> In x (keys d).
Proof.
  induction d as [|[k0 v0] d IH]; simpl; [tauto|].
  destruct (text_eqb k0 k); simpl; tauto.
Qed.

Lemma NoDup_dict_pop {V} (d : dict V) (k : text) :
  NoDup (keys d) -> NoDup (keys (dict_pop k d)).
Proof.
  induction d as [|[k0 v0] d IH]; simpl; intros H; [constructor|].
  inversion H as [|? ? Hk0 Hd]; subst.
  destruct (text_eqb k0 k); simpl; [exact Hd|].
  constructor; [intros Hin; apply Hk0, (keys_dict_pop _ _ _ Hin) | apply IH, Hd].
Qed.

Lemma dict_get_pop {V} (d : dict V) (k c : text) :
  NoDup (keys d) ->
  dict_get c (dict_pop k d) = if text_eqb c k then None else dict_get c d.
Proof.
  induction d as [|[k0 v0] d IH]; simpl; intros H.
  - destruct (text_eqb c k); reflexivity.
  - inversion H as [|? ? Hk0 Hd]; subst.
    text_cases k0 k.
    + subst k0. text_cases c k.
      * subst c; apply dict_get_None; exact Hk0.
      * text_cases k c; [congruence | reflexivity].
    + simpl. text_cases k0 c.
      * subst k0. text_cases c k; [congruence | reflexivity].
      * apply IH, Hd.
Qed.

Lemma NoDup_dict_set {V} (d : dict V) (k : text) (v : V) :
  NoDup (keys d) -> NoDup (keys (dict_set k v d)).
Proof.
  intros H; destruct (in_dec text_eq_dec k (keys d)) as [Hin|Hin].
  - rewrite keys_dict_set_present by exact Hin; exact H.
  - rewrite dict_set_absent by exact Hin.
    unfold keys; rewrite map_app; simpl.
    apply NoDup_app; [exact H | constructor; [intros [] | constructor] |].
    intros a Ha [<-|[]]; apply Hin, Ha.
Qed.

(** *** The dictionary of a table refines the map of its columns *)

Lemma schema_refines (ops : list Op) (d : dict text) (m : ColumnMap) :
  NoDup (keys d) ->
  (forall c, dict_get c d = m c) ->
  NoDup (keys (fold_left schema_step ops d))
  /\ forall c, dict_get c (fold_left schema_step ops d) = fold_left net_step ops m c.
Proof.
  revert d m; induction ops as [|op ops IH]; intros d m Hnd Hm; [split; assumption|].
  cbn [fold_left]; apply IH; unfold schema_step, net_step.
  - destruct (is_add op); [apply NoDup_dict_set, Hnd|].
    destruct (is_drop op); [apply NoDup_dict_pop, Hnd | exact Hnd].
  - intros c; destruct (is_add op).
    + rewrite dict_get_set, Hm; reflexivity.
    + destruct (is_drop op); [|apply Hm].
      rewrite dict_get_pop by exact Hnd; rewrite Hm; reflexivity.
Qed.

Lemma final_schema_net_effect (ops : list Op) :
  NoDup (keys (final_schema ops))
  /\ forall c, dict_get c (final_schema ops) = net_effect ops c.
Proof.
  apply schema_refines; [constructor | reflexivity].
Qed.

Lemma find_column (d : dict text) (c : text) (ks : list text) :
  List.find (fun col => text_eqb (col_name col) c)
    (List.map (fun name => {| col_name := name;
                              col_type := dict_get_or name [] d |}) ks)
  = if mem c ks
    then Some {| col_name := c; col_type := dict_get_or c [] d |}
    else None.
Proof.
  unfold mem; induction ks as [|k ks IH]; simpl; [reflexivity|].
  rewrite (text_eqb_sym c k); text_cases k c; [subst; reflexivity | exact IH].
Qed.

(** The type a result gives a column is the one its dictionary holds. *)
Lemma column_type_columns_of (r : TableSchema) (cols : dict text) (c : text) :
  columns r = columns_of cols -> column_type r c = dict_get c cols.
Proof.
  intros E; unfold column_type; rewrite E; unfold columns_of.
  rewrite find_column.
  destruct (mem c (keys cols)) eqn:Hm; cbn [option_map col_type].
  - apply mem_In in Hm.
    destruct (dict_get c cols) as [ty|] eqn:Eg.
    + rewrite (dict_get_or_present _ _ [] Eg); reflexivity.
    + apply dict_get_None in Eg; tauto.
  - apply mem_false in Hm; symmetry; apply dict_get_None; exact Hm.
Qed.

Lemma column_names_columns_of (cols : dict text) :
  List.map col_name (columns_of cols) = keys cols.
Proof.
  unfold columns_of; rewrite map_map; simpl; apply map_id.
Qed.

(** After a Drop that no Add of the column follows, the column is absent. *)
Lemma net_effect_dropped (ops1 ops2 : list Op) (op : Op) (c : text) :
  is_drop op = true -> op_name op = c ->
  (forall op', In op' ops2 -> is_add op' = true -> op_name op' <> c) ->
  net_effect (ops1 ++ op :: ops2) c = None.
Proof.
  intros Hd Hn Hno; unfold net_effect; rewrite fold_left_app; cbn [fold_left].
  set (m := net_step (fold_left net_step ops1 (fun _ => None)) op).
  assert (Hm : m c = None).
  { unfold m, net_step.
    assert (Ha : is_add op = false).
    { unfold is_add, is_drop in *. apply text_eqb_eq in Hd.
      text_cases (op_action op) (str "add"); [|reflexivity].
      rewrite E in Hd; discriminate. }
    rewrite Ha, Hd, Hn, text_eqb_refl; reflexivity. }
  clearbody m; revert m Hm; induction ops2 as [|op' ops2 IH]; intros m Hm;
    [exact Hm|].
  cbn [fold_left]; apply IH.
  - intros o Ho; apply Hno; right; exact Ho.
  - unfold net_step; destruct (is_add op') eqn:Ha.
    + text_cases c (op_name op'); [|exact Hm].
      exfalso; apply (Hno op' (or_introl eq_refl) Ha); congruence.
    + destruct (is_drop op'); [|exact Hm].
      destruct (text_eqb c (op_name op')); [reflexivity | exact Hm].
Qed.

(** The entries of the result are the entries of the touched tables. *)
Lemma In_reconstruct (docs : list Document) (r : TableSchema) :
  In r (reconstruct docs)
  <-> In (table_name r) (touched docs) /\ r = table_entry (table_name r) docs.
Proof.
  rewrite reconstruct_spec; split.
  - intros H.
    apply (Permutation_in _ (Permutation_sym (sort_by_permutation table_name _))) in H.
    apply in_map_iff in H; destruct H as [t [<- Ht]]; split; [exact Ht | reflexivity].
  - intros [Ht E].
    apply (Permutation_in _ (sort_by_permutation table_name _)).
    apply in_map_iff; exists (table_name r); split; [symmetry; exact E | exact Ht].
Qed.

End ColumnFacts.

(** *** Strings: prefixes, [split], [join], slices and stripping *)
Module TextFacts.
Import Py PyFacts.

Lemma startswith_nil (s : text) : startswith s [] = true.
Proof. destruct s; reflexivity. Qed.

Lemma startswith_app (p s : text) : startswith (p ++ s) p = true.
Proof.
  induction p as [|x p IH]; simpl; [apply startswith_nil|].
  rewrite N.eqb_refl; exact IH.
Qed.

Lemma startswith_short (s p : text) :
  (List.length s < List.length p)%nat -> startswith s p = false.
Proof.
  revert s; induction p as [|y p IH]; intros [|x s]; simpl; intros H;
    try lia; try reflexivity.
  rewrite IH by lia; apply andb_false_r.
Qed.

(** *** [split] and [join] *)

Lemma split_nonempty (sep : char) (s : text) : split sep s <> [].
Proof.
  destruct s as [|x s]; simpl; [discriminate|].
  destruct (x =? sep)%N; [discriminate|].
  destruct (split sep s); discriminate.
Qed.

Lemma split_app (sep : char) (a b : text) :
  split sep (a ++ sep :: b) = split sep a ++ split sep b.
Proof.
  induction a as [|x a IH]; simpl.
  - rewrite N.eqb_refl; reflexivity.
  - destruct (x =? sep)%N; [rewrite IH; reflexivity|].
    rewrite IH; destruct (split sep a) eqn:E; [|reflexivity].
    exfalso; exact (split_nonempty _ _ E).
Qed.

Lemma split_no_sep (sep : char) (a : text) :
  ~ In sep a -> split sep a = [a].
Proof.
  induction a as [|x a IH]; simpl; intros H; [reflexivity|].
  destruct (N.eqb_spec x sep) as [->|Hne]; [tauto|].
  rewrite IH by tauto; reflexivity.
Qed.

Lemma join_split (sep : char) (s : text) : join [sep] (split sep s) = s.
Proof.
  induction s as [|x s IH]; simpl; [reflexivity|].
  destruct (N.eqb_spec x sep) as [->|Hne].
  - destruct (split sep s) eqn:E; [exfalso; exact (split_nonempty _ _ E)|].
    simpl in *; rewrite IH; reflexivity.
  - destruct (split sep s) as [|l [|l' ls]] eqn:E;
      [exfalso; exact (split_nonempty _ _ E) | |]; simpl in *; rewrite <- IH;
      reflexivity.
Qed.

(** *** Slices *)

Lemma slice_to_firstn {A} (l : list A) (n : nat) :
  slice_to l (Z.of_nat n) = firstn n l.
Proof.
  unfold slice_to, slice, clamp.
  change (0 <? 0)%Z with false; cbv iota.
  destruct (Z.of_nat n <? 0)%Z eqn:E; [apply Z.ltb_lt in E; lia|].
  rewrite (Z.min_l 0) by lia; change (Z.to_nat 0) with 0%nat; cbn [skipn].
  rewrite Z.sub_0_r.
  destruct (Z.min_spec (Z.of_nat n) (Z.of_nat (List.length l))) as [[H ->]|[H ->]].
  - rewrite Nat2Z.id; reflexivity.
  - rewrite Nat2Z.id, firstn_all; symmetry; apply firstn_all2; lia.
Qed.

(** [lines[1:-1]] on a first line, lines between, and a last line. *)
Lemma slice_inner {A} (h l : A) (mid : list A) :
  slice (h :: mid ++ [l]) 1 (-1) = mid.
Proof.
  unfold slice, clamp.
  change (1 <? 0)%Z with false; change (-1 <? 0)%Z with true; cbv iota.
  cbn [List.length]; rewrite length_app; cbn [List.length].
  rewrite (Z.min_l 1) by lia.
  rewrite Z.max_r by lia.
  change (Z.to_nat 1) with 1%nat; cbn [skipn].
  replace (Z.to_nat _) with (List.length mid) by lia.
  rewrite firstn_app, Nat.sub_diag, firstn_all; cbn [firstn]; apply app_nil_r.
Qed.

(** *** Stripping *)

Lemma dropwhile_app (p : char -> bool) (s t : text) :
  dropwhile p (s ++ t)
  = if forallb p s then dropwhile p t else dropwhile p s ++ t.
Proof.
  induction s as [|x s IH]; simpl; [reflexivity|].
  destruct (p x); simpl; [exact IH | reflexivity].
Qed.

Lemma dropwhile_all (p : char -> bool) (s : text) :
  forallb p s = true -> dropwhile p s = [].
Proof.
  induction s as [|x s IH]; simpl; [reflexivity|].
  destruct (p x); simpl; [exact IH | discriminate].
Qed.

(** What [lstrip] leaves does not start with a stripped character, and what
    [rstrip] leaves does not end with one. *)
Lemma lstrip_by_head (p : char -> bool) (s r : text) (c : char) :
  lstrip_by p s = c :: r -> p c = false.
Proof.
  unfold lstrip_by; induction s as [|x s IH]; simpl; [discriminate|].
  destruct (p x) eqn:E; [exact IH|].
  intros H; injection H as <- _; exact E.
Qed.

Lemma rstrip_by_last (p : char -> bool) (s r : text) (c : char) :
  rstrip_by p s = r ++ [c] -> p c = false.
Proof.
  unfold rstrip_by; intros H.
  apply (f_equal (@rev char)) in H; rewrite rev_involutive, rev_app_distr in H.
  simpl in H; exact (lstrip_by_head _ _ H).
Qed.

Lemma strip_by_snoc (p : char -> bool) (s : text) (c : char) :
  p c = true -> strip_by p (s ++ [c]) = strip_by p s.
Proof.
  intros Hc; unfold strip_by, rstrip_by, lstrip_by.
  rewrite dropwhile_app; destruct (forallb p s) eqn:E.
  - simpl; rewrite Hc, (dropwhile_all _ _ E); reflexivity.
  - rewrite rev_app_distr; simpl; rewrite Hc; reflexivity.
Qed.

Lemma strip_by_cons (p : char -> bool) (s : text) (c : char) :
  p c = true -> strip_by p (c :: s) = strip_by p s.
Proof.
  intros Hc; unfold strip_by, lstrip_by; simpl; rewrite Hc; reflexivity.
Qed.

(** *** [find] and [rfind] *)

Lemma find_at_here (sub s : text) (pos : Z) :
  startswith s sub = true -> find_at sub s pos = pos.
Proof. intros H; destruct s; simpl in *; rewrite H; reflexivity. Qed.

Lemma find_prefix (p s : text) : find (p ++ s) p 0 = 0%Z.
Proof.
  unfold find; change (0 <? 0)%Z with false; cbv iota.
  destruct (Z.of_nat (List.length (p ++ s)) <? 0)%Z eqn:E;
    [apply Z.ltb_lt in E; lia|].
  change (Z.to_nat 0) with 0%nat; cbn [skipn].
  apply find_at_here, startswith_app.
Qed.

Lemma contains_prefix (p s : text) : contains (p ++ s) p = true.
Proof. unfold contains; rewrite find_prefix; reflexivity. Qed.

Lemma rfind_at_short (sub s : text) (pos last : Z) :
  (List.length s < List.length sub)%nat -> rfind_at sub s pos last = last.
Proof.
  revert pos; induction s as [|x s IH]; intros pos H; cbn [rfind_at].
  - rewrite startswith_short by exact H; reflexivity.
  - rewrite startswith_short by exact H; apply IH; simpl in H; lia.
Qed.

Lemma startswith_refl (s : text) : startswith s s = true.
Proof. rewrite <- (app_nil_r s) at 1; apply startswith_app. Qed.

Lemma rfind_at_suffix (sub a : text) (pos last : Z) :
  sub <> [] ->
  rfind_at sub (a ++ sub) pos last = (pos + Z.of_nat (List.length a))%Z.
Proof.
  intros Hne; revert pos last; induction a as [|x a IH]; intros pos last.
  - cbn [app]; destruct sub as [|y sub]; [congruence|].
    cbn [rfind_at]; rewrite startswith_refl.
    rewrite rfind_at_short by (simpl; lia); simpl; lia.
  - cbn [app rfind_at]; rewrite IH; cbn [List.length]; lia.
Qed.

Lemma rfind_suffix (sub a : text) :
  sub <> [] -> rfind (a ++ sub) sub = Z.of_nat (List.length a).
Proof. intros H; unfold rfind; rewrite rfind_at_suffix by exact H; lia. Qed.

End TextFacts.

(** *** Patterns that begin with a literal *)
Module ReFacts.
Import Py Re PyFacts TextFacts.

Lemma startswith_cons (s p : text) (c : char) :
  startswith s (c :: p)
  = match s with
    | [] => false
    | x :: s' => (x =? c)%N && startswith s' p
    end.
Proof. destruct s; reflexivity. Qed.

(** A literal matches the text that starts with it, and only that. *)
Lemma run_literal (cs s : text) (caps : captures) (k : cont) :
  run (seq (List.map Chr cs)) s caps k
  = if startswith s cs then k (skipn (List.length cs) s) caps else None.
Proof.
  revert s; induction cs as [|c cs IH]; intros s.
  - rewrite startswith_nil; reflexivity.
  - cbn [List.map seq fold_right run]; rewrite startswith_cons.
    destruct s as [|x s]; [reflexivity|].
    destruct (x =? c)%N; [|reflexivity].
    fold (seq (List.map Chr cs)); rewrite IH; reflexivity.
Qed.

Lemma startswith_prefix (s a b : text) :
  startswith s (a ++ b) = true -> startswith s a = true.
Proof.
  revert s; induction a as [|y a IH]; intros s; [intros _; apply startswith_nil|].
  cbn [app]; rewrite !startswith_cons; destruct s as [|x s]; [discriminate|].
  rewrite !andb_true_iff; intros [H1 H2]; split; [exact H1 | apply IH, H2].
Qed.

(** A pattern that begins with a literal only matches where the literal is. *)
Lemma match_here_literal (cs : text) (r : regex) (s : text) (m : rmatch) :
  match_here (Seq (seq (List.map Chr cs)) r) s = Some m ->
  startswith s cs = true.
Proof.
  unfold match_here; cbn [run]; rewrite run_literal.
  destruct (startswith s cs); [reflexivity | discriminate].
Qed.

(** No match anywhere: [finditer] yields nothing. *)
Lemma scan_none (r : regex) (s : text) :
  (forall n, match_here r (skipn n s) = None) ->
  forall skip, scan r skip s = [].
Proof.
  induction s as [|x s IH]; intros H skip.
  - pose proof (H 0%nat) as H0; cbn [skipn] in H0.
    destruct skip; cbn [scan]; [rewrite H0|]; reflexivity.
  - assert (Hs : forall n, match_here r (skipn n s) = None)
      by (intros n; exact (H (S n))).
    pose proof (H 0%nat) as H0; cbn [skipn] in H0.
    destruct skip; cbn [scan]; [|apply IH, Hs].
    rewrite H0; apply IH, Hs.
Qed.

Lemma find_at_none (p s : text) (pos : Z) :
  (0 <= pos)%Z -> find_at p s pos = (-1)%Z ->
  forall n, startswith (skipn n s) p = false.
Proof.
  revert pos; induction s as [|x s IH]; intros pos Hpos H n.
  - cbn [find_at] in H; destruct (startswith [] p) eqn:E; [lia|].
    destruct n; exact E.
  - cbn [find_at] in H; destruct (startswith (x :: s) p) eqn:E; [lia|].
    destruct n; [exact E|].
    cbn [skipn]; apply (IH (pos + 1)%Z); [lia | exact H].
Qed.

(** A text that does not contain a literal has no match of a pattern that
    begins with it. *)
Lemma finditer_without_literal (a b : text) (r : regex) (s : text) :
  contains s a = false ->
  finditer (Seq (seq (List.map Chr (a ++ b))) r) s = [].
Proof.
  unfold contains, find; change (0 <? 0)%Z with false; cbv iota.
  destruct (Z.of_nat (List.length s) <? 0)%Z eqn:E; [apply Z.ltb_lt in E; lia|].
  change (Z.to_nat 0) with 0%nat; cbn [skipn].
  rewrite negb_false_iff, Z.eqb_eq; intros H.
  apply scan_none; intros n.
  destruct (match_here _ (skipn n s)) as [m|] eqn:Em; [|reflexivity].
  apply match_here_literal, startswith_prefix in Em.
  rewrite (find_at_none a s (pos := 0%Z)) in Em by (lia || exact H).
  discriminate.
Qed.

End ReFacts.

(* ================================================================== *)
(** ** The schema reconstructor: claims C1, C3 and C10 *)
(* ================================================================== *)

Section SchemaClaims.
Import Py Laravel Spec Model Scenarios.
Import PyFacts DictFacts FoldFacts ReconstructFacts SortFacts OrderFacts ColumnFacts.
Context {U : UnicodeDB}.

(** C1: Schema fold net effect.  For every sequence of migration
    documents, each entry of the result gives every column the type that the
    net effect of the operations of its table gives it, the operations taken
    in the order in which the documents and their blocks yield them: an Add
    inserts or overwrites the type, a Drop removes the column, and a column
    that is dropped and not added again afterwards is absent.  No column
    appears twice, and the result has an entry for exactly the tables the
    documents touch.  [parse_migrations] returns this result for the
    documents read from the files of the directory, taken in the order of
    their names.  On the two documents of the scenario (given here in
    the reverse order, and put in the order of their names by the
    reconstructor) the result is the table [todos] with exactly the columns
    [id] and [done], [id] first. *)
Theorem C1_schema_fold_net_effect :
  (forall (docs : list Document) (r : TableSchema),
      In r (reconstruct docs) ->
      NoDup (List.map col_name (columns r))
      /\ (forall c, column_type r c
                    = net_effect (table_ops (table_name r) docs) c)
      /\ (forall ops1 op ops2,
             table_ops (table_name r) docs = ops1 ++ op :: ops2 ->
             is_drop op = true ->
             (forall op', In op' ops2 -> is_add op' = true ->
                          op_name op' <> op_name op) ->
             column_type r (op_name op) = None))
  /\ (forall (docs : list Document) (t : text),
         In t (touched docs)
         <-> exists r, In r (reconstruct docs) /\ table_name r = t)
  /\ (forall (migration_files : list (text * file)) (out : list TableSchema),
         parse_migrations (Some migration_files) = Ok out
         <-> exists docs, read_documents migration_files = Ok docs
                          /\ out = reconstruct docs)
  /\ parse_migrations
       (Some [(alter_todos_name, bytes alter_todos);
              (create_todos_name, bytes create_todos)])
     = Ok [todos_schema].
Proof.
  split; [|split; [|split]].
  - intros docs r Hr; apply In_reconstruct in Hr; destruct Hr as [Ht Er].
    destruct (final_schema_net_effect (table_ops (table_name r) docs))
      as [Hnd Hget].
    assert (Ec : columns r
                 = columns_of (final_schema (table_ops (table_name r) docs)))
      by (rewrite Er at 1; reflexivity).
    assert (Hty : forall c, column_type r c
                            = net_effect (table_ops (table_name r) docs) c)
      by (intros c; rewrite (column_type_columns_of r _ c Ec); apply Hget).
    split; [|split].
    + rewrite Ec, column_names_columns_of; exact Hnd.
    + exact Hty.
    + intros ops1 op ops2 Eops Hdrop Hno.
      rewrite Hty, Eops; apply net_effect_dropped; [exact Hdrop | reflexivity | exact Hno].
  - intros docs t; split.
    + intros Ht; exists (table_entry t docs); split; [|reflexivity].
      apply In_reconstruct; split; [exact Ht | reflexivity].
    + intros [r [Hr <-]]; apply In_reconstruct in Hr; tauto.
  - intros migration_files out; unfold parse_migrations.
    destruct (read_documents migration_files) as [docs|e]; cbn [bind]; split.
    + intros H; injection H as <-; exists docs; split; reflexivity.
    + intros [docs' [H ->]]; injection H as ->; reflexivity.
    + discriminate.
    + intros [docs' [H _]]; discriminate.
  - vm_compute; reflexivity.
Qed.

(** C3: Schema fold determinism under reordering.  Let two sequences hold
    the same documents in two orders.  If the documents touch pairwise
    disjoint tables, the reconstructed result is the same list for both
    orders.  Whatever the documents, the entry of a table that at most one
    document touches is the same for both orders: the order only bears on
    tables that several documents touch. *)
Theorem C3_disjoint_reordering (docs1 docs2 : list Document) :
  Permutation docs1 docs2 ->
  (pairwise_disjoint docs1 -> reconstruct docs1 = reconstruct docs2)
  /\ (forall t, touched_by_at_most_one t docs1 ->
                find_table t (reconstruct docs1)
                = find_table t (reconstruct docs2)).
Proof.
  intros HP.
  assert (Hentry : forall t, touched_by_at_most_one t docs1 ->
                             table_entry t docs1 = table_entry t docs2).
  { intros t Ht; apply table_entry_blocks.
    exact (proj1 (at_most_one_perm t HP Ht)). }
  split.
  - intros Hdis; rewrite !reconstruct_spec.
    apply sort_by_perm.
    + rewrite (map_ext_in _ (fun t => table_entry t docs2)).
      * apply Permutation_map, touched_perm, HP.
      * intros t _; apply Hentry, pairwise_at_most_one, Hdis.
    + rewrite map_map; cbn [table_name table_entry].
      rewrite map_id; apply firsts_NoDup.
  - intros t Ht; rewrite !find_table_reconstruct, (Hentry t Ht).
    assert (Em : mem t (touched docs1) = mem t (touched docs2)).
    { pose proof (touched_perm HP) as HPt.
      destruct (mem t (touched docs2)) eqn:E2.
      - apply mem_In; apply mem_In in E2.
        eapply Permutation_in; [symmetry; exact HPt | exact E2].
      - apply mem_false; apply mem_false in E2; intros H; apply E2.
        eapply Permutation_in; [exact HPt | exact H]. }
    rewrite Em; reflexivity.
Qed.

(** C10: Index and foreign-key records are append-only.  In every result,
    the indexes and the foreign keys of a table are the records of all the
    index and foreign-key operations of the table, in order, whatever Drops
    the operations hold.  When further documents are processed, the records
    of a table are kept and new ones come after them.  A Drop leaves the
    index list and the foreign-key list of its table as they are: it only
    takes its column out of the columns.  In the scenario, [posts] keeps the
    unique index on [slug] and the foreign key on [user_id] after a later
    document has dropped both columns. *)
Theorem C10_index_records_append_only :
  (forall (docs : list Document) (r : TableSchema),
      In r (reconstruct docs) ->
      indexes r = declared_indexes (table_ops (table_name r) docs)
      /\ foreign_keys r
         = declared_foreign_keys (table_ops (table_name r) docs))
  /\ (forall (docs more : list Document) (r : TableSchema),
         In r (reconstruct docs) ->
         exists r',
           In r' (reconstruct (docs ++ more))
           /\ table_name r' = table_name r
           /\ (exists later, indexes r' = indexes r ++ later)
           /\ (exists later, foreign_keys r' = foreign_keys r ++ later))
  /\ (forall (schema : dict text) (idxs : list Index)
             (fks : list ForeignKey) (op : Op),
         is_drop op = true ->
         apply_op (schema, idxs, fks) op
         = (dict_pop (op_name op) schema, idxs, fks))
  /\ parse_migrations
       (Some [(create_posts_name, bytes create_posts);
              (trim_posts_name, bytes trim_posts)])
     = Ok [posts_schema].
Proof.
  split; [|split; [|split]].
  - intros docs r Hr; apply In_reconstruct in Hr; destruct Hr as [_ Er].
    split; rewrite Er at 1; reflexivity.
  - intros docs more r Hr; apply In_reconstruct in Hr; destruct Hr as [Ht Er].
    exists (table_entry (table_name r) (docs ++ more)).
    split; [|split; [reflexivity|split]].
    + apply In_reconstruct; split; [apply touched_app, Ht | reflexivity].
    + exists (declared_indexes (table_ops (table_name r) more)).
      rewrite Er at 2; cbn [indexes table_entry].
      rewrite table_ops_app; apply declared_indexes_app.
    + exists (declared_foreign_keys (table_ops (table_name r) more)).
      rewrite Er at 2; cbn [foreign_keys table_entry].
      rewrite table_ops_app; apply declared_foreign_keys_app.
  - intros schema idxs fks op Hdrop; rewrite apply_op_split.
    assert (Ea : text_eqb (op_action op) (str "add") = false).
    { unfold is_drop in Hdrop; apply text_eqb_eq in Hdrop; rewrite Hdrop.
      reflexivity. }
    unfold schema_step, index_step, foreign_key_step, is_add, is_index,
      is_foreign_key.
    rewrite Hdrop, Ea; reflexivity.
  - vm_compute; reflexivity.
Qed.

End SchemaClaims.

(** The theorem C1 at the two documents of the scenario: they are what the
    parser yields on the two files, [todos] is in the result with [id] and
    [done], and [title], dropped by the second document, is absent. *)
Lemma C1_schema_fold_net_effect_witness :
  @Laravel.read_documents Py.ascii_db
    [(Scenarios.alter_todos_name, Py.bytes Scenarios.alter_todos);
     (Scenarios.create_todos_name, Py.bytes Scenarios.create_todos)]
  = Py.Ok [Scenarios.doc_create_todos; Scenarios.doc_alter_todos]
  /\ In Scenarios.todos_schema
        (Laravel.reconstruct
           [Scenarios.doc_create_todos; Scenarios.doc_alter_todos])
  /\ Spec.column_type Scenarios.todos_schema (Py.str "id") = Some (Py.str "id")
  /\ Spec.column_type Scenarios.todos_schema (Py.str "done")
     = Some (Py.str "boolean")
  /\ Spec.column_type Scenarios.todos_schema (Py.str "title") = None.
Proof.
  assert (Hin : In Scenarios.todos_schema
                   (Laravel.reconstruct
                      [Scenarios.doc_create_todos; Scenarios.doc_alter_todos]))
    by (vm_compute; left; reflexivity).
  destruct (proj1 (@C1_schema_fold_net_effect Py.ascii_db) _ _ Hin)
    as (_ & Hty & _).
  split; [vm_compute; reflexivity|].
  split; [exact Hin|].
  rewrite !Hty; repeat split; vm_compute; reflexivity.
Defined.

(** The theorem C3 at two documents on the tables [users] and [teams]. *)
Lemma C3_disjoint_reordering_witness :
  Permutation [Scenarios.doc_users; Scenarios.doc_teams]
              [Scenarios.doc_teams; Scenarios.doc_users]
  /\ Spec.pairwise_disjoint [Scenarios.doc_users; Scenarios.doc_teams]
  /\ Laravel.reconstruct [Scenarios.doc_users; Scenarios.doc_teams]
     = Laravel.reconstruct [Scenarios.doc_teams; Scenarios.doc_users].
Proof.
  assert (HP : Permutation [Scenarios.doc_users; Scenarios.doc_teams]
                          [Scenarios.doc_teams; Scenarios.doc_users])
    by apply perm_swap.
  assert (Hdis : Spec.pairwise_disjoint
                   [Scenarios.doc_users; Scenarios.doc_teams]).
  { repeat constructor.
    intros t [[_ H1] [_ H2]]; simpl in H1, H2.
    destruct H1 as [<-|[]]; destruct H2 as [H2|[]]; discriminate H2. }
  split; [exact HP | split; [exact Hdis|]].
  exact (proj1 (C3_disjoint_reordering HP) Hdis).
Defined.

(** The theorem C10 at the two documents of the scenario of [posts]: the
    index and the foreign key of the first document are in the result, and
    they are still there, first, when the second document is processed. *)
Lemma C10_index_records_append_only_witness :
  In Scenarios.posts_schema
     (Laravel.reconstruct [Scenarios.doc_create_posts; Scenarios.doc_trim_posts])
  /\ Laravel.indexes Scenarios.posts_schema
     = Spec.declared_indexes
         (Spec.table_ops (Py.str "posts")
            [Scenarios.doc_create_posts; Scenarios.doc_trim_posts])
  /\ Laravel.foreign_keys Scenarios.posts_schema
     = Spec.declared_foreign_keys
         (Spec.table_ops (Py.str "posts")
            [Scenarios.doc_create_posts; Scenarios.doc_trim_posts]).
Proof.
  assert (Hin : In Scenarios.posts_schema
                   (Laravel.reconstruct
                      [Scenarios.doc_create_posts; Scenarios.doc_trim_posts]))
    by (vm_compute; left; reflexivity).
  split; [exact Hin|].
  exact (proj1 (@C10_index_records_append_only Py.ascii_db) _ _ Hin).
Defined.

(* ================================================================== *)
(** ** The route reconstructor: claims C2, C4, C5 and C8 *)
(* ================================================================== *)

Module RouteFacts.
Import Py Re Laravel Spec PyFacts TextFacts ReFacts.

Lemma lstrip_by_id (p : char -> bool) (c : char) (r : text) :
  p c = false -> lstrip_by p (c :: r) = c :: r.
Proof. intros H; unfold lstrip_by; cbn [dropwhile]; rewrite H; reflexivity. Qed.

Lemma rstrip_by_id (p : char -> bool) (c : char) (r : text) :
  p c = false -> rstrip_by p (r ++ [c]) = r ++ [c].
Proof.
  intros H; unfold rstrip_by; rewrite rev_app_distr; cbn [rev app dropwhile].
  rewrite H; change (c :: rev r) with (rev [c] ++ rev r).
  rewrite <- rev_app_distr; apply rev_involutive.
Qed.

Lemma rstrip_by_snoc (p : char -> bool) (c : char) (s : text) :
  p c = true -> rstrip_by p (s ++ [c]) = rstrip_by p s.
Proof.
  intros H; unfold rstrip_by; rewrite rev_app_distr; cbn [rev app dropwhile].
  rewrite H; reflexivity.
Qed.

Lemma quoted_shape (n : text) : quoted n = 39%N :: n ++ [39%N].
Proof. reflexivity. Qed.

Section Middleware.
Context {U : UnicodeDB}.

Lemma strip_quoted (n : text) : strip (quoted n) = quoted n.
Proof.
  rewrite quoted_shape; unfold strip, strip_by.
  rewrite lstrip_by_id by reflexivity.
  change (39%N :: n ++ [39%N]) with ((39%N :: n) ++ [39%N]).
  apply rstrip_by_id; reflexivity.
Qed.

Lemma strip_blank_quoted (n : text) : strip (32%N :: quoted n) = quoted n.
Proof.
  unfold strip; rewrite strip_by_cons by reflexivity; apply strip_quoted.
Qed.

Lemma unquote (n : text) : plain n -> strip_chars quotes (quoted n) = n.
Proof.
  intros [Hne Hn]; rewrite quoted_shape; unfold strip_chars, strip_by.
  unfold lstrip_by at 1; cbn [dropwhile].
  change (one_of quotes 39%N) with true; cbv iota.
  fold (lstrip_by (one_of quotes) (n ++ [39%N])).
  destruct n as [|c n]; [congruence|].
  cbn [app]; rewrite lstrip_by_id by (apply Hn; left; reflexivity).
  change (c :: n ++ [39%N]) with ((c :: n) ++ [39%N]).
  rewrite rstrip_by_snoc by reflexivity.
  destruct (exists_last (l := c :: n) ltac:(discriminate)) as [r [l E]].
  rewrite E; apply rstrip_by_id, Hn; rewrite E; apply in_or_app; right; left.
  reflexivity.
Qed.

Lemma quoted_no_comma (n : text) : plain n -> ~ In 44%N (quoted n).
Proof.
  intros [_ Hn]; rewrite quoted_shape; intros [H|H]; [discriminate|].
  apply in_app_or in H; destruct H as [H|[H|[]]]; [|discriminate].
  destruct (Hn _ H) as [Hc _]; congruence.
Qed.

Lemma declared_cons (n n' : text) (names : list text) :
  declared (n :: n' :: names)
  = quoted n ++ 44%N :: (32%N :: declared (n' :: names)).
Proof. reflexivity. Qed.

(** The pieces between the commas of a declared list. *)
Lemma split_declared (n : text) (names : list text) :
  Forall plain (n :: names) ->
  split 44%N (declared (n :: names))
  = quoted n :: List.map (fun n' => 32%N :: quoted n') names.
Proof.
  revert n; induction names as [|n' names IH]; intros n H.
  - apply split_no_sep, quoted_no_comma; inversion H; assumption.
  - inversion H as [|? ? Hn Hrest]; subst.
    rewrite declared_cons, split_app.
    rewrite split_no_sep by (apply quoted_no_comma, Hn).
    cbn [split]; change (32 =? 44)%N with false; cbv iota.
    rewrite (IH n' Hrest); reflexivity.
Qed.

(** A declared list is read back name by name, in order, nothing merged. *)
Lemma middleware_list_declared (names : list text) :
  Forall plain names -> middleware_list (declared names) = names.
Proof.
  destruct names as [|n names]; intros H; [reflexivity|].
  unfold middleware_list; rewrite split_declared by exact H.
  inversion H as [|? ? Hn Hrest]; subst.
  cbn [filter List.map]; rewrite strip_quoted.
  change (truthy (quoted n)) with true; cbv iota.
  cbn [List.map]; rewrite strip_quoted, unquote by exact Hn; f_equal.
  clear H Hn; induction Hrest as [|n' names Hn' Hrest IH]; [reflexivity|].
  cbn [List.map filter]; rewrite strip_blank_quoted.
  change (truthy (quoted n')) with true; cbv iota.
  cbn [List.map]; rewrite strip_blank_quoted, unquote by exact Hn'; rewrite IH; reflexivity.
Qed.

End Middleware.

End RouteFacts.
Section RouteClaims.
Import Py Re Laravel Spec Scenarios.
Import PyFacts TextFacts ReFacts RouteFacts.
Context {U : UnicodeDB}.

(** C2: End-to-end route reconstruction, on the code.  For the route file
    of the scenario written as Laravel writes it, with arrows between
    [middleware], [prefix] and [group], no group is recognised: the result
    holds the route of [/health] and the route of the group as if it stood
    alone, [/users] without the prefix and without the middleware.  For the
    same file with the three calls written one after the other, the only
    shape the group pattern matches, the group is recognised and its route is
    returned twice: once by the scan for ungrouped routes, as [/users] with no
    middleware, and once by the scan of groups, as [api/users] with [auth].
    Neither result is the two routes of the claim. *)
Theorem C2_route_scenario_on_code :
  routes_in_file (bytes routes_laravel)
  = Ok [route_health; route_users "/users" []]
  /\ routes_in_file (bytes routes_chained)
     = Ok [route_health; route_users "/users" [];
           route_users "api/users" ["auth"%string]].
Proof. split; vm_compute; reflexivity. Qed.

(** C4: Route prefix join.  Joining the prefix [api] with the URI [/users]
    gives [api/users], and joining the empty prefix with [/users] gives
    [/users].  In general an empty prefix leaves every URI unchanged, and a
    prefix that is not empty gives the prefix without its trailing slashes,
    one slash, and the URI without its leading slashes, so that exactly one
    slash stands at the boundary.  The group scan applies the join: a route
    [/users] in a group with the prefix [api] is returned as [api/users], and
    in a group without a prefix as [/users]. *)
Theorem C4_prefix_join :
  join_prefix (str "api") (str "/users") = str "api/users"
  /\ join_prefix (str "") (str "/users") = str "/users"
  /\ (forall uri, join_prefix [] uri = uri)
  /\ (forall prefix uri,
         prefix <> [] ->
         exists a b,
           join_prefix prefix uri = a ++ str "/" ++ b
           /\ a = rstrip_chars (str "/") prefix
           /\ b = lstrip_chars (str "/") uri
           /\ (forall a', a <> a' ++ str "/")
           /\ (forall b', b <> str "/" ++ b'))
  /\ _parse_routes_with_groups (str group_prefix_api)
     = [route_users "api/users" []]
  /\ _parse_routes_with_groups (str group_no_prefix)
     = [route_users "/users" []].
Proof.
  split; [vm_compute; reflexivity|].
  split; [vm_compute; reflexivity|].
  split; [reflexivity|].
  split; [|split; vm_compute; reflexivity].
  intros prefix uri Hne; destruct prefix as [|c prefix]; [congruence|].
  exists (rstrip_chars (str "/") (c :: prefix)), (lstrip_chars (str "/") uri).
  repeat split.
  - intros a' E; unfold rstrip_chars in E.
    apply rstrip_by_last in E; discriminate E.
  - intros b' E; unfold lstrip_chars in E.
    apply lstrip_by_head in E; discriminate E.
Qed.

(** C5: Middleware inheritance order.  The middleware of a grouped route is
    the list of the group followed by the list of the route.  Every route
    the group scan returns has the middleware read from the group followed by
    the middleware read from its own declaration.  A declared list of names is
    read back name by name, in order and with its repetitions, so that a
    group declared with one list around a route declared with another yields
    the first list followed by the second, nothing merged.  In the scenario,
    the group with A and B around a route with C yields A, B, C, and around a
    route with A it yields A, B, A. *)
Theorem C5_middleware_inheritance :
  (forall group_mw own_mw : list text,
      inherit_middleware group_mw own_mw = group_mw ++ own_mw)
  /\ (forall (content : text) (r : Route),
         In r (_parse_routes_with_groups content) ->
         exists gm m,
           In gm (finditer group_pattern content)
           /\ In m (finditer route_pattern (group_str gm 3))
           /\ middleware r
              = middleware_list (group_or gm 1 [])
                ++ middleware_list (group_or m 4 []))
  /\ (forall group_names own_names : list text,
         Forall plain group_names -> Forall plain own_names ->
         inherit_middleware (middleware_list (declared group_names))
                            (middleware_list (declared own_names))
         = group_names ++ own_names)
  /\ _parse_routes_with_groups (str (group_ab "C"))
     = [route_reports ["A"; "B"; "C"]%string]
  /\ _parse_routes_with_groups (str (group_ab "A"))
     = [route_reports ["A"; "B"; "A"]%string].
Proof.
  split; [reflexivity|].
  split; [|split; [|split; vm_compute; reflexivity]].
  - intros content r Hr; unfold _parse_routes_with_groups in Hr.
    apply in_flat_map in Hr; destruct Hr as [gm [Hgm Hr]].
    unfold routes_of_group in Hr; apply in_map_iff in Hr.
    destruct Hr as [m [<- Hm]]; exists gm, m; repeat split; assumption.
  - intros group_names own_names Hg Ho.
    rewrite !middleware_list_declared by assumption; reflexivity.
Qed.

Lemma no_anchor_no_match (content : text) :
  contains content (str "Route::") = false ->
  finditer route_pattern content = []
  /\ finditer mw_route_pattern content = []
  /\ finditer group_pattern content = [].
Proof.
  intros H; repeat split.
  - exact (finditer_without_literal (str "Route::") [] _ _ H).
  - exact (finditer_without_literal (str "Route::") (str "middleware(") _ _ H).
  - exact (finditer_without_literal (str "Route::") [] _ _ H).
Qed.

(** C8: No declaration, no route.  Let [content] be the text read from a
    route file.  If it has no match of the pattern of a route, no match of
    the pattern of a route behind [Route::middleware(...)->], and no group
    whose body has a match of the pattern of a route, then each of the two
    scans returns the empty list and the routes of the file are the empty
    list; nothing is raised.  This is so, in particular, for every text in
    which [Route::] does not occur. *)
Theorem C8_no_declaration_no_route (route_file : file) (content : text) :
  read_text route_file = Ok content ->
  (finditer route_pattern content = [] ->
   finditer mw_route_pattern content = [] ->
   (forall gm, In gm (finditer group_pattern content) ->
               finditer route_pattern (group_str gm 3) = []) ->
   _parse_route_file route_file = Ok []
   /\ _parse_routes_with_groups content = []
   /\ routes_in_file route_file = Ok [])
  /\ (contains content (str "Route::") = false ->
      routes_in_file route_file = Ok []).
Proof.
  intros Hread.
  assert (Hmain :
            finditer route_pattern content = [] ->
            finditer mw_route_pattern content = [] ->
            (forall gm, In gm (finditer group_pattern content) ->
                        finditer route_pattern (group_str gm 3) = []) ->
            _parse_route_file route_file = Ok []
            /\ _parse_routes_with_groups content = []
            /\ routes_in_file route_file = Ok []).
  { intros Hflat Hmw Hgroups.
    assert (E1 : _parse_route_file route_file = Ok []).
    { unfold _parse_route_file, parse_route_content.
      rewrite Hread; cbn [bind]; rewrite Hflat, Hmw; reflexivity. }
    assert (E2 : _parse_routes_with_groups content = []).
    { unfold _parse_routes_with_groups.
      induction (finditer group_pattern content) as [|gm gms IH]; [reflexivity|].
      cbn [flat_map]; rewrite IH by (intros g Hg; apply Hgroups; right; exact Hg).
      unfold routes_of_group; rewrite Hgroups by (left; reflexivity).
      reflexivity. }
    split; [exact E1 | split; [exact E2|]].
    unfold routes_in_file; rewrite E1, Hread; cbn [bind]; rewrite E2.
    reflexivity. }
  split; [exact Hmain|].
  intros Hnone; destruct (no_anchor_no_match content Hnone) as (H1 & H2 & H3).
  apply Hmain; [exact H1 | exact H2 |].
  intros gm Hgm; rewrite H3 in Hgm; destruct Hgm.
Qed.

End RouteClaims.

(** The theorem C4 at the prefix [api/] and the URI [//users]: the slashes on
    both sides of the boundary are replaced by one. *)
Lemma C4_prefix_join_witness :
  Py.str "api/" <> []
  /\ Laravel.join_prefix (Py.str "api/") (Py.str "//users")
     = Py.str "api/users".
Proof.
  assert (Hne : Py.str "api/" <> []) by discriminate.
  split; [exact Hne|].
  destruct (proj1 (proj2 (proj2 (proj2 (@C4_prefix_join Py.ascii_db))))
              (Py.str "api/") (Py.str "//users") Hne)
    as (a & b & E & -> & -> & _).
  rewrite E; vm_compute; reflexivity.
Defined.

(** The theorem C5 at a group declared with A and B around a route declared
    with A. *)
Lemma C5_middleware_inheritance_witness :
  Forall Spec.plain [Py.str "A"; Py.str "B"]
  /\ Forall Spec.plain [Py.str "A"]
  /\ Laravel.inherit_middleware
       (@Laravel.middleware_list Py.ascii_db
          (Spec.declared [Py.str "A"; Py.str "B"]))
       (@Laravel.middleware_list Py.ascii_db (Spec.declared [Py.str "A"]))
     = [Py.str "A"; Py.str "B"; Py.str "A"].
Proof.
  assert (Hplain : forall c : N, (c =? 65)%N || (c =? 66)%N = true ->
                                 Spec.plain [c]).
  { intros c Hc; split; [discriminate|].
    intros c' [<-|[]]; apply orb_true_iff in Hc.
    destruct Hc as [Hc|Hc]; apply N.eqb_eq in Hc; subst c;
      split; [discriminate | reflexivity | discriminate | reflexivity]. }
  assert (Hg : Forall Spec.plain [Py.str "A"; Py.str "B"]).
  { constructor; [apply Hplain; reflexivity|].
    constructor; [apply Hplain; reflexivity | constructor]. }
  assert (Ho : Forall Spec.plain [Py.str "A"]).
  { constructor; [apply Hplain; reflexivity | constructor]. }
  split; [exact Hg | split; [exact Ho|]].
  exact (proj1 (proj2 (proj2 (@C5_middleware_inheritance Py.ascii_db)))
           _ _ Hg Ho).
Defined.

(** The theorem C8 at a route file that holds a comment and no route. *)
Lemma C8_no_declaration_no_route_witness :
  Py.read_text (Py.bytes Scenarios.routes_none)
  = Py.Ok (Py.str Scenarios.routes_none)
  /\ Py.contains (Py.str Scenarios.routes_none) (Py.str "Route::") = false
  /\ @Laravel.routes_in_file Py.ascii_db (Py.bytes Scenarios.routes_none)
     = Py.Ok [].
Proof.
  assert (Hread : Py.read_text (Py.bytes Scenarios.routes_none)
                  = Py.Ok (Py.str Scenarios.routes_none))
    by (vm_compute; reflexivity).
  assert (Hnone : Py.contains (Py.str Scenarios.routes_none) (Py.str "Route::")
                  = false)
    by (vm_compute; reflexivity).
  split; [exact Hread | split; [exact Hnone|]].
  exact (proj2 (@C8_no_declaration_no_route Py.ascii_db _ _ Hread) Hnone).
Defined.

(* ================================================================== *)
(** ** Reading migration files: claims C6 and C7 *)
(* ================================================================== *)

Module ReadFacts.
Import Py Laravel PyFacts SortFacts.

(** [read_text] raises exactly on the files that are not UTF-8. *)
Lemma read_text_raises (f : file) (e : exn) :
  read_text f = Raise e
  <-> utf8_decode (List.map Byte.to_N f) = None /\ e = UnicodeDecodeError.
Proof.
  unfold read_text; destruct (utf8_decode (List.map Byte.to_N f)); split.
  - discriminate.
  - intros [H _]; discriminate.
  - intros H; injection H as <-; split; reflexivity.
  - intros [_ ->]; reflexivity.
Qed.

(** A loop ends with the exception of an element when the body raises no
    other exception. *)
Lemma for_each_raises {A B} (g : A -> result B) (e : exn) (l : list A) (x : A) :
  In x l -> g x = Raise e ->
  (forall y e', g y = Raise e' -> e' = e) ->
  for_each g l = Raise e.
Proof.
  intros Hx Hgx Honly; induction l as [|a l IH]; [destruct Hx|].
  cbn [for_each]; destruct (g a) as [b|e'] eqn:Ega; cbn [bind].
  - destruct Hx as [->|Hx]; [congruence|].
    rewrite (IH Hx); reflexivity.
  - rewrite (Honly _ _ Ega); reflexivity.
Qed.

Section Files.
Context {U : UnicodeDB}.

Lemma parse_migration_file_raises (f : file) (e : exn) :
  _parse_migration_file f = Raise e <-> read_text f = Raise e.
Proof.
  unfold _parse_migration_file; destruct (read_text f); cbn [bind]; split;
    intros H; congruence.
Qed.

Lemma read_documents_raises (migration_files : list (text * file))
      (f : text * file) :
  In f migration_files ->
  read_text (snd f) = Raise UnicodeDecodeError ->
  read_documents migration_files = Raise UnicodeDecodeError.
Proof.
  intros Hf Hraise; unfold read_documents.
  apply for_each_raises with (x := f).
  - eapply Permutation.Permutation_in; [apply sort_by_permutation | exact Hf].
  - rewrite (proj2 (parse_migration_file_raises _ _) Hraise); reflexivity.
  - intros y e' H.
    destruct (_parse_migration_file (snd y)) as [blocks|e0] eqn:E;
      cbn [bind] in H; [discriminate|].
    injection H as <-.
    apply parse_migration_file_raises, read_text_raises in E; tauto.
Qed.

End Files.

End ReadFacts.

Section ReadClaims.
Import Py Laravel Scenarios ReadFacts.
Context {U : UnicodeDB}.

(** C6: Apply-section restriction, on the code.  The migration of the
    scenario drops the table [legacy] in [up()] and creates it again in
    [down()].  With [up()] written before [down()] only the text of [up()] is
    analysed and the result has no table.  With [down()] written before
    [up()] no [function down] is found after [function up], the whole text
    is analysed, and the table that only the revert section creates is in
    the result, with its columns. *)
Theorem C6_revert_section_on_code :
  apply_section (str drop_legacy_down_first) = str drop_legacy_down_first
  /\ parse_migration_content (str drop_legacy_down_first)
     = [(str "legacy", [mk_op "add" (str "name") (str "string");
                        mk_op "add" (str "id") (str "id")])]
  /\ parse_migrations (Some [(drop_legacy_name, bytes drop_legacy_down_first)])
     = Ok [legacy_schema]
  /\ parse_migrations (Some [(drop_legacy_name, bytes drop_legacy_up_first)])
     = Ok [].
Proof.
  split; [vm_compute; reflexivity|].
  split; [vm_compute; reflexivity|].
  split; vm_compute; reflexivity.
Qed.

(** C7: Decoding, on the code.  [_parse_migration_file] opens the file with
    the strict UTF-8 decoder.  The migration of the scenario is saved in
    Latin-1 and holds the byte E9: reading it raises [UnicodeDecodeError], and
    so does [parse_migrations] on a directory that holds it.  In general
    [parse_migrations] raises [UnicodeDecodeError] on every directory with a
    file that is not UTF-8, whatever the other files are. *)
Theorem C7_strict_decoding_on_code :
  read_text latin1_migration = Raise UnicodeDecodeError
  /\ _parse_migration_file latin1_migration = Raise UnicodeDecodeError
  /\ parse_migrations (Some [(latin1_name, latin1_migration)])
     = Raise UnicodeDecodeError
  /\ (forall (migration_files : list (text * file)) (f : text * file),
         In f migration_files ->
         utf8_decode (List.map Byte.to_N (snd f)) = None ->
         parse_migrations (Some migration_files) = Raise UnicodeDecodeError).
Proof.
  split; [vm_compute; reflexivity|].
  split; [vm_compute; reflexivity|].
  split; [vm_compute; reflexivity|].
  intros migration_files f Hf Hbad; unfold parse_migrations.
  rewrite (read_documents_raises _ f Hf); [reflexivity|].
  apply read_text_raises; split; [exact Hbad | reflexivity].
Qed.

End ReadClaims.

(* ================================================================== *)
(** ** [generate_json]: claim C9 *)
(* ================================================================== *)

Module JsonFacts.
Import Py Json PyFacts TextFacts.

Lemma fence_no_newline : ~ In 10%N fence.
Proof. intros H; repeat (destruct H as [H|H]; [discriminate H|]); exact H. Qed.

(** The lines between the first and the last line of a fenced block. *)
Lemma drop_fence_lines_block (tag body : text) :
  ~ In 10%N tag ->
  drop_fence_lines (fence ++ tag ++ newline ++ body ++ newline ++ fence) = body.
Proof.
  intros Htag; unfold drop_fence_lines, newline.
  change (fence ++ tag ++ [10%N] ++ body ++ [10%N] ++ fence)
    with ((fence ++ tag) ++ 10%N :: (body ++ 10%N :: fence)).
  rewrite !split_app.
  assert (Hhead : ~ In 10%N (fence ++ tag)).
  { intros H; apply in_app_or in H; destruct H as [H|H];
      [exact (fence_no_newline H) | exact (Htag H)]. }
  rewrite (split_no_sep _ _ Hhead), (split_no_sep _ _ fence_no_newline).
  cbn [app]; rewrite slice_inner; apply join_split.
Qed.

(** [l[len(a):len(a)+len(b)]] in the middle of a list. *)
Lemma slice_middle {A} (a b c : list A) :
  slice (a ++ b ++ c) (Z.of_nat (List.length a))
        (Z.of_nat (List.length a + List.length b)) = b.
Proof.
  unfold slice, clamp; rewrite !length_app.
  destruct (Z.of_nat (List.length a) <? 0)%Z eqn:E1; [apply Z.ltb_lt in E1; lia|].
  destruct (Z.of_nat (List.length a + List.length b) <? 0)%Z eqn:E2;
    [apply Z.ltb_lt in E2; lia|].
  rewrite !Z.min_l by lia.
  rewrite Nat2Z.id.
  replace (Z.to_nat _) with (List.length b) by lia.
  rewrite skipn_app, skipn_all, Nat.sub_diag; cbn [skipn app].
  rewrite firstn_app, Nat.sub_diag, firstn_all; cbn [firstn]; apply app_nil_r.
Qed.

End JsonFacts.

Section JsonClaims.
Import Py Json PyFacts TextFacts JsonFacts.
Context {U : UnicodeDB}.
Variable JSON : Type.
Variable json_loads : text -> JSON + text.

Lemma loads_or_raise_ok (t : text) (v : JSON) :
  loads_or_raise json_loads t = Ok v <-> json_loads t = inl v.
Proof.
  unfold loads_or_raise; destruct (json_loads t); split; intros H;
    try discriminate; congruence.
Qed.

Lemma loads_or_raise_raise (t : text) (x : exn) :
  loads_or_raise json_loads t = Raise x
  <-> exists e,
      json_loads t = inr e
      /\ x = ValueError (error_head ++ e ++ error_label
                         ++ firstn 500 t ++ str "...").
Proof.
  unfold loads_or_raise, error_message.
  change 500%Z with (Z.of_nat 500); rewrite slice_to_firstn.
  destruct (json_loads t) as [v|e]; split.
  - discriminate.
  - intros [e [H _]]; discriminate.
  - intros H; injection H as <-; exists e; split; reflexivity.
  - intros [e' [H ->]]; injection H as ->; reflexivity.
Qed.

Lemma backend_payload_json_block (body : text) :
  AIBackend.payload (fence_json ++ newline ++ body ++ newline ++ fence)
  = strip body.
Proof.
  set (b := newline ++ body ++ newline).
  assert (ET : fence_json ++ newline ++ body ++ newline ++ fence
               = fence_json ++ b ++ fence)
    by (unfold b; rewrite <- !app_assoc; reflexivity).
  assert (Er : rfind (fence_json ++ b ++ fence) fence
               = Z.of_nat (List.length fence_json + List.length b)).
  { rewrite app_assoc, rfind_suffix, length_app; [reflexivity | discriminate]. }
  rewrite ET; unfold AIBackend.payload.
  rewrite contains_prefix, find_prefix, Er.
  change (0 + 7)%Z with (Z.of_nat (List.length fence_json)).
  rewrite slice_middle.
  unfold b, newline, strip; cbn [app].
  rewrite strip_by_cons by reflexivity.
  apply strip_by_snoc; reflexivity.
Qed.

Lemma backend_payload_other (t : text) :
  contains t fence_json = false -> AIBackend.payload t = AIClient.payload t.
Proof. intros H; unfold AIBackend.payload, AIClient.payload; rewrite H; reflexivity. Qed.

Lemma client_payload_block (tag body : text) :
  ~ In 10%N tag ->
  AIClient.payload (fence ++ tag ++ newline ++ body ++ newline ++ fence) = body.
Proof.
  intros Htag; unfold AIClient.payload.
  rewrite startswith_app; apply drop_fence_lines_block, Htag.
Qed.

(** C9: Structured generation.  Both [generate_json] methods take a fenced
    block away, hand the rest to [json.loads], return the value when the rest
    is JSON, and otherwise raise a [ValueError] whose message ends with the
    first 500 characters of the rest followed by three dots; they raise
    nothing else and in no other case.  What is taken away: [AIClient] drops
    the first and the last line of a text that starts with a fence, so that a
    block with any tag after the opening fence is reduced to its body;
    [AIBackend] does the same unless the text holds a fence annotated with
    [json], in which case it keeps what stands between that fence and the
    last fence, stripped of blanks, so that a [json] block is reduced to its
    stripped body.  A text that does not start with a fence and holds no
    fence annotated with [json] is handed over as it is. *)
Theorem C9_generate_json_contract :
  (forall (t : text) (v : JSON),
      AIBackend.generate_json json_loads t = Ok v
      <-> json_loads (AIBackend.payload t) = inl v)
  /\ (forall (t : text) (x : exn),
         AIBackend.generate_json json_loads t = Raise x
         <-> exists e,
             json_loads (AIBackend.payload t) = inr e
             /\ x = ValueError (error_head ++ e ++ error_label
                                ++ firstn 500 (AIBackend.payload t)
                                ++ str "..."))
  /\ (forall (t : text) (v : JSON),
         AIClient.generate_json json_loads t = Ok v
         <-> json_loads (AIClient.payload (AIClient.generate t)) = inl v)
  /\ (forall (t : text) (x : exn),
         AIClient.generate_json json_loads t = Raise x
         <-> exists e,
             json_loads (AIClient.payload (AIClient.generate t)) = inr e
             /\ x = ValueError
                      (error_head ++ e ++ error_label
                       ++ firstn 500 (AIClient.payload (AIClient.generate t))
                       ++ str "..."))
  /\ (forall tag body : text,
         ~ In 10%N tag ->
         AIClient.payload (fence ++ tag ++ newline ++ body ++ newline ++ fence)
         = body)
  /\ (forall body : text,
         AIBackend.payload (fence_json ++ newline ++ body ++ newline ++ fence)
         = strip body)
  /\ (forall tag body : text,
         ~ In 10%N tag ->
         contains (fence ++ tag ++ newline ++ body ++ newline ++ fence)
                  fence_json = false ->
         AIBackend.payload
           (fence ++ tag ++ newline ++ body ++ newline ++ fence)
         = body)
  /\ (forall t : text,
         startswith t fence = false ->
         AIClient.payload t = t
         /\ (contains t fence_json = false -> AIBackend.payload t = t)).
Proof.
  split; [intros t v; apply loads_or_raise_ok|].
  split; [intros t x; apply loads_or_raise_raise|].
  split; [intros t v; apply loads_or_raise_ok|].
  split; [intros t x; apply loads_or_raise_raise|].
  split; [exact client_payload_block|].
  split; [exact backend_payload_json_block|].
  split.
  - intros tag body Htag Hnone.
    rewrite (backend_payload_other _ Hnone); apply client_payload_block, Htag.
  - intros t Hstart.
    assert (Ec : AIClient.payload t = t)
      by (unfold AIClient.payload; rewrite Hstart; reflexivity).
    split; [exact Ec|].
    intros Hnone; rewrite (backend_payload_other _ Hnone); exact Ec.
Qed.

End JsonClaims.

(** The theorem C9 at a response that holds [null] in a block fenced with
    the tag [json], for a decoder that accepts [null] alone: both methods
    return the value. *)
Lemma C9_generate_json_contract_witness :
  ~ In 10%N (Py.str "json")
  /\ @AIClient.generate_json Py.ascii_db unit Scenarios.loads_null
       (Json.fence ++ Py.str "json" ++ Json.newline ++ Py.str "null"
        ++ Json.newline ++ Json.fence)
     = Py.Ok tt
  /\ @AIBackend.generate_json Py.ascii_db unit Scenarios.loads_null
       (Json.fence ++ Py.str "json" ++ Json.newline ++ Py.str "null"
        ++ Json.newline ++ Json.fence)
     = Py.Ok tt.
Proof.
  assert (Htag : ~ In 10%N (Py.str "json")).
  { intros H; repeat (destruct H as [H|H]; [discriminate H|]); exact H. }
  pose proof (@C9_generate_json_contract Py.ascii_db unit Scenarios.loads_null)
    as (Hb & _ & Hc & _ & Hblock & _).
  split; [exact Htag|]; split.
  - apply Hc.
    change (AIClient.generate
              (Json.fence ++ Py.str "json" ++ Json.newline ++ Py.str "null"
               ++ Json.newline ++ Json.fence))
      with (Json.fence ++ Py.str "json" ++ Json.newline ++ Py.str "null"
            ++ Json.newline ++ Json.fence).
    rewrite (Hblock _ _ Htag); reflexivity.
  - apply Hb; vm_compute; reflexivity.
Defined.

(* ================================================================== *)
(** ** Further properties of the schema reconstructor *)
(* ================================================================== *)

Module MoreFacts.
Import Py Laravel Spec Model.
Import PyFacts DictFacts FoldFacts ReconstructFacts SortFacts OrderFacts ColumnFacts.

Section Sorted.
Variable A : Type.
Variable key : A -> text.

Lemma insert_by_In (x y : A) (l : list A) :
  In y (insert_by key x l) <-> y = x \/ In y l.
Proof.
  induction l as [|z l IH]; simpl; [intuition congruence|].
  destruct (text_ltb (key z) (key x)); simpl; [rewrite IH|]; intuition congruence.
Qed.

(** Insertion keeps a list sorted: no element is smaller than one before it. *)
Lemma insert_by_sorted (x : A) (l : list A) :
  StronglySorted (fun a b => text_ltb (key b) (key a) = false) l ->
  StronglySorted (fun a b => text_ltb (key b) (key a) = false)
                 (insert_by key x l).
Proof.
  induction 1 as [|z l Hl IH Hz]; simpl; [repeat constructor|].
  destruct (text_ltb (key z) (key x)) eqn:Hzx.
  - constructor; [exact IH|].
    apply Forall_forall; intros y Hy; apply insert_by_In in Hy.
    destruct Hy as [->|Hy]; [apply text_ltb_asym; exact Hzx|].
    rewrite Forall_forall in Hz; apply Hz, Hy.
  - constructor; [constructor; assumption|].
    constructor; [exact Hzx|].
    apply Forall_forall; intros y Hy.
    rewrite Forall_forall in Hz; specialize (Hz y Hy).
    destruct (text_ltb (key y) (key x)) eqn:Hyx; [|reflexivity].
    destruct (text_ltb (key y) (key z)) eqn:Hyz; [discriminate|].
    rewrite (text_ltb_le_lt _ _ _ Hyz Hyx) in Hzx; discriminate.
Qed.

Lemma sort_by_sorted (l : list A) :
  StronglySorted (fun a b => text_ltb (key b) (key a) = false) (sort_by key l).
Proof.
  induction l as [|x l IH]; simpl; [constructor | apply insert_by_sorted, IH].
Qed.

(** With distinct keys the sorted list is strictly increasing. *)
Lemma sorted_strict (l : list A) :
  NoDup (List.map key l) ->
  StronglySorted (fun a b => text_ltb (key b) (key a) = false) l ->
  StronglySorted (fun a b => text_ltb (key a) (key b) = true) l.
Proof.
  intros Hnd; induction 1 as [|z l Hl IH Hz]; [constructor|].
  inversion Hnd as [|? ? Hnz Hnd']; subst.
  constructor; [apply IH, Hnd'|].
  rewrite Forall_forall in *; intros y Hy.
  destruct (text_ltb (key z) (key y)) eqn:E; [reflexivity|].
  exfalso; apply Hnz.
  rewrite (text_ltb_total _ _ E (Hz y Hy)); apply in_map, Hy.
Qed.

End Sorted.

Lemma touched_single (t : text) (fa fb : text) (opsa opsb : list Op) :
  truthy t = true ->
  touched [(fa, [(t, opsa)]) : Document; (fb, [(t, opsb)]) : Document] = [t]
  /\ table_ops t [(fa, [(t, opsa)]) : Document; (fb, [(t, opsb)]) : Document]
     = opsa ++ opsb.
Proof.
  intros Ht; unfold touched, table_ops, blocks_for, live_blocks, blocks_of.
  cbn [flat_map List.map app fst snd filter block_table block_ops].
  rewrite Ht; cbn [filter List.map firsts block_table block_ops fst snd].
  rewrite !text_eqb_refl; cbn [negb filter flat_map block_ops fst snd].
  rewrite app_nil_r; split; reflexivity.
Qed.

Lemma column_type_entry (t : text) (docs : list Document) (c : text) :
  column_type (table_entry t docs) c = net_effect (table_ops t docs) c.
Proof.
  rewrite (column_type_columns_of (table_entry t docs) _ c eq_refl).
  apply final_schema_net_effect.
Qed.

Lemma keys_pop_absent {V} (d : dict V) (k : text) :
  NoDup (keys d) -> ~ In k (keys (dict_pop k d)).
Proof.
  intros Hnd Hin.
  assert (H : dict_get k (dict_pop k d) = None)
    by (rewrite dict_get_pop by exact Hnd; rewrite text_eqb_refl; reflexivity).
  apply dict_get_None in H; tauto.
Qed.

Lemma ascii_decode (bs : list N) :
  Forall (fun b => (b < 128)%N) bs -> utf8_decode bs = Some bs.
Proof.
  induction 1 as [|b bs Hb Hbs IH]; [reflexivity|].
  cbn [utf8_decode]; apply N.ltb_lt in Hb; rewrite Hb, IH; reflexivity.
Qed.

End MoreFacts.

Section MoreClaims.
Import Py Laravel Spec Model.
Import PyFacts DictFacts FoldFacts ReconstructFacts SortFacts OrderFacts
       ColumnFacts MoreFacts.

(** X1: the result of the reconstructor is sorted by table name, strictly: it
    holds every table once, in the order of the names. *)
Theorem X1_result_sorted_by_table_name (docs : list Document) :
  StronglySorted
    (fun a b => text_ltb (table_name a) (table_name b) = true)
    (reconstruct docs)
  /\ NoDup (List.map table_name (reconstruct docs)).
Proof.
  rewrite reconstruct_spec.
  set (entries := List.map (fun t => table_entry t docs) (touched docs)).
  assert (Hnd : NoDup (List.map table_name entries)).
  { unfold entries; rewrite map_map; cbn [table_name table_entry].
    rewrite map_id; apply firsts_NoDup. }
  assert (Hs : NoDup (List.map table_name (sort_by table_name entries))).
  { eapply Permutation_NoDup; [|exact Hnd].
    apply Permutation_map, sort_by_permutation. }
  split; [|exact Hs].
  apply sorted_strict; [exact Hs | apply sort_by_sorted].
Qed.

(** X2: the net effect follows the order of the documents.  When one
    document adds a column to a table and another drops it, the column is
    absent if the Drop comes second and present, with its type, if the Add
    comes second. *)
Theorem X2_add_and_drop_do_not_commute
        (t c ty fa fb : text) :
  truthy t = true ->
  mem ty index_types = false ->
  text_eqb ty (str "foreign") = false ->
  let doc_add : Document := (fa, [(t, [mk_op "add" c ty])]) in
  let doc_drop : Document := (fb, [(t, [mk_op "drop" c (str "drop")])]) in
  (exists r, find_table t (reconstruct [doc_add; doc_drop]) = Some r
             /\ column_type r c = None)
  /\ (exists r, find_table t (reconstruct [doc_drop; doc_add]) = Some r
                /\ column_type r c = Some ty).
Proof.
  intros Ht Hidx Hfk doc_add doc_drop; subst doc_add doc_drop.
  assert (Hadd : is_add (mk_op "add" c ty) = true).
  { unfold is_add; cbn [mk_op op_action op_type].
    rewrite text_eqb_refl, Hidx, Hfk; reflexivity. }
  destruct (@touched_single t fa fb [mk_op "add" c ty]
              [mk_op "drop" c (str "drop")] Ht) as [Et1 Eo1].
  destruct (@touched_single t fb fa [mk_op "drop" c (str "drop")]
              [mk_op "add" c ty] Ht) as [Et2 Eo2].
  assert (Hmem : mem t [t] = true)
    by (unfold mem; cbn [existsb]; rewrite text_eqb_refl; reflexivity).
  split.
  - eexists; split.
    + rewrite find_table_reconstruct, Et1, Hmem; reflexivity.
    + rewrite column_type_entry, Eo1.
      unfold net_effect; cbn [app fold_left]; unfold net_step at 1.
      change (is_add (mk_op "drop" c (str "drop"))) with false.
      change (is_drop (mk_op "drop" c (str "drop"))) with true.
      cbn [mk_op op_name]; rewrite text_eqb_refl; reflexivity.
  - eexists; split.
    + rewrite find_table_reconstruct, Et2, Hmem; reflexivity.
    + rewrite column_type_entry, Eo2.
      unfold net_effect; cbn [app fold_left]; unfold net_step at 1.
      rewrite Hadd; cbn [mk_op op_name op_type].
      rewrite text_eqb_refl; reflexivity.
Qed.

(** X3: the place of a column.  An Add of a column that is there overwrites
    its type and leaves the order of the columns as it is; an Add of a column
    that is not there puts it last; so a column that is dropped and added
    again is last. *)
Theorem X3_column_position
        (schema : dict text) (idxs : list Index) (fks : list ForeignKey)
        (op : Op) :
  NoDup (keys schema) ->
  is_add op = true ->
  let after st := keys (fst (fst st)) in
  (In (op_name op) (keys schema) ->
   after (apply_op (schema, idxs, fks) op) = keys schema)
  /\ (~ In (op_name op) (keys schema) ->
      after (apply_op (schema, idxs, fks) op) = keys schema ++ [op_name op])
  /\ (forall drop,
         is_drop drop = true -> op_name drop = op_name op ->
         after (apply_op (apply_op (schema, idxs, fks) drop) op)
         = keys (dict_pop (op_name op) schema) ++ [op_name op]).
Proof.
  intros Hnd Hadd after; unfold after.
  assert (Hstep : forall s i f,
             fst (fst (apply_op (s, i, f) op))
             = dict_set (op_name op) (op_type op) s).
  { intros s i f; rewrite apply_op_split; unfold schema_step; rewrite Hadd.
    reflexivity. }
  split; [|split].
  - intros Hin; rewrite Hstep; apply keys_dict_set_present, Hin.
  - intros Hin; rewrite Hstep, dict_set_absent by exact Hin.
    unfold keys; rewrite map_app; reflexivity.
  - intros drop Hdrop Hname.
    assert (Ea : is_add drop = false).
    { unfold is_add, is_drop in *; apply text_eqb_eq in Hdrop; rewrite Hdrop.
      reflexivity. }
    rewrite (apply_op_split schema idxs fks drop), Hstep.
    unfold schema_step; rewrite Ea, Hdrop, Hname.
    rewrite dict_set_absent by (apply keys_pop_absent, Hnd).
    unfold keys; rewrite map_app; reflexivity.
Qed.

(** X4: a file of ASCII bytes is always read: the text is the bytes, with
    the line ends normalised. *)
Theorem X4_ascii_files_are_read (f : file) :
  Forall (fun b => (Byte.to_N b < 128)%N) f ->
  read_text f = Ok (universal_newlines (List.map Byte.to_N f)).
Proof.
  intros H; unfold read_text; rewrite ascii_decode; [reflexivity|].
  apply Forall_map; exact H.
Qed.

End MoreClaims.

(** The theorem X2 at the column [title] of the table [todos]. *)
Lemma X2_add_and_drop_do_not_commute_witness :
  exists r,
    Spec.find_table (Py.str "todos")
      (Laravel.reconstruct
         [(Py.str "a.php",
           [(Py.str "todos",
             [Laravel.mk_op "drop" (Py.str "title") (Py.str "drop")])]);
          (Py.str "b.php",
           [(Py.str "todos",
             [Laravel.mk_op "add" (Py.str "title") (Py.str "string")])])])
    = Some r
    /\ Spec.column_type r (Py.str "title") = Some (Py.str "string").
Proof.
  exact (proj2 (@X2_add_and_drop_do_not_commute
                  (Py.str "todos") (Py.str "title") (Py.str "string")
                  (Py.str "b.php") (Py.str "a.php")
                  eq_refl eq_refl eq_refl)).
Defined.

(** The theorem X3 at the columns [id] and [title], when [title] is added
    once more: the order stays. *)
Lemma X3_column_position_witness :
  Py.keys
    (fst (fst (Laravel.apply_op
                 ([(Py.str "id", Py.str "id");
                   (Py.str "title", Py.str "string")], [], [])
                 (Laravel.mk_op "add" (Py.str "title") (Py.str "text")))))
  = [Py.str "id"; Py.str "title"].
Proof.
  assert (Hnd : NoDup (Py.keys [(Py.str "id", Py.str "id");
                                (Py.str "title", Py.str "string")])).
  { constructor; [intros [H|[]]; discriminate H|].
    constructor; [intros [] | constructor]. }
  refine (proj1 (@X3_column_position _ [] []
                   (Laravel.mk_op "add" (Py.str "title") (Py.str "text"))
                   Hnd eq_refl) _).
  right; left; reflexivity.
Defined.

(** The theorem X4 at a file of five ASCII bytes. *)
Lemma X4_ascii_files_are_read_witness :
  Py.read_text (Py.bytes "<?php") = Py.Ok (Py.str "<?php").
Proof.
  refine (eq_trans (@X4_ascii_files_are_read (Py.bytes "<?php") _) _).
  - repeat constructor.
  - reflexivity.
Defined.

(* ================================================================== *)
(** ** The matcher only finds words of the pattern *)
(* ================================================================== *)

Module WordsFacts.
Import Py Re Words.

Lemma firstn_prefix {A} (w s' : list A) :
  firstn (List.length (w ++ s') - List.length s') (w ++ s') = w.
Proof.
  rewrite length_app, Nat.add_sub, firstn_app, Nat.sub_diag, firstn_all.
  cbn [firstn]; apply app_nil_r.
Qed.

Lemma bound_weaken (r r' : regex) (b : nat * text) :
  (forall n, incl (bodies r n) (bodies r' n)) -> bound r b -> bound r' b.
Proof. intros H [r1 [Hin Hm]]; exists r1; split; [apply H, Hin | exact Hm]. Qed.

Lemma star_sound (r1 : regex) (k : cont) (res : text * captures)
  (IH : forall s caps k', run r1 s caps k' = Some res -> run_spec r1 s caps k' res)
  (fuel : nat) :
  forall s0 caps0,
    (fix loop (fuel : nat) (s0 : text) (caps0 : captures) {struct fuel} :=
       match fuel with
       | O => k s0 caps0
       | S fuel' =>
           orelse
             (run r1 s0 caps0
                (fun s' caps' =>
                   if (List.length s' <? List.length s0)%nat
                   then loop fuel' s' caps' else None))
             (k s0 caps0)
       end) fuel s0 caps0 = Some res ->
    run_spec (Star r1) s0 caps0 k res.
Proof.
  assert (Hk : forall s0 caps0, k s0 caps0 = Some res ->
                                run_spec (Star r1) s0 caps0 k res).
  { intros s0 caps0 H; exists [], s0, []; repeat split; auto.
    - exists []; split; [reflexivity | constructor].
    - discriminate. }
  induction fuel as [|fuel IHf]; intros s0 caps0 H; [apply Hk, H|].
  match type of H with orelse ?a ?b = _ => destruct a as [x|] eqn:E end;
    cbn [orelse] in H; [|apply Hk, H].
  injection H as ->.
  apply IH in E; destruct E as (w & s' & new & -> & Hw & Hb & _ & E).
  destruct (List.length s' <? List.length (w ++ s'))%nat; [|discriminate].
  apply IHf in E; destruct E as (w2 & s2 & new2 & -> & Hw2 & Hb2 & _ & E).
  exists (w ++ w2), s2, (new2 ++ new); repeat split.
  - apply app_assoc.
  - destruct Hw2 as [ws [-> Hws]]; exists (w :: ws); split;
      [reflexivity | constructor; assumption].
  - apply Forall_app; split; [exact Hb2 | exact Hb].
  - discriminate.
  - rewrite <- app_assoc; exact E.
Qed.

Lemma lazy_star_sound (r1 : regex) (k : cont) (res : text * captures)
  (IH : forall s caps k', run r1 s caps k' = Some res -> run_spec r1 s caps k' res)
  (fuel : nat) :
  forall s0 caps0,
    (fix loop (fuel : nat) (s0 : text) (caps0 : captures) {struct fuel} :=
       match fuel with
       | O => k s0 caps0
       | S fuel' =>
           orelse
             (k s0 caps0)
             (run r1 s0 caps0
                (fun s' caps' =>
                   if (List.length s' <? List.length s0)%nat
                   then loop fuel' s' caps' else None))
       end) fuel s0 caps0 = Some res ->
    run_spec (LazyStar r1) s0 caps0 k res.
Proof.
  assert (Hk : forall s0 caps0, k s0 caps0 = Some res ->
                                run_spec (LazyStar r1) s0 caps0 k res).
  { intros s0 caps0 H; exists [], s0, []; repeat split; auto.
    - exists []; split; [reflexivity | constructor].
    - discriminate. }
  induction fuel as [|fuel IHf]; intros s0 caps0 H; [apply Hk, H|].
  destruct (k s0 caps0) as [x|] eqn:E; cbn [orelse] in H.
  - injection H as ->; apply Hk, E.
  - apply IH in H; destruct H as (w & s' & new & -> & Hw & Hb & _ & H).
    destruct (List.length s' <? List.length (w ++ s'))%nat; [|discriminate].
    apply IHf in H; destruct H as (w2 & s2 & new2 & -> & Hw2 & Hb2 & _ & H).
    exists (w ++ w2), s2, (new2 ++ new); repeat split.
    + apply app_assoc.
    + destruct Hw2 as [ws [-> Hws]]; exists (w :: ws); split;
        [reflexivity | constructor; assumption].
    + apply Forall_app; split; [exact Hb2 | exact Hb].
    + discriminate.
    + rewrite <- app_assoc; exact H.
Qed.

Theorem run_sound (r : regex) :
  forall s caps k res, run r s caps k = Some res -> run_spec r s caps k res.
Proof.
  induction r as [|c|p|r1 IH1 r2 IH2|r1 IH1 r2 IH2|r1 IH1|r1 IH1|n r1 IH1];
    intros s caps k res H.
  - exists [], s, []; repeat split; auto; discriminate.
  - destruct s as [|x s]; [discriminate|]; cbn [run] in H.
    destruct (N.eqb_spec x c) as [->|]; [|discriminate].
    exists [c], s, []; repeat split; auto; discriminate.
  - destruct s as [|x s]; [discriminate|]; cbn [run] in H.
    destruct (p x) eqn:Hp; [|discriminate].
    exists [x], s, []; repeat split; auto; [exists x; auto | discriminate].
  - cbn [run] in H; apply IH1 in H.
    destruct H as (w1 & s1 & new1 & -> & Hw1 & Hb1 & Hm1 & H).
    apply IH2 in H; destruct H as (w2 & s2 & new2 & -> & Hw2 & Hb2 & Hm2 & H).
    exists (w1 ++ w2), s2, (new2 ++ new1); repeat split.
    + apply app_assoc.
    + exists w1, w2; auto.
    + apply Forall_app; split.
      * eapply Forall_impl; [|exact Hb2]; intros b; apply bound_weaken.
        intros n; cbn [bodies]; apply incl_appr, incl_refl.
      * eapply Forall_impl; [|exact Hb1]; intros b; apply bound_weaken.
        intros n; cbn [bodies]; apply incl_appl, incl_refl.
    + intros n Hn; cbn [mandatory] in Hn; rewrite map_app; apply in_or_app.
      apply orb_true_iff in Hn; destruct Hn; [right|left]; auto.
    + rewrite <- app_assoc; exact H.
  - cbn [run] in H.
    destruct (run r1 s caps k) as [x|] eqn:E; cbn [orelse] in H.
    + injection H as ->; apply IH1 in E.
      destruct E as (w & s' & new & -> & Hw & Hb & _ & E).
      exists w, s', new; repeat split; auto; [left; exact Hw | | discriminate].
      eapply Forall_impl; [|exact Hb]; intros b; apply bound_weaken.
      intros n; cbn [bodies]; apply incl_appl, incl_refl.
    + apply IH2 in H; destruct H as (w & s' & new & -> & Hw & Hb & _ & E').
      exists w, s', new; repeat split; auto; [right; exact Hw | | discriminate].
      eapply Forall_impl; [|exact Hb]; intros b; apply bound_weaken.
      intros n; cbn [bodies]; apply incl_appr, incl_refl.
  - cbn [run] in H; eapply star_sound; [|exact H].
    intros; apply IH1; assumption.
  - cbn [run] in H; eapply lazy_star_sound; [|exact H].
    intros; apply IH1; assumption.
  - cbn [run] in H; apply IH1 in H.
    destruct H as (w & s' & new & -> & Hw & Hb & Hm & H).
    rewrite firstn_prefix in H.
    exists w, s', ((n, w) :: new); repeat split; auto.
    + constructor.
      * exists r1; split; [|exact Hw]; cbn [bodies fst].
        rewrite Nat.eqb_refl; left; reflexivity.
      * eapply Forall_impl; [|exact Hb]; intros b; apply bound_weaken.
        intros m; cbn [bodies]; apply incl_appr, incl_refl.
    + intros m Hm'; cbn [mandatory] in Hm'; cbn [List.map fst].
      apply orb_true_iff in Hm'; destruct Hm' as [Hm'|Hm'];
        [left; apply Nat.eqb_eq, Hm' | right; apply Hm, Hm'].
Qed.

End WordsFacts.

Module MatchFacts.
Import Py Re Words WordsFacts.

Lemma match_here_sound (r : regex) (s : text) (m : rmatch) :
  match_here r s = Some m ->
  (exists s', s = whole m ++ s')
  /\ matches r (whole m)
  /\ Forall (bound r) (groups m)
  /\ (forall n, mandatory r n = true -> In n (List.map fst (groups m))).
Proof.
  unfold match_here; intros H.
  destruct (run r s [] (fun s' caps => Some (s', caps))) as [[rest caps]|] eqn:E;
    [|discriminate].
  injection H as <-; cbn [whole groups].
  apply run_sound in E; destruct E as (w & s' & new & -> & Hw & Hb & Hm & E).
  injection E as <- <-; rewrite firstn_prefix, app_nil_r; eauto.
Qed.

Lemma lookup_group_In (n : nat) (caps : captures) (t : text) :
  lookup_group n caps = Some t -> In (n, t) caps.
Proof.
  induction caps as [|[m u] caps IH]; cbn [lookup_group]; [discriminate|].
  destruct (Nat.eqb_spec m n) as [->|_]; intros H;
    [injection H as ->; left; reflexivity | right; apply IH, H].
Qed.

Lemma lookup_group_bound (n : nat) (caps : captures) :
  In n (List.map fst caps) -> exists t, lookup_group n caps = Some t.
Proof.
  induction caps as [|[m u] caps IH]; cbn [lookup_group List.map fst]; [intros []|].
  destruct (Nat.eqb_spec m n) as [->|Hne]; [eauto|].
  intros [H|H]; [contradiction | apply IH, H].
Qed.

(** A group that took part in a match holds a word of one of its bodies. *)
Lemma group_bound (r : regex) (m : rmatch) (n : nat) (t : text) :
  found r m -> group m n = Some t -> bound r (n, t).
Proof.
  intros [s H] Hg; apply match_here_sound in H; destruct H as (_ & _ & Hb & _).
  rewrite Forall_forall in Hb; apply Hb, lookup_group_In, Hg.
Qed.

(** A mandatory group always holds a word of one of its bodies. *)
Lemma group_str_bound (r : regex) (m : rmatch) (n : nat) :
  found r m -> mandatory r n = true -> bound r (n, group_str m n).
Proof.
  intros Hf Hn; pose proof Hf as [s H].
  apply match_here_sound in H; destruct H as (_ & _ & _ & Hm).
  destruct (lookup_group_bound _ _ (Hm n Hn)) as [t Ht].
  unfold group_str, group; rewrite Ht; eapply group_bound; [exact Hf | exact Ht].
Qed.

(** [m.group(n) or d] is the default, or a word of a body of the group that
    is not empty. *)
Lemma group_or_bound (r : regex) (m : rmatch) (n : nat) (d : text) :
  found r m ->
  group_or m n d = d \/ (group_or m n d <> [] /\ bound r (n, group_or m n d)).
Proof.
  intros Hf; unfold group_or; destruct (group m n) as [[|c t]|] eqn:E;
    [left; reflexivity | | left; reflexivity].
  right; split; [discriminate | eapply group_bound; [exact Hf | exact E]].
Qed.

Lemma scan_found (r : regex) (s : text) :
  forall skip, Forall (found r) (scan r skip s).
Proof.
  induction s as [|x s IH]; intros [|skip]; cbn [scan]; try constructor.
  - destruct (match_here r []) as [m|] eqn:E; constructor; [|constructor].
    exists []; exact E.
  - destruct (match_here r (x :: s)) as [m|] eqn:E; [|apply IH].
    constructor; [exists (x :: s); exact E | apply IH].
  - apply IH.
Qed.

Lemma finditer_found (r : regex) (s : text) : Forall (found r) (finditer r s).
Proof. apply scan_found. Qed.

Lemma search_found (r : regex) (s : text) (m : rmatch) :
  search r s = Some m -> found r m.
Proof.
  induction s as [|x s IH]; cbn [search].
  - destruct (match_here r []) as [m'|] eqn:E; [|discriminate].
    intros H; injection H as <-; exists []; exact E.
  - destruct (match_here r (x :: s)) as [m'|] eqn:E; [|exact IH].
    intros H; injection H as <-; exists (x :: s); exact E.
Qed.

(** *** The words of the patterns in use *)

Lemma matches_chars (l w : text) : matches (seq (List.map Chr l)) w <-> w = l.
Proof.
  revert w; induction l as [|c l IH]; intros w; cbn [List.map seq fold_right matches].
  - tauto.
  - split.
    + intros (w1 & w2 & -> & -> & H); apply IH in H; subst; reflexivity.
    + intros ->; exists [c], l; repeat split; apply IH; reflexivity.
Qed.

Lemma matches_lit (s : string) (w : text) : matches (lit s) w <-> w = str s.
Proof. apply matches_chars. Qed.

Lemma matches_alts_lit (ls : list string) (w : text) :
  matches (alts (List.map lit ls)) w -> In w (List.map str ls).
Proof.
  induction ls as [|a ls IH]; cbn [List.map alts].
  - intros (c & _ & H); discriminate.
  - destruct ls as [|b ls].
    + intros H; apply matches_lit in H; left; symmetry; exact H.
    + intros [H|H]; [left; symmetry; apply matches_lit, H | right; apply IH, H].
Qed.

Lemma matches_star_cls (p : char -> bool) (w : text) :
  matches (Star (Cls p)) w -> Forall (fun c => p c = true) w.
Proof.
  intros (ws & -> & H); induction H as [|u ws (c & -> & Hc) _ IH];
    [constructor | constructor; assumption].
Qed.

Lemma matches_plus_cls (p : char -> bool) (w : text) :
  matches (plus (Cls p)) w -> w <> [] /\ Forall (fun c => p c = true) w.
Proof.
  intros (w1 & w2 & -> & (c & -> & Hc) & H); split; [discriminate|].
  constructor; [exact Hc | apply matches_star_cls, H].
Qed.

End MatchFacts.

(* ================================================================== *)
(** ** The shape of routes: X5 and X6 *)
(* ================================================================== *)

Module ShapeFacts.
Import Py Re Laravel Words WordsFacts MatchFacts.

Lemma Forall_flat_map {A B} (P : B -> Prop) (f : A -> list B) (l : list A) :
  Forall (fun a => Forall P (f a)) l -> Forall P (flat_map f l).
Proof.
  induction 1 as [|a l Ha _ IH]; cbn [flat_map]; [constructor|].
  apply Forall_app; split; assumption.
Qed.

Lemma Forall_map_found {A} (P : A -> Prop) (f : rmatch -> A) (r : regex)
      (s : text) :
  (forall m, found r m -> P (f m)) -> Forall P (List.map f (finditer r s)).
Proof.
  intros H; apply Forall_map.
  eapply Forall_impl; [|apply finditer_found]; exact H.
Qed.

Section Routes.
Context {U : UnicodeDB}.

(** A mandatory group with one body holds a word of that body. *)
Lemma group_str_matches (r body : regex) (n : nat) (m : rmatch) :
  found r m -> mandatory r n = true -> bodies r n = [body] ->
  matches body (group_str m n).
Proof.
  intros Hf Hm Hb; destruct (@group_str_bound r m n Hf Hm) as [r1 [Hin H]].
  cbn [fst snd] in *; rewrite Hb in Hin; destruct Hin as [<-|[]]; exact H.
Qed.

Lemma upper_http_method (t : text) :
  matches http_method t ->
  In (upper t)
     (List.map str ["GET"; "POST"; "PUT"; "DELETE"; "PATCH"; "OPTIONS"; "ANY"]%string).
Proof.
  intros H.
  apply (@matches_alts_lit
           ["get"; "post"; "put"; "delete"; "patch"; "options"; "any"]%string)
    in H.
  cbn [List.map In] in H |- *.
  repeat (destruct H as [<-|H]; [vm_compute; tauto|]); destruct H.
Qed.

Lemma none_of_word (cs w : text) :
  matches (plus (none_of cs)) w ->
  w <> [] /\ Forall (fun c => one_of cs c = false) w.
Proof.
  intros H; apply matches_plus_cls in H; destruct H as [Hne H]; split; [exact Hne|].
  eapply Forall_impl; [|exact H]; intros c Hc; apply negb_true_iff, Hc.
Qed.

Lemma route_match_method (m : rmatch) :
  found route_pattern m ->
  In (upper (group_str m 1))
     (List.map str ["GET"; "POST"; "PUT"; "DELETE"; "PATCH"; "OPTIONS"; "ANY"]%string).
Proof.
  intros Hf; apply upper_http_method.
  apply (@group_str_matches _ _ 1 _ Hf); reflexivity.
Qed.

Lemma route_match_uri (m : rmatch) :
  found route_pattern m ->
  group_str m 2 <> [] /\ Forall (fun c => one_of quotes c = false) (group_str m 2).
Proof.
  intros Hf; apply none_of_word.
  apply (@group_str_matches _ _ 2 _ Hf); reflexivity.
Qed.

Lemma mw_route_match_method (m : rmatch) :
  found mw_route_pattern m ->
  In (upper (group_str m 2))
     (List.map str ["GET"; "POST"; "PUT"; "DELETE"; "PATCH"; "OPTIONS"; "ANY"]%string).
Proof.
  intros Hf; apply upper_http_method.
  apply (@group_str_matches _ _ 2 _ Hf); reflexivity.
Qed.

Lemma mw_route_match_uri (m : rmatch) :
  found mw_route_pattern m ->
  group_str m 3 <> [] /\ Forall (fun c => one_of quotes c = false) (group_str m 3).
Proof.
  intros Hf; apply none_of_word.
  apply (@group_str_matches _ _ 3 _ Hf); reflexivity.
Qed.

Lemma join_prefix_nonempty (prefix u : text) :
  u <> [] -> join_prefix prefix u <> [].
Proof.
  intros Hu; unfold join_prefix; destruct (truthy prefix); [|exact Hu].
  intros H; apply app_eq_nil in H; destruct H as [_ H]; discriminate H.
Qed.

End Routes.

End ShapeFacts.

Section ShapeClaims.
Import Py Re Laravel Words WordsFacts MatchFacts ShapeFacts.
Context {U : UnicodeDB}.

(** X5: the method of a route.  Whatever the text of a route file, every
    route that [_parse_route_file] and [_parse_routes_with_groups] find in it
    has one of the seven methods GET, POST, PUT, DELETE, PATCH, OPTIONS and
    ANY, in upper case. *)
Theorem X5_route_methods (content : text) :
  Forall
    (fun r =>
       In (method r)
          (List.map str
             ["GET"; "POST"; "PUT"; "DELETE"; "PATCH"; "OPTIONS"; "ANY"]%string))
    (parse_route_content content ++ _parse_routes_with_groups content).
Proof.
  apply Forall_app; split; [apply Forall_app; split|].
  - apply Forall_map_found; intros m Hf; apply route_match_method, Hf.
  - apply Forall_map_found; intros m Hf; apply mw_route_match_method, Hf.
  - apply Forall_flat_map, Forall_forall; intros gm _.
    apply Forall_map_found; intros m Hf; apply route_match_method, Hf.
Qed.

(** X6: the URI of a route.  A route found outside a group has the URI of
    its declaration, which is not empty and holds no quote character; a
    route found in a group has a URI that is not empty, with or without a
    prefix. *)
Theorem X6_route_uris (content : text) :
  Forall
    (fun r => uri r <> [] /\ Forall (fun c => one_of quotes c = false) (uri r))
    (parse_route_content content)
  /\ Forall (fun r => uri r <> []) (_parse_routes_with_groups content).
Proof.
  split; [apply Forall_app; split|].
  - apply Forall_map_found; intros m Hf; apply route_match_uri, Hf.
  - apply Forall_map_found; intros m Hf; apply mw_route_match_uri, Hf.
  - apply Forall_flat_map, Forall_forall; intros gm _.
    apply Forall_map_found; intros m Hf; cbn [uri grouped_route].
    apply join_prefix_nonempty, route_match_uri, Hf.
Qed.

End ShapeClaims.

(* ================================================================== *)
(** ** The shape of migrations: X7 to X10 *)
(* ================================================================== *)

Module MigrationShapeFacts.
Import Py Re Laravel Spec Model Words Shape WordsFacts MatchFacts ShapeFacts.
Import PyFacts DictFacts OrderFacts ColumnFacts.

Section Ops.
Context {U : UnicodeDB}.

Lemma ident_group (r : regex) (n : nat) (m : rmatch) :
  found r m -> mandatory r n = true -> bodies r n = [ident] ->
  word_name (group_str m n).
Proof.
  intros Hf Hm Hb; apply matches_plus_cls.
  apply (@group_str_matches r _ n m Hf Hm Hb).
Qed.

Lemma keyword_group (r : regex) (n : nat) (m : rmatch) (ls : list string) :
  found r m -> mandatory r n = true ->
  bodies r n = [alts (List.map lit ls)] ->
  Forall (fun s => str s <> []) ls ->
  group_str m n <> [].
Proof.
  intros Hf Hm Hb Hls.
  pose proof (@group_str_matches r _ n m Hf Hm Hb) as H.
  apply matches_alts_lit, in_map_iff in H; destruct H as [s [<- Hs]].
  rewrite Forall_forall in Hls; apply Hls, Hs.
Qed.

Lemma word_name_literal (s : string) :
  forallb isword (str s) = true -> str s <> [] -> word_name (str s).
Proof.
  intros H Hne; split; [exact Hne|]; rewrite forallb_forall in H.
  apply Forall_forall; exact H.
Qed.

Lemma id_column_name (m : rmatch) :
  found id_pattern m -> word_name (group_or m 2 (str "id")).
Proof.
  intros Hf; destruct (@group_or_bound id_pattern m 2 (str "id") Hf)
    as [->|[Hne [r1 [Hin H]]]].
  - apply word_name_literal; [reflexivity | discriminate].
  - split; [exact Hne|].
    change (bodies id_pattern 2) with [Star word] in Hin.
    destruct Hin as [<-|[]]; apply matches_star_cls, H.
Qed.

Lemma ops_of_body_well_formed (body : text) :
  Forall well_formed (ops_of_body body).
Proof.
  unfold ops_of_body; repeat (apply Forall_app; split).
  - apply Forall_flat_map.
    eapply Forall_impl; [|apply (finditer_found add_pattern body)].
    intros m Hf; cbv beta zeta.
    destruct (mem (group_str m 1) constraint_types); constructor; [|constructor].
    split; [left; reflexivity|]; split; cbn [mk_op op_name op_type].
    + apply (@ident_group add_pattern 2 m Hf); reflexivity.
    + apply (@ident_group add_pattern 1 m Hf); reflexivity.
  - apply Forall_map_found; intros m Hf.
    split; [left; reflexivity|]; split; cbn [mk_op op_name op_type].
    + apply id_column_name, Hf.
    + apply (@keyword_group id_pattern 1 m
               ["id"; "bigIncrements"; "increments"]%string Hf);
        [reflexivity | reflexivity | repeat constructor; discriminate].
  - destruct (contains body (str "timestamps()")); repeat constructor;
      try discriminate; vm_compute; reflexivity.
  - destruct (contains body (str "softDeletes()")); repeat constructor;
      try discriminate; vm_compute; reflexivity.
  - apply Forall_map_found; intros m Hf.
    split; [left; reflexivity|]; split; cbn [mk_op op_name op_type];
      [|discriminate].
    apply (@ident_group foreign_id_pattern 1 m Hf); reflexivity.
  - apply Forall_map_found; intros m Hf.
    split; [left; reflexivity|]; split; cbn [mk_op op_name op_type].
    + apply (@ident_group index_pattern 2 m Hf); reflexivity.
    + apply (@keyword_group index_pattern 1 m
               ["index"; "unique"; "primary"]%string Hf);
        [reflexivity | reflexivity | repeat constructor; discriminate].
  - apply Forall_map_found; intros m Hf.
    split; [left; reflexivity|]; split; cbn [foreign_op op_name op_type];
      [|discriminate].
    apply (@ident_group foreign_pattern 1 m Hf); reflexivity.
  - apply Forall_map_found; intros m Hf.
    split; [right; reflexivity|]; split; cbn [mk_op op_name op_type];
      [|discriminate].
    apply (@ident_group drop_pattern 1 m Hf); reflexivity.
  - apply Forall_flat_map, Forall_forall; intros dm _.
    apply Forall_map; unfold findall1; apply Forall_map_found; intros m Hf.
    split; [right; reflexivity|]; split; cbn [mk_op op_name op_type];
      [|discriminate].
    apply (@ident_group quoted_name_pattern 1 m Hf); reflexivity.
Qed.

Lemma table_name_word (content : text) :
  Forall (fun b => word_name (fst b)) (parse_migration_content content).
Proof.
  unfold parse_migration_content; apply Forall_map_found; intros m Hf.
  cbn [fst]; apply (@ident_group block_pattern 2 m Hf); reflexivity.
Qed.

End Ops.

End MigrationShapeFacts.

Module OriginFacts.
Import Py Re Laravel Spec Model Words Shape WordsFacts MatchFacts ShapeFacts
       MigrationShapeFacts.
Import PyFacts DictFacts OrderFacts ColumnFacts.

Lemma filter_all {A} (p : A -> bool) (l : list A) :
  Forall (fun x => p x = true) l -> filter p l = l.
Proof.
  induction 1 as [|x l Hx _ IH]; cbn [filter]; [reflexivity|].
  rewrite Hx, IH; reflexivity.
Qed.

Lemma for_each_Ok {A B} (f : A -> result B) (l : list A) (out : list B) :
  for_each f l = Ok out -> Forall2 (fun a b => f a = Ok b) l out.
Proof.
  revert out; induction l as [|a l IH]; intros out; cbn [for_each].
  - intros H; injection H as <-; constructor.
  - destruct (f a) as [b|e] eqn:Ea; cbn [bind]; [|discriminate].
    destruct (for_each f l) as [bs|e]; cbn [bind]; [|discriminate].
    intros H; injection H as <-; constructor; [exact Ea | apply IH; reflexivity].
Qed.

(** A column of the net effect was added by an operation of the sequence. *)
Lemma net_step_origin (ops : list Op) :
  forall (m : ColumnMap) (c ty : text),
    fold_left net_step ops m c = Some ty ->
    m c = Some ty
    \/ exists op, In op ops /\ is_add op = true
                  /\ op_name op = c /\ op_type op = ty.
Proof.
  induction ops as [|op ops IH]; intros m c ty H; [left; exact H|].
  cbn [fold_left] in H; apply IH in H.
  destruct H as [H|[op' (Hin & Hop')]]; [|right; exists op'; split;
                                            [right; exact Hin | exact Hop']].
  unfold net_step in H; destruct (is_add op) eqn:Ea.
  - destruct (text_eqb c (op_name op)) eqn:Ec; [|left; exact H].
    apply text_eqb_eq in Ec; injection H as <-.
    right; exists op; repeat split; auto; left; reflexivity.
  - destruct (is_drop op); [|left; exact H].
    destruct (text_eqb c (op_name op)); [discriminate | left; exact H].
Qed.

Lemma net_effect_origin (ops : list Op) (c ty : text) :
  net_effect ops c = Some ty ->
  exists op, In op ops /\ is_add op = true /\ op_name op = c /\ op_type op = ty.
Proof.
  intros H; apply net_step_origin in H; destruct H as [H|H];
    [discriminate | exact H].
Qed.

(** A column of a table entry is a column of its dictionary. *)
Lemma In_columns_of (cols : dict text) (col : Column) :
  In col (columns_of cols) ->
  dict_get (col_name col) cols = Some (col_type col).
Proof.
  unfold columns_of; rewrite in_map_iff; intros [k [<- Hk]]; cbn [col_name col_type].
  destruct (dict_get k cols) as [ty|] eqn:E.
  - rewrite (dict_get_or_present _ _ [] E); reflexivity.
  - apply dict_get_None in E; contradiction.
Qed.

(** An operation of a table is an operation of a block of a document. *)
Lemma In_table_ops (t : text) (docs : list Document) (op : Op) :
  In op (table_ops t docs) ->
  exists d ops, In d docs /\ In (t, ops) (snd d) /\ In op ops.
Proof.
  unfold table_ops, blocks_for; rewrite in_flat_map.
  intros [b [Hb Hop]]; apply filter_In in Hb; destruct Hb as [Hb Et].
  apply text_eqb_eq in Et; apply In_live_blocks in Hb.
  destruct Hb as [d (Hd & _ & Hin & _)]; exists d, (block_ops b).
  destruct b as [f [t' ops]]; cbn in *; subst t'; auto.
Qed.

Lemma In_source_files (t : text) (docs : list Document) (f : text) :
  In f (source_files t docs)
  <-> exists d, In d docs /\ fst d = f /\ touches d t.
Proof.
  unfold source_files, blocks_for; rewrite firsts_In, in_map_iff; split.
  - intros [b [<- Hb]]; apply filter_In in Hb; destruct Hb as [Hb Et].
    apply text_eqb_eq in Et; apply In_live_blocks in Hb.
    destruct Hb as [d (Hd & Hf & Hin & Ht)]; exists d; repeat split; auto.
    + rewrite <- Et; exact Ht.
    + apply in_map_iff; exists (snd b); split; [exact Et | exact Hin].
  - intros [d (Hd & <- & Ht & Hin)]; apply in_map_iff in Hin.
    destruct Hin as [[t' ops] [Et Hin]]; cbn [fst] in Et; subst t'.
    exists (fst d, (t, ops)); split; [reflexivity|].
    apply filter_In; split; [|apply text_eqb_refl].
    apply In_live_blocks; exists d; repeat split; auto.
Qed.

(** A column of the entry of a table was added by an operation of the
    table. *)
Lemma column_origin (t : text) (docs : list Document) (col : Column) :
  In col (columns (table_entry t docs)) ->
  exists op, In op (table_ops t docs) /\ is_add op = true
             /\ op_name op = col_name col /\ op_type op = col_type col.
Proof.
  cbn [columns table_entry]; intros Hcol; apply In_columns_of in Hcol.
  rewrite (proj2 (final_schema_net_effect _)) in Hcol.
  apply net_effect_origin, Hcol.
Qed.

End OriginFacts.

Section OriginClaims.
Import Py Re Laravel Spec Model Words Shape WordsFacts MatchFacts ShapeFacts
       MigrationShapeFacts OriginFacts.
Import PyFacts DictFacts OrderFacts ColumnFacts.
Context {U : UnicodeDB}.

(** X7: the table of a block.  Every block that [_parse_migration_file]
    yields names its table with a run of word characters that is not empty;
    so, for documents read from files, [parse_migrations] skips no block:
    all of them are live. *)
Theorem X7_every_block_names_a_table :
  (forall content : text,
      Forall (fun b => word_name (fst b)) (parse_migration_content content))
  /\ (forall (migration_files : list (text * file)) (docs : list Document),
         read_documents migration_files = Ok docs ->
         live_blocks docs = blocks_of docs).
Proof.
  split; [exact table_name_word|].
  intros migration_files docs H; unfold read_documents in H.
  apply for_each_Ok in H; unfold live_blocks; apply filter_all.
  apply Forall_flat_map.
  induction H as [|mf d fs ds Hd _ IH]; constructor; [|exact IH].
  unfold _parse_migration_file in Hd.
  destruct (read_text (snd mf)) as [content|e]; cbn [bind] in Hd; [|discriminate].
  injection Hd as <-; cbn [fst snd]; apply Forall_map.
  eapply Forall_impl; [|apply (table_name_word content)].
  intros [t ops] [Hne _]; cbn [block_table fst snd] in *.
  destruct t; [contradiction | reflexivity].
Qed.

(** X8: the operations of a block.  Whatever the body of a block, every
    operation that [_parse_migration_file] yields for it has the action
    [add] or [drop], names its column with a run of word characters that is
    not empty, and has a type that is not empty. *)
Theorem X8_operations_are_well_formed (body : text) :
  Forall well_formed (ops_of_body body).
Proof. apply ops_of_body_well_formed. Qed.

(** X9: no column without an Add.  Every column of every entry of a result
    was added, under its name and with its type, by an operation of a block
    of its table in one of the documents; its type is therefore none of
    [index], [unique], [primary] and [foreign], whose declarations go to the
    indexes and the foreign keys. *)
Theorem X9_columns_come_from_adds (docs : list Document) :
  Forall
    (fun r =>
       Forall
         (fun col =>
            (exists d ops op,
                In d docs /\ In (table_name r, ops) (snd d) /\ In op ops
                /\ op_action op = str "add"
                /\ op_name op = col_name col /\ op_type op = col_type col)
            /\ mem (col_type col) index_types = false
            /\ col_type col <> str "foreign")
         (columns r))
    (reconstruct docs).
Proof.
  apply Forall_forall; intros r Hr; apply In_reconstruct in Hr.
  destruct Hr as [_ Er]; apply Forall_forall; intros col Hcol.
  rewrite Er in Hcol; apply column_origin in Hcol.
  destruct Hcol as [op (Hin & Ha & Hn & Ht)].
  unfold is_add in Ha; apply andb_true_iff in Ha; destruct Ha as [Ha Hf].
  apply andb_true_iff in Ha; destruct Ha as [Ha Hi].
  apply text_eqb_eq in Ha; apply negb_true_iff in Hi, Hf.
  apply In_table_ops in Hin; destruct Hin as [d [ops (Hd & Hb & Hop)]].
  split; [exists d, ops, op; repeat split; assumption|].
  rewrite <- Ht; split; [exact Hi|].
  intros E; apply text_eqb_eq in E; congruence.
Qed.

(** X10: the files of a table.  The [files] of an entry name every document
    that holds a block of the table, and nothing else, each name once. *)
Theorem X10_files_of_a_table (docs : list Document) :
  Forall
    (fun r =>
       NoDup (files r)
       /\ forall f, In f (files r)
                    <-> exists d, In d docs /\ fst d = f
                                  /\ touches d (table_name r))
    (reconstruct docs).
Proof.
  apply Forall_forall; intros r Hr; apply In_reconstruct in Hr.
  destruct Hr as [_ Er].
  assert (Ef : files r = source_files (table_name r) docs)
    by (rewrite Er at 1; reflexivity).
  rewrite Ef.
  split; [apply firsts_NoDup | intros f; apply In_source_files].
Qed.

End OriginClaims.

(* ================================================================== *)
(** ** Controllers: X11 and X12 *)
(* ================================================================== *)

Module ControllerFacts.
Import Py Re Laravel Controllers Words Shape WordsFacts MatchFacts ShapeFacts
       MigrationShapeFacts.
Import PyFacts TextFacts.

Lemma augment_names (t : text) (existing names : list text) (ms : list Method) :
  fold_left
    (fun ms' nm => if mem nm existing then ms' else ms' ++ [trait_method t nm])
    names ms
  = ms ++ List.map (trait_method t)
                   (filter (fun nm => negb (mem nm existing)) names).
Proof.
  revert ms; induction names as [|nm names IH]; intros ms;
    cbn [fold_left filter List.map]; [symmetry; apply app_nil_r|].
  rewrite IH; destruct (mem nm existing); cbn [negb List.map];
    [reflexivity | rewrite <- app_assoc; reflexivity].
Qed.

Lemma augment_traits (existing traits : list text) (ms : list Method) :
  fold_left
    (fun ms t =>
       match dict_get t known with
       | Some names =>
           fold_left
             (fun ms' nm =>
                if mem nm existing then ms' else ms' ++ [trait_method t nm])
             names ms
       | None => ms
       end)
    traits ms
  = ms ++ flat_map (brought existing) traits.
Proof.
  revert ms; induction traits as [|t traits IH]; intros ms;
    cbn [fold_left flat_map]; [symmetry; apply app_nil_r|].
  rewrite IH; unfold brought at 2; destruct (dict_get t known) as [names|].
  - rewrite augment_names, <- app_assoc; reflexivity.
  - reflexivity.
Qed.

Lemma augment_closed (traits : list text) (methods : list Method) :
  _augment_auth_methods traits methods
  = methods ++ flat_map (brought (List.map name methods)) traits.
Proof. apply augment_traits. Qed.

(** Every known method of a trait of the list is among the methods. *)
Lemma augment_complete (traits : list text) (methods : list Method)
      (t nm : text) (names : list text) :
  In t traits -> dict_get t known = Some names -> In nm names ->
  In nm (List.map name (_augment_auth_methods traits methods)).
Proof.
  intros Ht Hk Hnm; rewrite augment_closed, map_app; apply in_or_app.
  destruct (mem nm (List.map name methods)) eqn:E;
    [left; apply mem_In, E | right].
  apply in_map_iff; exists (trait_method t nm); split; [reflexivity|].
  apply in_flat_map; exists t; split; [exact Ht|].
  unfold brought; rewrite Hk; apply in_map, filter_In; split; [exact Hnm|].
  rewrite E; reflexivity.
Qed.

Lemma brought_nothing (existing : list text) (t : text) :
  (forall names nm, dict_get t known = Some names -> In nm names ->
                    In nm existing) ->
  brought existing t = [].
Proof.
  intros H; unfold brought; destruct (dict_get t known) as [names|] eqn:E;
    [|reflexivity].
  assert (Hf : filter (fun nm => negb (mem nm existing)) names = []).
  { specialize (H names); clear E.
    induction names as [|nm names IH]; cbn [filter]; [reflexivity|].
    rewrite (proj2 (mem_In nm existing)) by (apply (H nm eq_refl); left; reflexivity).
    cbn [negb]; apply IH; intros nm' _ Hin; apply (H nm' eq_refl); right; exact Hin. }
  rewrite Hf; reflexivity.
Qed.

Lemma flat_map_nil {A B} (f : A -> list B) (l : list A) :
  (forall a, In a l -> f a = []) -> flat_map f l = [].
Proof.
  induction l as [|a l IH]; intros H; cbn [flat_map]; [reflexivity|].
  rewrite (H a) by (left; reflexivity); apply IH.
  intros a' Ha'; apply H; right; exact Ha'.
Qed.

(** The pieces of [split] hold no separator. *)
Lemma split_pieces (sep : char) (s : text) :
  Forall (fun piece => ~ In sep piece) (split sep s).
Proof.
  induction s as [|x s IH]; cbn [split]; [repeat constructor; intros []|].
  destruct (N.eqb_spec x sep) as [->|Hne]; [constructor; [intros []|exact IH]|].
  destruct (split sep s) as [|l ls]; [repeat constructor; intros [H|[]]; congruence|].
  inversion IH as [|? ? Hl Hls]; subst; constructor; [|exact Hls].
  intros [H|H]; [congruence | exact (Hl H)].
Qed.

Lemma last_Forall {A} (P : A -> Prop) (l : list A) (d : A) :
  Forall P l -> P d -> P (last l d).
Proof.
  induction 1 as [|x l Hx Hl IH]; intros Hd; [exact Hd|].
  destruct l as [|y l]; [exact Hx | apply IH, Hd].
Qed.

Section Files.
Context {U : UnicodeDB}.

(** The known methods are method names, and none is a magic method. *)
Lemma known_names (t nm : text) (names : list text) :
  dict_get t known = Some names -> In nm names ->
  startswith nm (str "__") = false /\ word_name nm.
Proof.
  intros Hk Hnm.
  assert (Hall : forallb
                   (fun e => forallb
                               (fun n => negb (startswith n (str "__"))
                                         && negb (text_eqb n [])
                                         && forallb isword n) (snd e))
                   known = true) by reflexivity.
  assert (Hin : In (t, names) known).
  { clear Hnm Hall; revert Hk; unfold known.
    generalize (List.map str ["login"; "logout"; "showLoginForm"]%string)
               (List.map str ["showRegistrationForm"; "register"]%string)
               (List.map str ["showResetForm"; "reset"]%string)
               (List.map str ["verify"; "show"]%string).
    intros l1 l2 l3 l4; cbn [dict_get].
    repeat match goal with
           | |- context [text_eqb ?a t] =>
               let E := fresh "E" in
               destruct (text_eqb a t) eqn:E;
               [apply text_eqb_eq in E; subst t; intros H; injection H as <-;
                cbn [In]; tauto|]
           end.
    discriminate. }
  rewrite forallb_forall in Hall; specialize (Hall _ Hin); cbn [snd] in Hall.
  rewrite forallb_forall in Hall; specialize (Hall _ Hnm).
  apply andb_true_iff in Hall; destruct Hall as [Hall Hw].
  apply andb_true_iff in Hall; destruct Hall as [Hs He].
  apply negb_true_iff in Hs, He; split; [exact Hs|]; split.
  - intros ->; discriminate He.
  - apply Forall_forall; rewrite forallb_forall in Hw; exact Hw.
Qed.

Lemma scanned_methods (content : text) :
  Forall (fun m => startswith (name m) (str "__") = false
                   /\ word_name (name m) /\ note m = None)
         (flat_map method_of_match (finditer method_pattern content)).
Proof.
  apply Forall_flat_map.
  eapply Forall_impl; [|apply (finditer_found method_pattern content)].
  intros m Hf; unfold method_of_match.
  destruct (startswith (group_str m 1) (str "__")) eqn:E; constructor;
    [|constructor].
  cbn [name note]; split; [exact E|]; split; [|reflexivity].
  apply (@ident_group _ method_pattern 1 m Hf); reflexivity.
Qed.

Lemma rules_of_body_shape (body : text) :
  Forall (fun v => word_name (field v)
                   /\ rules v <> []
                   /\ Forall (fun c => one_of quotes c = false) (rules v))
         (rules_of_body body).
Proof.
  unfold rules_of_body; apply Forall_map_found; intros m Hf; cbn [field rules].
  split; [apply (@ident_group _ rule_pattern 1 m Hf); reflexivity|].
  apply none_of_word.
  apply (@group_str_matches rule_pattern _ 2 m Hf); reflexivity.
Qed.

End Files.

End ControllerFacts.

Section ControllerClaims.
Import Py Re Laravel Controllers Words Shape WordsFacts MatchFacts ShapeFacts
       MigrationShapeFacts ControllerFacts.
Import PyFacts TextFacts.
Context {U : UnicodeDB}.

(** X11: the methods a trait brings.  [_augment_auth_methods] keeps the
    methods given, in their order, and appends, trait by trait in the order
    of the list, the known methods of the trait whose names are not among the
    methods given; a trait listed twice brings its methods twice, since the
    names already there are collected once, before the loop.  Afterwards
    every known method of every listed trait is among the methods, so a
    second call changes nothing. *)
Theorem X11_augment_auth_methods (traits : list text) (methods : list Method) :
  _augment_auth_methods traits methods
  = methods ++ flat_map (brought (List.map name methods)) traits
  /\ (forall t nm names,
         In t traits -> dict_get t known = Some names -> In nm names ->
         In nm (List.map name (_augment_auth_methods traits methods)))
  /\ _augment_auth_methods traits (_augment_auth_methods traits methods)
     = _augment_auth_methods traits methods.
Proof.
  split; [apply augment_closed|].
  split; [intros t nm names; apply augment_complete|].
  rewrite (augment_closed traits (_augment_auth_methods traits methods)).
  rewrite flat_map_nil; [apply app_nil_r|].
  intros t Ht; apply brought_nothing; intros names nm Hk Hnm.
  exact (augment_complete traits methods t nm Ht Hk Hnm).
Qed.

(** X12: what a controller entry holds.  For every text in which
    [_parse_controller_file] finds a controller: the class name is a run of
    word characters; no method is a constructor or a magic method (no name
    starts with two underscores), whether it was read in the text or brought
    by a trait; every trait is named without its namespace (no backslash);
    and every validation has a field that is a run of word characters and
    rules that are not empty and hold no quote character. *)
Theorem X12_controller_entry (relative_path content : text) (c : Controller) :
  parse_controller_content relative_path content = Some c ->
  word_name (class_name c)
  /\ file_path c = relative_path
  /\ Forall (fun m => startswith (name m) (str "__") = false
                      /\ word_name (name m))
            (methods c)
  /\ Forall (fun t => ~ In 92%N t) (traits c)
  /\ Forall (fun v => word_name (field v)
                      /\ rules v <> []
                      /\ Forall (fun ch => one_of quotes ch = false) (rules v))
            (validations c).
Proof.
  unfold parse_controller_content.
  destruct (search class_pattern content) as [class_match|] eqn:Ec;
    [|discriminate].
  intros H; injection H as <-;
    cbn [class_name file_path methods traits validations].
  split; [|split; [reflexivity|split; [|split]]].
  - apply search_found in Ec.
    apply (@ident_group _ class_pattern 1 class_match Ec); reflexivity.
  - rewrite augment_closed; apply Forall_app; split.
    + eapply Forall_impl; [|apply scanned_methods]; cbv beta; tauto.
    + apply Forall_flat_map, Forall_forall; intros t _; unfold brought.
      destruct (dict_get t known) as [names|] eqn:Ek; [|constructor].
      apply Forall_map, Forall_forall; intros nm Hnm; cbn [trait_method name].
      apply filter_In in Hnm; exact (known_names t nm Ek (proj1 Hnm)).
  - apply Forall_map, Forall_forall; intros m _; unfold trait_name.
    apply last_Forall; [apply split_pieces | intros []].
  - apply Forall_app; split; apply Forall_flat_map, Forall_forall;
      intros vm _; apply rules_of_body_shape.
Qed.

End ControllerClaims.

(** The theorem X12 at a controller with one trait, a constructor and one
    method: the constructor is not listed, the methods of the trait are. *)
Lemma X12_controller_entry_witness :
  @Controllers.parse_controller_content Py.ascii_db
    Samples.verify_controller_path Samples.verify_controller_text
  = Some Samples.verify_controller
  /\ Forall (fun m => Py.startswith (Controllers.name m) (Py.str "__") = false
                      /\ @Shape.word_name Py.ascii_db (Controllers.name m))
            (Controllers.methods Samples.verify_controller).
Proof.
  assert (E : @Controllers.parse_controller_content Py.ascii_db
                Samples.verify_controller_path Samples.verify_controller_text
              = Some Samples.verify_controller) by (vm_compute; reflexivity).
  split; [exact E|].
  exact (proj1 (proj2 (proj2 (@X12_controller_entry Py.ascii_db _ _ _ E)))).
Defined.

(* ================================================================== *)
(** ** Models and the GraphQL endpoint: X13 and X14 *)
(* ================================================================== *)

Module ModelFacts.
Import Py Re Laravel Words Shape WordsFacts MatchFacts ShapeFacts
       MigrationShapeFacts.
Import PyFacts TextFacts ReFacts.

Lemma search_none (r : regex) (s : text) :
  (forall n, match_here r (skipn n s) = None) -> search r s = None.
Proof.
  induction s as [|x s IH]; intros H.
  - pose proof (H 0%nat) as H0; cbn [skipn] in H0; cbn [search]; rewrite H0.
    reflexivity.
  - pose proof (H 0%nat) as H0; cbn [skipn] in H0; cbn [search]; rewrite H0.
    apply IH; intros n; exact (H (S n)).
Qed.

(** A text that does not contain a literal has no match of a pattern that
    begins with it. *)
Lemma search_without_literal (a : text) (r : regex) (s : text) :
  contains s a = false -> search (Seq (seq (List.map Chr a)) r) s = None.
Proof.
  unfold contains, find; change (0 <? 0)%Z with false; cbv iota.
  destruct (Z.of_nat (List.length s) <? 0)%Z eqn:E; [apply Z.ltb_lt in E; lia|].
  change (Z.to_nat 0) with 0%nat; cbn [skipn].
  rewrite negb_false_iff, Z.eqb_eq; intros H.
  apply search_none; intros n.
  destruct (match_here _ (skipn n s)) as [m|] eqn:Em; [|reflexivity].
  apply match_here_literal in Em.
  rewrite (find_at_none a s (pos := 0%Z)) in Em by (lia || exact H).
  discriminate.
Qed.

End ModelFacts.

Section ModelClaims.
Import Py Re Laravel Words Shape WordsFacts MatchFacts ShapeFacts
       MigrationShapeFacts ModelFacts.
Import PyFacts TextFacts ReFacts.
Context {U : UnicodeDB}.

(** X13: what a model entry holds.  For every text in which
    [_parse_model_file] finds a model: the class name is a run of word
    characters, and so is the table name when there is one; every relation
    that [_extract_relations] finds has one of the four types [belongsTo],
    [hasMany], [hasOne] and [belongsToMany], and names its method and its
    related model with runs of word characters. *)
Theorem X13_model_entry (relative_path content : text) (m : Models.Model) :
  Models.parse_model_content relative_path content = Some m ->
  word_name (Models.class_name m)
  /\ Models.file_path m = relative_path
  /\ (forall t, Models.table_name m = Some t -> word_name t)
  /\ Models.relations m = Models._extract_relations content
  /\ Forall
       (fun r =>
          word_name (Models.method r)
          /\ In (Models.type r)
                (List.map str
                   ["belongsTo"; "hasMany"; "hasOne"; "belongsToMany"]%string)
          /\ word_name (Models.related_model r))
       (Models._extract_relations content).
Proof.
  unfold Models.parse_model_content.
  destruct (search Models.class_pattern content) as [class_match|] eqn:Ec;
    [|discriminate].
  intros H; injection H as <-;
    cbn [Models.class_name Models.file_path Models.table_name Models.relations].
  split; [|split; [reflexivity|split; [|split; [reflexivity|]]]].
  - apply search_found in Ec.
    apply (@ident_group _ Models.class_pattern 1 class_match Ec); reflexivity.
  - intros t; destruct (search Models.table_pattern content) as [tm|] eqn:Et;
      cbn [group1_opt option_map]; [|discriminate].
    intros H; injection H as <-; apply search_found in Et.
    apply (@ident_group _ Models.table_pattern 1 tm Et); reflexivity.
  - unfold Models._extract_relations; apply Forall_map_found; intros rm Hf.
    cbn [Models.method Models.type Models.related_model].
    split; [apply (@ident_group _ Models.relation_pattern 1 rm Hf); reflexivity|].
    split; [|apply (@ident_group _ Models.relation_pattern 3 rm Hf); reflexivity].
    apply (@matches_alts_lit
             ["belongsTo"; "hasMany"; "hasOne"; "belongsToMany"]%string).
    apply (@group_str_matches Models.relation_pattern _ 2 rm Hf); reflexivity.
Qed.

(** X14: the GraphQL endpoint.  Without a configuration file the endpoint
    is [/graphql]; with one, [parse_graphql_endpoint] returns an endpoint
    that is not empty and holds no quote character, or raises
    [UnicodeDecodeError] when the file is not UTF-8; and a configuration
    that does not hold the key ['route'] gives [/graphql]. *)
Theorem X14_graphql_endpoint :
  GraphQL.parse_graphql_endpoint None = Ok (str "/graphql")
  /\ (forall f : file,
         match GraphQL.parse_graphql_endpoint (Some f) with
         | Ok e => e <> [] /\ Forall (fun c => one_of quotes c = false) e
         | Raise x => x = UnicodeDecodeError /\ read_text f = Raise x
         end)
  /\ (forall (f : file) (content : text),
         read_text f = Ok content ->
         contains content (str "'route'") = false ->
         GraphQL.parse_graphql_endpoint (Some f) = Ok (str "/graphql")).
Proof.
  split; [reflexivity|]; split.
  - intros f; unfold GraphQL.parse_graphql_endpoint.
    destruct (read_text f) as [content|x] eqn:Er; cbn [bind].
    + destruct (search GraphQL.endpoint_pattern content) as [m|] eqn:Em.
      * apply search_found in Em; apply none_of_word.
        apply (@group_str_matches GraphQL.endpoint_pattern _ 1 m Em); reflexivity.
      * split; [discriminate | repeat constructor].
    + split; [|reflexivity].
      unfold read_text in Er; destruct (utf8_decode _); [discriminate|].
      injection Er as <-; reflexivity.
  - intros f content Er Hc; unfold GraphQL.parse_graphql_endpoint.
    rewrite Er; cbn [bind].
    change GraphQL.endpoint_pattern
      with (Seq (seq (List.map Chr (str "'route'")))
                (seq [ws; lit "=>"; ws; quote; Grp 1 (plus (none_of quotes));
                      quote])).
    rewrite (search_without_literal _ _ _ Hc); reflexivity.
Qed.

End ModelClaims.

(** The theorem X13 at a model with a table and one relation. *)
Lemma X13_model_entry_witness :
  @Models.parse_model_content Py.ascii_db
    Samples.post_model_path Samples.post_model_text
  = Some Samples.post_model
  /\ @Shape.word_name Py.ascii_db (Models.class_name Samples.post_model)
  /\ Models.relations Samples.post_model
     = @Models._extract_relations Py.ascii_db Samples.post_model_text.
Proof.
  assert (E : @Models.parse_model_content Py.ascii_db
                Samples.post_model_path Samples.post_model_text
              = Some Samples.post_model) by (vm_compute; reflexivity).
  split; [exact E|].
  pose proof (@X13_model_entry Py.ascii_db _ _ _ E) as (H1 & _ & _ & H4 & _).
  split; [exact H1 | exact H4].
Defined.

(** The theorem X14 at a configuration without the key. *)
Lemma X14_graphql_endpoint_witness :
  @GraphQL.parse_graphql_endpoint Py.ascii_db
    (Some (Py.bytes Samples.lighthouse_plain))
  = Py.Ok (Py.str "/graphql").
Proof.
  apply (proj2 (proj2 (@X14_graphql_endpoint Py.ascii_db))
           (Py.bytes Samples.lighthouse_plain)
           (Py.str Samples.lighthouse_plain));
    vm_compute; reflexivity.
Defined.

(* ================================================================== *)
(** ** The Notion exporter: X15 and X16 *)
(* ================================================================== *)

Module NotionFacts.
Import Py Notion Shape.
Import PyFacts TextFacts.

(** *** Chunks of a hundred *)

Lemma slice_chunk {A} (l : list A) (p : Z) :
  (0 <= p)%Z ->
  slice l p (p + 100) = firstn 100 (skipn (Z.to_nat p) l).
Proof.
  intros Hp; unfold slice, clamp.
  destruct (p <? 0)%Z eqn:E1; [apply Z.ltb_lt in E1; lia|].
  destruct (p + 100 <? 0)%Z eqn:E2; [apply Z.ltb_lt in E2; lia|].
  set (n := Z.of_nat (List.length l)).
  destruct (Z.le_gt_cases n p) as [H|H].
  - rewrite (Z.min_r p n) by lia.
    replace (Z.to_nat n) with (List.length l) by (unfold n; lia).
    rewrite !skipn_all2 by lia; rewrite !firstn_nil; reflexivity.
  - rewrite (Z.min_l p n) by lia.
    destruct (Z.le_gt_cases (p + 100) n) as [H'|H'].
    + rewrite (Z.min_l (p + 100) n) by lia.
      replace (Z.to_nat (p + 100 - p)) with 100%nat by lia; reflexivity.
    + rewrite (Z.min_r (p + 100) n) by lia.
      rewrite !firstn_all2; [reflexivity | |]; rewrite length_skipn;
        unfold n in *; lia.
Qed.

Lemma chunks_from {A} (l : list A) (fuel : nat) :
  forall p : Z,
    (0 <= p)%Z ->
    (Z.of_nat (List.length l) - p <= Z.of_nat fuel)%Z ->
    let chunks :=
      List.map (fun i => slice l i (i + 100))
               (range_from fuel p (Z.of_nat (List.length l)) 100) in
    List.concat chunks = skipn (Z.to_nat p) l
    /\ Forall (fun ch => ch <> [] /\ (List.length ch <= 100)%nat) chunks.
Proof.
  induction fuel as [|fuel IH]; intros p Hp Hf; cbn [range_from List.map].
  - cbn [List.concat]; split; [|constructor].
    rewrite skipn_all2 by lia; reflexivity.
  - destruct (p <? Z.of_nat (List.length l))%Z eqn:E.
    + apply Z.ltb_lt in E; cbn [List.map List.concat].
      destruct (IH (p + 100)%Z) as [Hc Hall]; [lia | lia |].
      cbv zeta in Hc, Hall; rewrite Hc, slice_chunk by exact Hp; split.
      * replace (Z.to_nat (p + 100)) with (100 + Z.to_nat p)%nat by lia.
        rewrite <- skipn_skipn; apply firstn_skipn.
      * constructor; [|exact Hall]; split; [|apply firstn_le_length].
        intros H; apply (f_equal (@List.length A)) in H.
        rewrite length_firstn, length_skipn in H; cbn [List.length] in H; lia.
    + apply Z.ltb_ge in E; cbn [List.map List.concat]; split; [|constructor].
      rewrite skipn_all2 by lia; reflexivity.
Qed.

(** *** Lines *)

Lemma startswith_skipn (s p : text) :
  startswith s p = true -> s = p ++ skipn (List.length p) s.
Proof.
  revert s; induction p as [|y p IH]; intros s; [reflexivity|].
  destruct s as [|x s]; cbn [startswith]; [discriminate|].
  rewrite andb_true_iff, N.eqb_eq; intros [-> H]; cbn [List.length skipn app].
  rewrite <- (IH s H); reflexivity.
Qed.

Lemma slice_from {A} (l : list A) (k : nat) :
  slice l (Z.of_nat k) (Z.of_nat (List.length l)) = skipn k l.
Proof.
  unfold slice, clamp.
  destruct (Z.of_nat k <? 0)%Z eqn:E1; [apply Z.ltb_lt in E1; lia|].
  destruct (Z.of_nat (List.length l) <? 0)%Z eqn:E2; [apply Z.ltb_lt in E2; lia|].
  rewrite Z.min_id.
  destruct (Nat.le_gt_cases (List.length l) k) as [H|H].
  - rewrite Z.min_r by lia; rewrite Nat2Z.id, !skipn_all2 by lia.
    apply firstn_nil.
  - rewrite Z.min_l by lia; rewrite Nat2Z.id.
    apply firstn_all2; rewrite length_skipn; lia.
Qed.

Lemma splitlines_line (l rest : text) :
  Forall (fun c => is_linebreak c = false) l ->
  splitlines (l ++ 10%N :: rest) = l :: splitlines rest.
Proof.
  induction 1 as [|c l Hc _ IH]; cbn [app splitlines].
  - change (is_linebreak 10%N) with true; cbv iota.
    destruct rest as [|d rest]; reflexivity.
  - rewrite Hc, IH; reflexivity.
Qed.

Lemma splitlines_last (l : text) :
  Forall (fun c => is_linebreak c = false) l ->
  splitlines l = match l with [] => [] | _ :: _ => [l] end.
Proof.
  induction 1 as [|c l Hc Hl IH]; [reflexivity|].
  cbn [splitlines]; rewrite Hc, IH; destruct l; reflexivity.
Qed.

End NotionFacts.

Section NotionClaims.
Import Py Notion Shape NotionFacts.
Import PyFacts TextFacts.
Context {U : UnicodeDB}.

(** X15: the requests of an upload.  [upload_markdown] first creates the
    page, with the first blocks of the document, and then appends the rest:
    no request carries more than a hundred blocks, no request that appends
    is empty, and the blocks of the requests, taken in order, are the blocks
    of the document, none lost, none repeated. *)
Theorem X15_upload_in_chunks (markdown parent_page_id title page_id : text) :
  exists (first : list Block) (rest : list call),
    upload_markdown markdown parent_page_id title page_id
    = pages_create parent_page_id title first :: rest
    /\ Forall (fun c => exists chunk,
                   c = children_append page_id chunk /\ chunk <> [])
              rest
    /\ Forall (fun c => (List.length (children_of c) <= 100)%nat)
              (upload_markdown markdown parent_page_id title page_id)
    /\ List.concat
         (List.map children_of
            (upload_markdown markdown parent_page_id title page_id))
       = markdown_to_blocks markdown.
Proof.
  unfold upload_markdown; set (blocks := markdown_to_blocks markdown).
  destruct (@chunks_from _ blocks
              (Z.to_nat (Z.of_nat (List.length blocks) - 100)) 100%Z)
    as [Hc Hall]; [lia | lia |].
  cbv zeta in Hc, Hall; fold (range 100 (Z.of_nat (List.length blocks)) 100) in Hc, Hall.
  assert (Es : slice_to blocks 100 = firstn 100 blocks)
    by (change 100%Z with (Z.of_nat 100); apply slice_to_firstn).
  eexists; eexists; split; [reflexivity|].
  rewrite Es; split; [|split].
  - apply Forall_map; rewrite Forall_map in Hall.
    eapply Forall_impl; [|exact Hall]; cbv beta; intros i [Hne _].
    eexists; split; [reflexivity | exact Hne].
  - constructor; [apply firstn_le_length|].
    apply Forall_map; rewrite Forall_map in Hall.
    eapply Forall_impl; [|exact Hall]; cbv beta; intros i [_ Hle]; exact Hle.
  - cbn [List.map children_of List.concat]; rewrite map_map.
    cbn [children_of]; rewrite Hc.
    apply firstn_skipn.
Qed.

(** X16: lines and blocks.  A line gives no block exactly when it is blank;
    otherwise the marker of the type of its block, followed by the content of
    the block, is the line without its trailing blanks, so nothing else of
    the line is lost.  Lines that hold no line end and are joined with line
    feeds, as the generator of the Markdown joins them, give the blocks of
    the first line, then those of the second, and so on. *)
Theorem X16_lines_and_blocks :
  (forall line : text,
      (_line_to_block line = None <-> rstrip_by isspace line = [])
      /\ (forall b, _line_to_block line = Some b ->
                    marker (type b) ++ content b = rstrip_by isspace line))
  /\ (forall lines : list text,
         Forall (Forall (fun c => is_linebreak c = false)) lines ->
         markdown_to_blocks (join [10%N] lines)
         = flat_map blocks_of_line lines).
Proof.
  split.
  - intros line; unfold _line_to_block.
    set (l := rstrip_by isspace line).
    destruct l as [|c l'] eqn:El; cbn [truthy negb];
      [split; [tauto | discriminate]|].
    rewrite <- El.
    assert (Hm : forall (p : string) ty,
               startswith l (str p) = true ->
               marker ty = str p ->
               marker ty
               ++ slice l (Z.of_nat (List.length (str p)))
                        (Z.of_nat (List.length l)) = l).
    { intros p ty Hs ->; rewrite slice_from; symmetry.
      apply startswith_skipn, Hs. }
    split; [split; [|rewrite El; discriminate]|].
    + repeat match goal with
             | |- context [if startswith l ?p then _ else _] =>
                 destruct (startswith l p)
             end; discriminate.
    + intros b.
      destruct (startswith l (str "### ")) eqn:E3;
        [intros H; injection H as <-; apply (Hm "### "%string heading_3 E3 eq_refl)|].
      destruct (startswith l (str "## ")) eqn:E2;
        [intros H; injection H as <-; apply (Hm "## "%string heading_2 E2 eq_refl)|].
      destruct (startswith l (str "# ")) eqn:E1;
        [intros H; injection H as <-; apply (Hm "# "%string heading_1 E1 eq_refl)|].
      destruct (startswith l (str "- ")) eqn:E0;
        [intros H; injection H as <-;
         apply (Hm "- "%string bulleted_list_item E0 eq_refl)|].
      intros H; injection H as <-; reflexivity.
  - intros lines H; unfold markdown_to_blocks.
    fold blocks_of_line.
    change (fun raw_line : text =>
              match _line_to_block raw_line with
              | Some block => [block]
              | None => []
              end) with blocks_of_line.
    induction H as [|l ls Hl Hls IH]; [reflexivity|].
    destruct ls as [|l2 ls].
    + cbn [join flat_map]; rewrite splitlines_last by exact Hl.
      destruct l; [reflexivity | cbn [flat_map]; reflexivity].
    + change (join [10%N] (l :: l2 :: ls))
        with (l ++ 10%N :: join [10%N] (l2 :: ls)).
      rewrite splitlines_line by exact Hl.
      cbn [flat_map]; rewrite IH; reflexivity.
Qed.

End NotionClaims.

(* ================================================================== *)
(** ** From the files to the result: X17 to X21 *)
(* ================================================================== *)

Module PipelineFacts.
Import Py Re Laravel Spec Model Words Shape WordsFacts MatchFacts ShapeFacts
       MigrationShapeFacts OriginFacts.
Import PyFacts DictFacts OrderFacts ColumnFacts TextFacts.

Section Documents.
Context {U : UnicodeDB}.

(** The documents read from files hold the blocks of the text of a file. *)
Lemma read_documents_parsed (migration_files : list (text * file))
      (docs : list Document) :
  read_documents migration_files = Ok docs ->
  Forall (fun d => exists content, snd d = parse_migration_content content) docs.
Proof.
  unfold read_documents; intros H; apply for_each_Ok in H.
  induction H as [|mf d fs ds Hd _ IH]; constructor; [|exact IH].
  unfold _parse_migration_file in Hd.
  destruct (read_text (snd mf)) as [content|e]; cbn [bind] in Hd; [|discriminate].
  injection Hd as <-; exists content; reflexivity.
Qed.

Lemma parsed_block (content t : text) (ops : list Op) :
  In (t, ops) (parse_migration_content content) ->
  word_name t /\ Forall well_formed ops.
Proof.
  intros H; split.
  - pose proof (table_name_word content) as Hall; rewrite Forall_forall in Hall.
    exact (Hall _ H).
  - unfold parse_migration_content in H; apply in_map_iff in H.
    destruct H as [m [E _]]; injection E as _ <-; apply ops_of_body_well_formed.
Qed.

Lemma parsed_table_ops (docs : list Document) (t : text) (op : Op) :
  Forall (fun d => exists content, snd d = parse_migration_content content) docs ->
  In op (table_ops t docs) -> word_name t /\ well_formed op.
Proof.
  intros Hdocs Hop; apply In_table_ops in Hop.
  destruct Hop as [d [ops (Hd & Hb & Hop)]].
  rewrite Forall_forall in Hdocs; destruct (Hdocs d Hd) as [content Ec].
  rewrite Ec in Hb; apply parsed_block in Hb; destruct Hb as [Ht Hops].
  rewrite Forall_forall in Hops; split; [exact Ht | apply Hops, Hop].
Qed.

Lemma parsed_touched (docs : list Document) (t : text) :
  Forall (fun d => exists content, snd d = parse_migration_content content) docs ->
  In t (touched docs) -> word_name t.
Proof.
  intros Hdocs Ht; apply In_touched in Ht; destruct Ht as [b [Hb <-]].
  apply In_live_blocks in Hb; destruct Hb as [d (Hd & _ & Hin & _)].
  rewrite Forall_forall in Hdocs; destruct (Hdocs d Hd) as [content Ec].
  rewrite Ec in Hin; destruct b as [f [t ops]]; cbn [snd block_table fst] in *.
  apply (parsed_block content t ops Hin).
Qed.

(** *** The loop of [parse_routes] *)

Lemma route_step_raise (files : list (text * file)) (e : exn) :
  fold_left route_step files (Raise e) = Raise e.
Proof. induction files as [|f fs IH]; [reflexivity | exact IH]. Qed.

Lemma routes_in_file_read (f : file) :
  routes_in_file f
  = match read_text f with
    | Ok content =>
        Ok (parse_route_content content ++ _parse_routes_with_groups content)
    | Raise e => Raise e
    end.
Proof.
  unfold routes_in_file, _parse_route_file.
  destruct (read_text f); reflexivity.
Qed.

Lemma read_text_raises_only (f : file) (e : exn) :
  read_text f = Raise e -> e = UnicodeDecodeError.
Proof.
  unfold read_text; destruct (utf8_decode _); [discriminate|].
  intros H; injection H as <-; reflexivity.
Qed.

Lemma route_fold_ok (files : list (text * file)) :
  forall (contents : list text) (d0 : dict (list Route)),
    Forall2 (fun entry content => read_text (snd entry) = Ok content)
            files contents ->
    NoDup (keys d0 ++ List.map fst files) ->
    fold_left route_step files (Ok d0)
    = Ok (d0 ++ List.map
                  (fun ec =>
                     (fst (fst ec),
                      parse_route_content (snd ec)
                      ++ _parse_routes_with_groups (snd ec)))
                  (combine files contents)).
Proof.
  induction files as [|[stem f] files IH]; intros contents d0 H Hnd;
    inversion H as [|? c ? cs Hr Hrest]; subst; cbn [fold_left combine List.map].
  - rewrite app_nil_r; reflexivity.
  - cbn [fst snd] in *; unfold route_step at 2; cbn [bind fst snd].
    rewrite routes_in_file_read, Hr; cbn [bind].
    cbn [List.map fst app] in Hnd.
    assert (Hk : ~ In stem (keys d0)).
    { apply NoDup_remove_2 in Hnd; intros Hin; apply Hnd, in_or_app; left.
      exact Hin. }
    rewrite dict_set_absent by exact Hk.
    rewrite IH with (contents := cs); [rewrite <- app_assoc; reflexivity | exact Hrest|].
    unfold keys in *; rewrite map_app; cbn [List.map fst].
    rewrite <- app_assoc; cbn [app].
    eapply Permutation_NoDup; [|exact Hnd].
    apply Permutation_refl.
Qed.

Lemma route_fold_raise (files : list (text * file)) :
  forall d0 : dict (list Route),
    Exists (fun entry => exists e, read_text (snd entry) = Raise e) files ->
    fold_left route_step files (Ok d0) = Raise UnicodeDecodeError.
Proof.
  induction files as [|[stem f] files IH]; intros d0 H; [inversion H|].
  cbn [fold_left]; unfold route_step at 2; cbn [bind fst snd].
  rewrite routes_in_file_read.
  destruct (read_text f) as [content|e] eqn:Er; cbn [bind].
  - apply IH; inversion H as [? ? [e He]|]; subst; [|assumption].
    cbn [snd] in He; congruence.
  - rewrite (read_text_raises_only _ Er); apply route_step_raise.
Qed.

(** *** The action of a route *)

Lemma class_chars (w : text) :
  matches (plus class_name_char) w ->
  w <> [] /\ Forall (fun c => isword c || (c =? 92)%N = true) w.
Proof. apply matches_plus_cls. Qed.

End Documents.

(** *** Fences *)

Lemma rfind_at_none (sub s : text) (pos last : Z) :
  (forall n, startswith (skipn n s) sub = false) ->
  rfind_at sub s pos last = last.
Proof.
  revert pos; induction s as [|x s IH]; intros pos H; cbn [rfind_at].
  - pose proof (H 0%nat) as H0; cbn [skipn] in H0; rewrite H0; reflexivity.
  - pose proof (H 0%nat) as H0; cbn [skipn] in H0; rewrite H0.
    apply IH; intros n; exact (H (S n)).
Qed.

Lemma contains_false (s sub : text) :
  contains s sub = false -> forall n, startswith (skipn n s) sub = false.
Proof.
  unfold contains, find; change (0 <? 0)%Z with false; cbv iota.
  destruct (Z.of_nat (List.length s) <? 0)%Z eqn:E; [apply Z.ltb_lt in E; lia|].
  change (Z.to_nat 0) with 0%nat; cbn [skipn].
  rewrite negb_false_iff, Z.eqb_eq; intros H.
  apply (ReFacts.find_at_none sub s (pos := 0%Z)); [lia | exact H].
Qed.

Lemma slice_empty {A} (l : list A) (i j : Z) :
  (0 <= j <= i)%Z -> slice l i j = [].
Proof.
  intros H; unfold slice, clamp.
  destruct (i <? 0)%Z eqn:E1; [apply Z.ltb_lt in E1; lia|].
  destruct (j <? 0)%Z eqn:E2; [apply Z.ltb_lt in E2; lia|].
  replace (Z.to_nat _) with 0%nat by lia; reflexivity.
Qed.

End PipelineFacts.

Section PipelineClaims.
Import Py Re Laravel Spec Model Words Shape WordsFacts MatchFacts ShapeFacts
       MigrationShapeFacts OriginFacts PipelineFacts.
Import PyFacts DictFacts OrderFacts ColumnFacts TextFacts.
Context {U : UnicodeDB}.

(** X17: the tables of a project.  In every result that [parse_migrations]
    returns for the files of a directory, every table, every column, every
    index and every foreign key is named with a run of word characters that
    is not empty, and every column and every index has a type that is not
    empty. *)
Theorem X17_parsed_schema_is_named
        (migration_files : list (text * file)) (out : list TableSchema) :
  parse_migrations (Some migration_files) = Ok out ->
  Forall
    (fun r =>
       word_name (table_name r)
       /\ Forall (fun col => word_name (col_name col) /\ col_type col <> [])
                 (columns r)
       /\ Forall (fun i => word_name (idx_column i) /\ idx_type i <> [])
                 (indexes r)
       /\ Forall (fun k => word_name (fk_column k)) (foreign_keys r))
    out.
Proof.
  unfold parse_migrations.
  destruct (read_documents migration_files) as [docs|e] eqn:Ed; cbn [bind];
    [|discriminate].
  intros H; injection H as <-; apply read_documents_parsed in Ed.
  apply Forall_forall; intros r Hr; apply In_reconstruct in Hr.
  destruct Hr as [Ht Er].
  assert (Hops : forall op, In op (table_ops (table_name r) docs) ->
                            well_formed op)
    by (intros op Hop; exact (proj2 (@parsed_table_ops _ docs _ op Ed Hop))).
  split; [exact (@parsed_touched _ docs _ Ed Ht)|].
  rewrite (f_equal columns Er), (f_equal indexes Er), (f_equal foreign_keys Er).
  cbn [indexes foreign_keys table_entry].
  split; [|split].
  - apply Forall_forall; intros col Hcol.
    apply column_origin in Hcol.
    destruct Hcol as [op (Hop & _ & <- & <-)].
    destruct (Hops op Hop) as (_ & Hn & Hty); split; assumption.
  - unfold declared_indexes; apply Forall_map, Forall_forall; intros op Hop.
    apply filter_In in Hop; destruct Hop as [Hop _].
    destruct (Hops op Hop) as (_ & Hn & Hty); split; assumption.
  - unfold declared_foreign_keys; apply Forall_map, Forall_forall; intros op Hop.
    apply filter_In in Hop; destruct Hop as [Hop _].
    destruct (Hops op Hop) as (_ & Hn & _); exact Hn.
Qed.

(** X18: all the route files or none.  When every file of the routes
    directory is UTF-8, [parse_routes] returns one entry per file, in the
    order of the files, under the stem of the file, with the routes found
    outside groups followed by those found in groups; a file without a
    route has an entry with an empty list.  When one file is not UTF-8,
    [parse_routes] raises [UnicodeDecodeError] and returns no entry at
    all. *)
Theorem X18_all_route_files_or_none (files : list (text * file)) :
  (forall contents : list text,
      Forall2 (fun entry content => read_text (snd entry) = Ok content)
              files contents ->
      NoDup (List.map fst files) ->
      parse_routes (Some files)
      = Ok (List.map
              (fun ec =>
                 (fst (fst ec),
                  parse_route_content (snd ec)
                  ++ _parse_routes_with_groups (snd ec)))
              (combine files contents)))
  /\ (Exists (fun entry => exists e, read_text (snd entry) = Raise e) files ->
      parse_routes (Some files) = Raise UnicodeDecodeError).
Proof.
  split.
  - intros contents H Hnd.
    exact (@route_fold_ok _ files contents [] H Hnd).
  - intros H; exact (@route_fold_raise _ files [] H).
Qed.

(** X19: the action of a route.  [_normalize_route_action] returns the name
    of a class, an at sign and the name of a method, or, when the text holds
    neither form of a call, the text as it is. *)
Theorem X19_normalized_action (action : text) :
  (exists cls meth,
      _normalize_route_action action = cls ++ str "@" ++ meth
      /\ cls <> []
      /\ Forall (fun c => isword c || (c =? 92)%N = true) cls
      /\ word_name meth)
  \/ (_normalize_route_action action = action
      /\ search class_call_pattern action = None
      /\ search at_call_pattern action = None).
Proof.
  unfold _normalize_route_action.
  destruct (search class_call_pattern action) as [cm|] eqn:Ec.
  - left; apply search_found in Ec.
    exists (group_str cm 1), (group_str cm 2); split; [reflexivity|].
    assert (H1 : matches (plus class_name_char) (group_str cm 1))
      by (apply (@group_str_matches class_call_pattern _ 1 cm Ec); reflexivity).
    apply class_chars in H1; destruct H1 as [H1 H1'].
    split; [exact H1|split; [exact H1'|]].
    apply (@ident_group _ class_call_pattern 2 cm Ec); reflexivity.
  - destruct (search at_call_pattern action) as [am|] eqn:Ea;
      [|right; auto].
    left; apply search_found in Ea.
    assert (H1 : matches (seq [plus class_name_char; lit "@"; ident])
                         (group_str am 1))
      by (apply (@group_str_matches at_call_pattern _ 1 am Ea); reflexivity).
    destruct H1 as (w1 & r1 & E1 & Hw1 & w2 & r2 & -> & Hw2 & w3 & r3 & -> & Hw3 & ->).
    apply matches_lit in Hw2; subst w2.
    exists w1, w3; rewrite E1, app_nil_r.
    apply class_chars in Hw1; destruct Hw1 as [Hw1 Hw1'].
    split; [reflexivity|split; [exact Hw1|split; [exact Hw1'|]]].
    apply matches_plus_cls, Hw3.
Qed.

End PipelineClaims.

Section LastClaims.
Import Py Re Laravel Spec Model Json PipelineFacts.
Import PyFacts DictFacts SortFacts TextFacts JsonFacts.
Context {U : UnicodeDB}.

(** X20: the order in which the directory yields the files.  The files of
    the migrations directory are processed in the order of their names:
    when the names are distinct, [parse_migrations] returns the same result,
    or raises the same exception, whatever the order in which the directory
    lists them. *)
Theorem X20_order_of_the_listing (files files' : list (text * file)) :
  Permutation files files' ->
  NoDup (List.map fst files) ->
  parse_migrations (Some files) = parse_migrations (Some files').
Proof.
  intros HP Hnd; unfold parse_migrations, read_documents.
  rewrite (sort_by_perm fst HP Hnd); reflexivity.
Qed.

(** X21: fences that are not closed.  When the response opens a block
    fenced with the tag [json] and holds no other fence, [AIBackend] hands
    the empty text to [json.loads]: the closing fence it looks for is the
    opening one.  A response that starts with a fence and holds no line feed
    also leaves the empty text.  And [AIClient] drops the last line of a
    response that starts with a fence whatever that line holds, a closing
    fence or the last line of the value. *)
Theorem X21_fences_left_open :
  (forall body : text,
      contains body fence = false ->
      AIBackend.payload (fence_json ++ body) = [])
  /\ (forall t : text,
         startswith t fence = true -> ~ In 10%N t ->
         AIClient.payload t = [])
  /\ (forall tag body last : text,
         ~ In 10%N tag -> ~ In 10%N last ->
         AIClient.payload (fence ++ tag ++ newline ++ body ++ newline ++ last)
         = body).
Proof.
  split; [|split].
  - intros body Hb; unfold AIBackend.payload.
    rewrite contains_prefix, find_prefix.
    assert (Er : rfind (fence_json ++ body) fence = 0%Z).
    { unfold rfind, fence_json, fence.
      change (str "```json" ++ body)
        with (96 :: 96 :: 96 :: 106 :: 115 :: 111 :: 110 :: body)%N.
      change (str "```") with [96; 96; 96]%N.
      cbn [rfind_at startswith N.eqb Pos.eqb andb Z.add Pos.add Pos.succ].
      apply rfind_at_none, contains_false, Hb. }
    rewrite Er, slice_empty by lia; reflexivity.
  - intros t Hs Hn; unfold AIClient.payload, drop_fence_lines; rewrite Hs.
    rewrite (split_no_sep _ _ Hn); reflexivity.
  - intros tag body last Htag Hlast; unfold AIClient.payload.
    rewrite startswith_app; unfold drop_fence_lines, newline.
    change (fence ++ tag ++ [10%N] ++ body ++ [10%N] ++ last)
      with ((fence ++ tag) ++ 10%N :: (body ++ 10%N :: last)).
    rewrite !split_app.
    assert (Hhead : ~ In 10%N (fence ++ tag)).
    { intros H; apply in_app_or in H; destruct H as [H|H];
        [exact (fence_no_newline H) | exact (Htag H)]. }
    rewrite (split_no_sep _ _ Hhead), (split_no_sep _ _ Hlast).
    cbn [app]; rewrite slice_inner; apply join_split.
Qed.

End LastClaims.

(* ================================================================== *)
(** ** The section of a migration that is analysed: X22 *)
(* ================================================================== *)

Module SectionFacts.
Import Py Laravel.
Import PyFacts TextFacts NotionFacts.

(** Where [find_at] finds a text: at the first place where it starts. *)
Lemma find_at_found (sub s : text) :
  forall pos r : Z,
    (0 <= pos)%Z -> find_at sub s pos = r -> r <> (-1)%Z ->
    exists k : nat,
      r = (pos + Z.of_nat k)%Z
      /\ (k <= List.length s)%nat
      /\ startswith (skipn k s) sub = true
      /\ forall j, (j < k)%nat -> startswith (skipn j s) sub = false.
Proof.
  induction s as [|x s IH]; intros pos r Hpos H Hr; cbn [find_at] in H.
  - destruct (startswith [] sub) eqn:E; [|congruence].
    exists 0%nat; repeat split; [lia | lia | exact E | intros j Hj; lia].
  - destruct (startswith (x :: s) sub) eqn:E.
    + exists 0%nat; repeat split; [lia | cbn [List.length]; lia | exact E |].
      intros j Hj; lia.
    + destruct (IH (pos + 1)%Z r) as (k & -> & Hk & Hs & Hmin); [lia|exact H|exact Hr|].
      exists (S k); repeat split; [lia | cbn [List.length]; lia | exact Hs |].
      intros [|j] Hj; [exact E | apply Hmin; lia].
Qed.

Lemma find_at_absent (sub s : text) :
  forall pos : Z,
    (forall j, startswith (skipn j s) sub = false) ->
    find_at sub s pos = (-1)%Z.
Proof.
  induction s as [|x s IH]; intros pos H; cbn [find_at].
  - pose proof (H 0%nat) as H0; cbn [skipn] in H0; rewrite H0; reflexivity.
  - pose proof (H 0%nat) as H0; cbn [skipn] in H0; rewrite H0.
    apply IH; intros j; exact (H (S j)).
Qed.

Lemma startswith_length (s p : text) :
  startswith s p = true -> (List.length p <= List.length s)%nat.
Proof.
  revert s; induction p as [|y p IH]; intros [|x s]; cbn [startswith List.length];
    try lia; try discriminate.
  rewrite andb_true_iff; intros [_ H]; apply IH in H; lia.
Qed.

Lemma startswith_firstn (s p : text) (n : nat) :
  startswith (firstn n s) p = true ->
  startswith s p = true /\ (List.length p <= n)%nat.
Proof.
  revert s n; induction p as [|y p IH]; intros s n H.
  - split; [apply startswith_nil | cbn; lia].
  - destruct n as [|n]; [rewrite firstn_O in H; discriminate H|].
    destruct s as [|x s]; [discriminate H|].
    cbn [firstn startswith] in H |- *; apply andb_true_iff in H.
    destruct H as [Hx H]; apply IH in H; destruct H as [H Hn].
    rewrite Hx, H; split; [reflexivity | cbn [List.length]; lia].
Qed.

Lemma find_from (s sub : text) (start : Z) :
  (0 <= start <= Z.of_nat (List.length s))%Z ->
  find s sub start = find_at sub (skipn (Z.to_nat start) s) start.
Proof.
  intros H; unfold find.
  destruct (start <? 0)%Z eqn:E1; [apply Z.ltb_lt in E1; lia|].
  destruct (Z.of_nat (List.length s) <? start)%Z eqn:E2;
    [apply Z.ltb_lt in E2; lia | reflexivity].
Qed.

Lemma find_beyond (s sub : text) (start : Z) :
  (Z.of_nat (List.length s) < start)%Z -> find s sub start = (-1)%Z.
Proof.
  intros H; unfold find.
  destruct (start <? 0)%Z eqn:E1; [apply Z.ltb_lt in E1; lia|].
  destruct (Z.of_nat (List.length s) <? start)%Z eqn:E2;
    [reflexivity | apply Z.ltb_ge in E2; lia].
Qed.

Lemma slice_between {A} (l : list A) (i k : nat) :
  (i + k <= List.length l)%nat ->
  slice l (Z.of_nat i) (Z.of_nat i + Z.of_nat k) = firstn k (skipn i l).
Proof.
  intros H; unfold slice, clamp.
  destruct (Z.of_nat i <? 0)%Z eqn:E1; [apply Z.ltb_lt in E1; lia|].
  destruct (Z.of_nat i + Z.of_nat k <? 0)%Z eqn:E2; [apply Z.ltb_lt in E2; lia|].
  rewrite !Z.min_l by lia.
  replace (Z.to_nat (Z.of_nat i + Z.of_nat k - Z.of_nat i)) with k by lia.
  rewrite Nat2Z.id; reflexivity.
Qed.

(** After [function up], no [function down] starts before its eleven
    characters are over. *)
Lemma down_after_up (rest : text) (k : nat) :
  startswith (skipn k (str "function up" ++ rest)) (str "function down") = true ->
  (11 <= k)%nat.
Proof.
  intros H.
  do 11 (destruct k as [|k]; [discriminate H|]); lia.
Qed.

End SectionFacts.

Section SectionClaims.
Import Py Laravel SectionFacts.
Import PyFacts TextFacts NotionFacts.
Context {U : UnicodeDB}.

(** X22: the text that is analysed.  Let [up] be the place of the first
    [function up] and [down] the place of the first [function down] at or
    after it.  When one of them is not found, the whole text of the migration
    is analysed.  When both are found, the text analysed is the text from
    [up] up to [down]: it starts with [function up], it is followed in the
    file by [function down], and it holds no [function down], so nothing of
    the section that reverts the migration is analysed. *)
Theorem X22_the_text_analysed (content : text) :
  let up_start := find content (str "function up") 0 in
  let down_start :=
    find content (str "function down")
         (if negb (up_start =? -1)%Z then up_start else 0%Z) in
  (up_start = (-1)%Z \/ down_start = (-1)%Z -> apply_section content = content)
  /\ (up_start <> (-1)%Z -> down_start <> (-1)%Z ->
      startswith (apply_section content) (str "function up") = true
      /\ contains (apply_section content) (str "function down") = false
      /\ exists before rest,
           content
           = before ++ apply_section content ++ str "function down" ++ rest
           /\ Z.of_nat (List.length before) = up_start).
Proof.
  intros up_start down_start; split.
  - unfold apply_section; fold up_start; fold down_start.
    intros [->| ->]; [reflexivity | rewrite andb_false_r; reflexivity].
  - intros Hu Hd.
    assert (Eu : negb (up_start =? -1)%Z = true)
      by (apply negb_true_iff, Z.eqb_neq, Hu).
    assert (Ed : negb (down_start =? -1)%Z = true)
      by (apply negb_true_iff, Z.eqb_neq, Hd).
    assert (Ea : apply_section content = slice content up_start down_start).
    { unfold apply_section; fold up_start; fold down_start.
      rewrite Eu, Ed; reflexivity. }
    unfold down_start in Hd, Ea; rewrite Eu in Hd, Ea; clear down_start Ed.
    (* the place of [function up] *)
    assert (Hfu : up_start = find_at (str "function up") content 0)
      by (unfold up_start; rewrite find_from by lia; reflexivity).
    destruct (@find_at_found (str "function up") content 0 up_start)
      as (u & Eu' & Hlu & Hsu & _); [lia | symmetry; exact Hfu | exact Hu |].
    cbn [Z.add] in Eu'.
    (* the place of [function down] *)
    assert (Hfd : find content (str "function down") up_start
                  = find_at (str "function down") (skipn u content) up_start).
    { rewrite find_from by lia; rewrite Eu', Nat2Z.id; reflexivity. }
    rewrite Hfd in Hd, Ea.
    destruct (@find_at_found (str "function down") (skipn u content) up_start
                (find_at (str "function down") (skipn u content) up_start))
      as (k & Ek & Hlk & Hsk & Hmin); [lia | reflexivity | exact Hd |].
    rewrite length_skipn in Hlk.
    rewrite Ek, Eu', slice_between in Ea by lia.
    pose proof (startswith_skipn _ _ Hsu) as Es1.
    change (List.length (str "function up")) with 11%nat in Es1.
    set (s1 := skipn u content) in *.
    assert (Hk11 : (11 <= k)%nat)
      by (apply (down_after_up (skipn 11 s1)); rewrite <- Es1; exact Hsk).
    rewrite Ea; split; [|split].
    + rewrite Es1, firstn_app.
      rewrite firstn_all2 by (cbn; lia); apply startswith_app.
    + unfold contains; rewrite find_from by lia.
      change (Z.to_nat 0) with 0%nat; cbn [skipn].
      rewrite find_at_absent; [reflexivity|].
      intros j; destruct (startswith (skipn j (firstn k s1)) _) eqn:E;
        [|reflexivity].
      destruct (Nat.le_gt_cases k j) as [Hj|Hj].
      * rewrite skipn_all2 in E by (rewrite length_firstn; lia); discriminate E.
      * rewrite skipn_firstn_comm in E; apply startswith_firstn in E.
        rewrite (Hmin j Hj) in E; destruct E; discriminate.
    + exists (firstn u content), (skipn 13 (skipn k s1)); split.
      * rewrite <- (firstn_skipn u content) at 1; f_equal; fold s1.
        rewrite <- (firstn_skipn k s1) at 1; f_equal.
        exact (startswith_skipn _ _ Hsk).
      * rewrite length_firstn; lia.
Qed.

End SectionClaims.

(* ================================================================== *)
(** ** The theorems at documents *)
(* ================================================================== *)

(** The theorem X7 at the migration that creates [todos]. *)
Lemma X7_every_block_names_a_table_witness :
  Spec.live_blocks [Scenarios.doc_create_todos]
  = Spec.blocks_of [Scenarios.doc_create_todos].
Proof.
  apply (proj2 (@X7_every_block_names_a_table Py.ascii_db)
           [(Scenarios.create_todos_name, Py.bytes Scenarios.create_todos)]).
  vm_compute; reflexivity.
Defined.

(** The theorem X11 at a trait that is listed twice, as it is when a file
    imports the trait and the class uses it: its methods are brought
    twice. *)
Lemma X11_augment_auth_methods_witness :
  Controllers._augment_auth_methods
    [Py.str "VerifiesEmails"; Py.str "VerifiesEmails"] []
  = [Controllers.trait_method (Py.str "VerifiesEmails") (Py.str "verify");
     Controllers.trait_method (Py.str "VerifiesEmails") (Py.str "show");
     Controllers.trait_method (Py.str "VerifiesEmails") (Py.str "verify");
     Controllers.trait_method (Py.str "VerifiesEmails") (Py.str "show")]
  /\ In (Py.str "verify")
        (List.map Controllers.name
           (Controllers._augment_auth_methods
              [Py.str "VerifiesEmails"; Py.str "VerifiesEmails"] [])).
Proof.
  pose proof (X11_augment_auth_methods
                [Py.str "VerifiesEmails"; Py.str "VerifiesEmails"] [])
    as (H1 & H2 & _).
  split; [exact H1|].
  apply (H2 (Py.str "VerifiesEmails") (Py.str "verify")
            (List.map Py.str ["verify"; "show"]%string));
    [left; reflexivity | reflexivity | left; reflexivity].
Defined.

(** The theorem X16 at a document of three lines, the second one blank. *)
Lemma X16_lines_and_blocks_witness :
  @Notion.markdown_to_blocks Py.ascii_db (Py.join [10%N] Samples.three_lines)
  = flat_map (@Shape.blocks_of_line Py.ascii_db) Samples.three_lines.
Proof.
  apply (proj2 (@X16_lines_and_blocks Py.ascii_db)).
  repeat constructor.
Defined.

(** The theorem X17 at the two migrations of [todos]. *)
Lemma X17_parsed_schema_is_named_witness :
  @Laravel.parse_migrations Py.ascii_db
    (Some [(Scenarios.alter_todos_name, Py.bytes Scenarios.alter_todos);
           (Scenarios.create_todos_name, Py.bytes Scenarios.create_todos)])
  = Py.Ok [Scenarios.todos_schema]
  /\ Forall
       (fun r =>
          @Shape.word_name Py.ascii_db (Laravel.table_name r)
          /\ Forall (fun col => @Shape.word_name Py.ascii_db (Laravel.col_name col)
                                /\ Laravel.col_type col <> [])
                    (Laravel.columns r)
          /\ Forall (fun i => @Shape.word_name Py.ascii_db (Laravel.idx_column i)
                              /\ Laravel.idx_type i <> [])
                    (Laravel.indexes r)
          /\ Forall (fun k => @Shape.word_name Py.ascii_db (Laravel.fk_column k))
                    (Laravel.foreign_keys r))
       [Scenarios.todos_schema].
Proof.
  assert (E : @Laravel.parse_migrations Py.ascii_db
                (Some [(Scenarios.alter_todos_name, Py.bytes Scenarios.alter_todos);
                       (Scenarios.create_todos_name, Py.bytes Scenarios.create_todos)])
              = Py.Ok [Scenarios.todos_schema]) by (vm_compute; reflexivity).
  split; [exact E | exact (@X17_parsed_schema_is_named Py.ascii_db _ _ E)].
Defined.

(** The theorem X18 at a directory with one route file. *)
Lemma X18_all_route_files_or_none_witness :
  @Laravel.parse_routes Py.ascii_db
    (Some [(Py.str "web", Py.bytes Samples.health_routes)])
  = Py.Ok [(Py.str "web",
            @Laravel.parse_route_content Py.ascii_db (Py.str Samples.health_routes)
            ++ @Laravel._parse_routes_with_groups Py.ascii_db
                 (Py.str Samples.health_routes))].
Proof.
  apply (proj1 (@X18_all_route_files_or_none Py.ascii_db
                  [(Py.str "web", Py.bytes Samples.health_routes)])
           [Py.str Samples.health_routes]).
  - constructor; [vm_compute; reflexivity | constructor].
  - constructor; [intros [] | constructor].
Defined.

(** The theorem X20 at the two migrations of [todos], listed in the two
    orders. *)
Lemma X20_order_of_the_listing_witness :
  @Laravel.parse_migrations Py.ascii_db
    (Some [(Scenarios.alter_todos_name, Py.bytes Scenarios.alter_todos);
           (Scenarios.create_todos_name, Py.bytes Scenarios.create_todos)])
  = @Laravel.parse_migrations Py.ascii_db
      (Some [(Scenarios.create_todos_name, Py.bytes Scenarios.create_todos);
             (Scenarios.alter_todos_name, Py.bytes Scenarios.alter_todos)]).
Proof.
  apply (@X20_order_of_the_listing Py.ascii_db); [apply perm_swap|].
  constructor; [intros [H|[]]; discriminate H|].
  constructor; [intros [] | constructor].
Defined.

(** The theorem X21 at a response that opens a [json] block, holds an
    object and ends there. *)
Lemma X21_fences_left_open_witness :
  @AIBackend.payload Py.ascii_db (Json.fence_json ++ Py.str "{}") = [].
Proof.
  apply (proj1 (@X21_fences_left_open Py.ascii_db)); reflexivity.
Defined.

(** The theorem X22 at the migration of the scenario that writes [up()]
    first. *)
Lemma X22_the_text_analysed_witness :
  Py.startswith (Laravel.apply_section (Py.str Scenarios.drop_legacy_up_first))
                (Py.str "function up") = true
  /\ Py.contains (Laravel.apply_section (Py.str Scenarios.drop_legacy_up_first))
                 (Py.str "function down") = false.
Proof.
  assert (Hu : Py.find (Py.str Scenarios.drop_legacy_up_first)
                       (Py.str "function up") 0 <> (-1)%Z)
    by (vm_compute; discriminate).
  assert (Hd : Py.find (Py.str Scenarios.drop_legacy_up_first)
                       (Py.str "function down")
                       (if negb (Py.find (Py.str Scenarios.drop_legacy_up_first)
                                         (Py.str "function up") 0 =? -1)%Z
                        then Py.find (Py.str Scenarios.drop_legacy_up_first)
                                     (Py.str "function up") 0
                        else 0%Z) <> (-1)%Z)
    by (vm_compute; discriminate).
  destruct (proj2 (X22_the_text_analysed
                     (Py.str Scenarios.drop_legacy_up_first)) Hu Hd)
    as (H1 & H2 & _).
  split; [exact H1 | exact H2].
Defined.

(* ================================================================== *)
(** ** The two forms of an action: X23 *)
(* ================================================================== *)

Module GreedyFacts.
Import Py Re Laravel Words Shape Greedy WordsFacts MatchFacts ShapeFacts.
Import PyFacts TextFacts ReFacts.

Lemma cls_stops (p : char -> bool) (rest : text) (caps : captures) (k : cont) :
  stops p rest -> run (Cls p) rest caps k = None.
Proof.
  destruct rest as [|x rest]; cbn [stops run]; [reflexivity|].
  intros ->; reflexivity.
Qed.

(** The greedy star takes the whole run when what follows is accepted. *)
Lemma star_loop_greedy (p : char -> bool) (k : cont) (res : text * captures)
      (rest : text) (caps : captures) :
  stops p rest -> k rest caps = Some res ->
  forall (w : text) (fuel : nat),
    Forall (fun c => p c = true) w -> (List.length w <= fuel)%nat ->
    (fix loop (fuel : nat) (s0 : text) (caps0 : captures) {struct fuel} :=
       match fuel with
       | O => k s0 caps0
       | S fuel' =>
           orelse
             (run (Cls p) s0 caps0
                (fun s' caps' =>
                   if (List.length s' <? List.length s0)%nat
                   then loop fuel' s' caps' else None))
             (k s0 caps0)
       end) fuel (w ++ rest) caps = Some res.
Proof.
  intros Hstop Hk w; induction w as [|c w IH]; intros fuel Hw Hf.
  - cbn [app]; destruct fuel as [|fuel]; [exact Hk|].
    rewrite cls_stops by exact Hstop; exact Hk.
  - inversion Hw as [|? ? Hc Hw']; subst.
    destruct fuel as [|fuel]; [cbn [List.length] in Hf; lia|].
    cbn [app run]; rewrite Hc.
    assert (Hl : (List.length (w ++ rest) <? List.length (c :: w ++ rest))%nat = true)
      by (apply Nat.ltb_lt; cbn [List.length]; lia).
    rewrite Hl, IH; [reflexivity | exact Hw' | cbn [List.length] in Hf; lia].
Qed.

Lemma star_greedy (p : char -> bool) (w rest : text) (caps : captures)
      (k : cont) (res : text * captures) :
  Forall (fun c => p c = true) w -> stops p rest ->
  k rest caps = Some res ->
  run (Star (Cls p)) (w ++ rest) caps k = Some res.
Proof.
  intros Hw Hstop Hk; cbn [run].
  apply star_loop_greedy; try assumption.
  rewrite length_app; lia.
Qed.

Lemma plus_greedy (p : char -> bool) (w rest : text) (caps : captures)
      (k : cont) (res : text * captures) :
  w <> [] -> Forall (fun c => p c = true) w -> stops p rest ->
  k rest caps = Some res ->
  run (plus (Cls p)) (w ++ rest) caps k = Some res.
Proof.
  intros Hne Hw Hstop Hk; destruct w as [|c w]; [congruence|].
  inversion Hw as [|? ? Hc Hw']; subst.
  unfold plus; cbn [app]; change (run (Seq (Cls p) (Star (Cls p))) (c :: w ++ rest) caps k)
    with (run (Cls p) (c :: w ++ rest) caps
              (fun s' caps' => run (Star (Cls p)) s' caps' k)).
  cbn [run]; rewrite Hc.
  change (run (Star (Cls p)) (w ++ rest) caps k = Some res).
  apply star_greedy; assumption.
Qed.

Lemma group_plus_greedy (n : nat) (p : char -> bool) (w rest : text)
      (caps : captures) (k : cont) (res : text * captures) :
  w <> [] -> Forall (fun c => p c = true) w -> stops p rest ->
  k rest ((n, w) :: caps) = Some res ->
  run (Grp n (plus (Cls p))) (w ++ rest) caps k = Some res.
Proof.
  intros Hne Hw Hstop Hk.
  change (run (Grp n (plus (Cls p))) (w ++ rest) caps k)
    with (run (plus (Cls p)) (w ++ rest) caps
              (fun s' caps' =>
                 k s' ((n, firstn (List.length (w ++ rest) - List.length s')
                                  (w ++ rest)) :: caps'))).
  apply plus_greedy; try assumption.
  rewrite firstn_prefix; exact Hk.
Qed.

Lemma run_seq_cons (r : regex) (rs : list regex) (s : text) (caps : captures)
      (k : cont) :
  run (seq (r :: rs)) s caps k
  = run r s caps (fun s' caps' => run (seq rs) s' caps' k).
Proof. reflexivity. Qed.

Lemma run_lit_app (l : string) (rest : text) (caps : captures) (k : cont) :
  run (lit l) (str l ++ rest) caps k = k rest caps.
Proof.
  unfold lit; rewrite run_literal, startswith_app.
  rewrite skipn_app, skipn_all, Nat.sub_diag; reflexivity.
Qed.

Lemma search_at (r : regex) (s : text) (m : rmatch) :
  search r s = Some m -> exists n, match_here r (skipn n s) = Some m.
Proof.
  induction s as [|x s IH]; cbn [search].
  - destruct (match_here r []) as [m'|] eqn:E; [|discriminate].
    intros H; injection H as <-; exists 0%nat; exact E.
  - destruct (match_here r (x :: s)) as [m'|] eqn:E.
    + intros H; injection H as <-; exists 0%nat; exact E.
    + intros H; destruct (IH H) as [n Hn]; exists (S n); exact Hn.
Qed.

Lemma In_skipn {A} (x : A) (n : nat) (l : list A) : In x (skipn n l) -> In x l.
Proof.
  revert l; induction n as [|n IH]; intros [|y l] H; cbn [skipn] in H; auto.
  right; apply IH, H.
Qed.

Section Actions.
Context {U : UnicodeDB}.

Lemma class_char_not (c : char) (x : char) :
  class_char c = true -> class_char x = false -> c <> x.
Proof. intros H1 H2 ->; congruence. Qed.

Lemma quote_cases (q : char) :
  one_of quotes q = true -> q = 39%N \/ q = 34%N.
Proof.
  unfold one_of, quotes; cbn [existsb]; rewrite !orb_true_iff, !N.eqb_eq.
  intros [H|[H|H]]; [left; exact H | right; exact H | discriminate H].
Qed.

Lemma quote_not_space (q : char) : one_of quotes q = true -> isspace q = false.
Proof. intros H; destruct (quote_cases q H) as [->| ->]; reflexivity. Qed.

Lemma quote_not_word (q : char) : one_of quotes q = true -> isword q = false.
Proof. intros H; destruct (quote_cases q H) as [->| ->]; reflexivity. Qed.

Lemma run_quote (q : char) (rest : text) (caps : captures) (k : cont) :
  one_of quotes q = true -> run quote (q :: rest) caps k = k rest caps.
Proof. intros H; unfold quote; cbn [run]; rewrite H; reflexivity. Qed.

(** The array form of an action, where it starts. *)
Lemma class_call_here (cls sp1 sp2 meth rest : text) (q1 q2 : char) :
  cls <> [] -> Forall (fun c => class_char c = true) cls ->
  Forall (fun c => isspace c = true) sp1 ->
  Forall (fun c => isspace c = true) sp2 ->
  one_of quotes q1 = true -> one_of quotes q2 = true ->
  meth <> [] -> Forall (fun c => isword c = true) meth ->
  exists w,
    match_here class_call_pattern
               (cls ++ str "::class" ++ sp1 ++ str "," ++ sp2
                    ++ q1 :: meth ++ q2 :: rest)
    = Some {| whole := w; groups := [(2%nat, meth); (1%nat, cls)] |}.
Proof.
  intros Hc Hcls Hs1 Hs2 Hq1 Hq2 Hm Hmeth; unfold match_here, class_call_pattern.
  set (k := fun (s' : text) (caps : captures) => Some (s', caps)).
  assert (E : run (seq [Grp 1 (plus class_name_char); lit "::class"; ws;
                        lit ","; ws; quote; Grp 2 ident; quote])
                  (cls ++ str "::class" ++ sp1 ++ str "," ++ sp2
                       ++ q1 :: meth ++ q2 :: rest) [] k
              = Some (rest, [(2%nat, meth); (1%nat, cls)])).
  { rewrite run_seq_cons.
    apply group_plus_greedy; [exact Hc | exact Hcls | reflexivity|].
    rewrite run_seq_cons, run_lit_app, run_seq_cons.
    apply star_greedy; [exact Hs1 | reflexivity|].
    rewrite run_seq_cons, run_lit_app, run_seq_cons.
    apply star_greedy; [exact Hs2 | apply quote_not_space, Hq1|].
    rewrite run_seq_cons, run_quote by exact Hq1.
    rewrite run_seq_cons.
    apply group_plus_greedy;
      [exact Hm | exact Hmeth | apply quote_not_word, Hq2|].
    rewrite run_seq_cons, run_quote by exact Hq2; reflexivity. }
  rewrite E; eexists; reflexivity.
Qed.

(** No array form starts at a character that is not of a class name. *)
Lemma class_call_not_here (x : char) (s : text) :
  class_char x = false -> match_here class_call_pattern (x :: s) = None.
Proof.
  intros H; unfold match_here, class_call_pattern; rewrite run_seq_cons.
  change (run (Grp 1 (plus class_name_char)) (x :: s) []
              (fun s' caps' =>
                 run (seq [lit "::class"; ws; lit ","; ws; quote; Grp 2 ident;
                           quote]) s' caps'
                     (fun s'' caps => Some (s'', caps))))
    with (if class_char x
          then run (Star class_name_char) s []
                   (fun s' caps' =>
                      run (seq [lit "::class"; ws; lit ","; ws; quote;
                                Grp 2 ident; quote]) s'
                          ((1%nat, firstn (List.length (x :: s) - List.length s')
                                          (x :: s)) :: caps')
                          (fun s'' caps => Some (s'', caps)))
          else None).
  rewrite H; reflexivity.
Qed.

Lemma search_skip (r : regex) (pre s : text) :
  Forall (fun x => forall t, match_here r (x :: t) = None) pre ->
  search r (pre ++ s) = search r s.
Proof.
  induction 1 as [|x pre Hx _ IH]; [reflexivity|].
  cbn [app search]; rewrite Hx; exact IH.
Qed.

(** A text without a colon holds no array form. *)
Lemma class_call_needs_colon (s : text) :
  ~ In 58%N s -> search class_call_pattern s = None.
Proof.
  intros Hs; destruct (search class_call_pattern s) as [m|] eqn:E; [|reflexivity].
  exfalso; apply search_at in E; destruct E as [n E].
  apply match_here_sound in E; destruct E as ([s' Es] & Hm & _).
  destruct Hm as (w1 & r1 & Ew & _ & w2 & r2 & -> & Hw2 & _).
  apply matches_lit in Hw2; subst w2.
  apply Hs; apply (@In_skipn _ 58%N n s).
  refine (eq_ind_r (fun l => In 58%N l) _ Es); rewrite Ew.
  apply in_or_app; left; apply in_or_app; right; apply in_or_app; left.
  left; reflexivity.
Qed.

(** The string form of an action, at the start of the text. *)
Lemma at_call_here (cls meth : text) (q1 q2 : char) :
  cls <> [] -> Forall (fun c => class_char c = true) cls ->
  one_of quotes q1 = true -> one_of quotes q2 = true ->
  meth <> [] -> Forall (fun c => isword c = true) meth ->
  exists w,
    match_here at_call_pattern (q1 :: cls ++ str "@" ++ meth ++ [q2])
    = Some {| whole := w;
              groups := [(1%nat, cls ++ str "@" ++ meth)] |}.
Proof.
  intros Hc Hcls Hq1 Hq2 Hm Hmeth; unfold match_here, at_call_pattern.
  set (k := fun (s' : text) (caps : captures) => Some (s', caps)).
  assert (E : run (seq [opt quote;
                        Grp 1 (seq [plus class_name_char; lit "@"; ident]);
                        opt quote])
                  (q1 :: cls ++ str "@" ++ meth ++ [q2]) [] k
              = Some ([], [(1%nat, cls ++ str "@" ++ meth)])).
  { rewrite run_seq_cons; unfold opt at 1.
    change (run (Alt quote Eps) ?s ?c ?k')
      with (orelse (run quote s c k') (run Eps s c k')).
    rewrite run_quote by exact Hq1.
    assert (E1 : run (seq [Grp 1 (seq [plus class_name_char; lit "@"; ident]);
                           opt quote])
                     (cls ++ str "@" ++ meth ++ [q2]) [] k
                 = Some ([], [(1%nat, cls ++ str "@" ++ meth)])).
    { rewrite run_seq_cons.
      change (run (Grp 1 (seq [plus class_name_char; lit "@"; ident])) ?s ?c ?k')
        with (run (seq [plus class_name_char; lit "@"; ident]) s c
                  (fun s' caps' =>
                     k' s' ((1%nat, firstn (List.length s - List.length s') s)
                            :: caps'))).
      rewrite run_seq_cons.
      apply plus_greedy; [exact Hc | exact Hcls | reflexivity|].
      rewrite run_seq_cons, run_lit_app, run_seq_cons.
      apply plus_greedy; [exact Hm | exact Hmeth | apply quote_not_word, Hq2|].
      cbn [seq fold_right run].
      replace (cls ++ str "@" ++ meth ++ [q2])
        with ((cls ++ str "@" ++ meth) ++ [q2])
        by (rewrite <- !app_assoc; reflexivity).
      rewrite firstn_prefix; unfold opt, quote; cbn [run].
      rewrite Hq2; reflexivity. }
    rewrite E1; reflexivity. }
  rewrite E; eexists; reflexivity.
Qed.

End Actions.

End GreedyFacts.

Section ActionClaims.
Import Py Re Laravel Words Shape Greedy WordsFacts MatchFacts ShapeFacts GreedyFacts.
Import PyFacts TextFacts ReFacts.
Context {U : UnicodeDB}.

(** X23: the two forms of an action.  For every class name (word characters
    and backslashes) and every method name (word characters), the array form
    of Laravel, the class with [::class], a comma and the quoted method,
    whatever blanks stand around the comma and whatever stands before (no
    character of a class name) and after, is normalised to the class, an at
    sign and the method; and so is the string form, the class, an at sign and
    the method between quotes. *)
Theorem X23_forms_of_an_action (cls meth : text) :
  cls <> [] -> Forall (fun c => class_char c = true) cls ->
  word_name meth ->
  (forall (before sp1 sp2 rest : text) (q1 q2 : char),
      Forall (fun c => class_char c = false) before ->
      Forall (fun c => isspace c = true) sp1 ->
      Forall (fun c => isspace c = true) sp2 ->
      one_of quotes q1 = true -> one_of quotes q2 = true ->
      _normalize_route_action
        (before ++ cls ++ str "::class" ++ sp1 ++ str "," ++ sp2
                ++ q1 :: meth ++ q2 :: rest)
      = cls ++ str "@" ++ meth)
  /\ (forall q1 q2 : char,
         one_of quotes q1 = true -> one_of quotes q2 = true ->
         _normalize_route_action (q1 :: cls ++ str "@" ++ meth ++ [q2])
         = cls ++ str "@" ++ meth).
Proof.
  intros Hc Hcls [Hm Hmeth]; split.
  - intros before sp1 sp2 rest q1 q2 Hb Hs1 Hs2 Hq1 Hq2.
    unfold _normalize_route_action.
    rewrite search_skip
      by (eapply Forall_impl; [|exact Hb]; intros x Hx t;
          apply class_call_not_here, Hx).
    destruct (@class_call_here _ cls sp1 sp2 meth rest q1 q2
                Hc Hcls Hs1 Hs2 Hq1 Hq2 Hm Hmeth) as [w E].
    destruct cls as [|c cls]; [congruence|].
    cbn [app search] in E |- *; rewrite E; reflexivity.
  - intros q1 q2 Hq1 Hq2; unfold _normalize_route_action.
    rewrite class_call_needs_colon.
    + destruct (@at_call_here _ cls meth q1 q2 Hc Hcls Hq1 Hq2 Hm Hmeth)
        as [w E].
      cbn [search]; rewrite E; reflexivity.
    + intros H; destruct H as [H|H].
      * subst q1; discriminate Hq1.
      * apply in_app_or in H; destruct H as [H|H].
        -- rewrite Forall_forall in Hcls; specialize (Hcls _ H); discriminate.
        -- change (str "@" ++ meth ++ [q2]) with (64%N :: meth ++ [q2]) in H.
           destruct H as [H|H]; [discriminate H|].
           apply in_app_or in H; destruct H as [H|H].
           ++ rewrite Forall_forall in Hmeth; specialize (Hmeth _ H).
              discriminate.
           ++ destruct H as [H|H]; [subst q2; discriminate Hq2 | exact H].
Qed.

End ActionClaims.

(* ================================================================== *)
(** ** The operations of a GraphQL schema: X24 *)
(* ================================================================== *)

Section OperationClaims.
Import Py Re Laravel Operations Words Shape WordsFacts MatchFacts ShapeFacts
       MigrationShapeFacts.
Import PyFacts TextFacts ReFacts.
Context {U : UnicodeDB}.

(** X24: the operations of a GraphQL schema.  Every operation that
    [parse_graphql_operations] extracts is named with a run of word
    characters, has a return type that is not empty and is made of word
    characters, brackets and exclamation marks, and has arguments without a
    closing parenthesis.  A line that is blank or a comment gives no
    operation.  And only the blocks that extend a type are read: a schema
    that does not hold the word [extend] has no operation, whatever fields
    its types declare. *)
Theorem X24_graphql_operations (kind : string) :
  (forall content : text,
      Forall
        (fun op =>
           word_name (name op)
           /\ ret op <> []
           /\ Forall (fun c => type_char c = true) (ret op)
           /\ Forall (fun c => c <> 41%N) (args op))
        (extract_ops kind content))
  /\ (forall line : text,
         strip line = [] \/ startswith (strip line) (str "#") = true ->
         ops_of_line line = [])
  /\ (forall content : text,
         contains content (str "extend") = false ->
         extract_ops kind content = []).
Proof.
  split; [|split].
  - intros content; unfold extract_ops.
    apply Forall_flat_map, Forall_forall; intros block _.
    apply Forall_flat_map, Forall_forall; intros line _.
    unfold ops_of_line.
    destruct (negb (truthy (strip line)) || startswith (strip line) (str "#"));
      [constructor|].
    destruct (match_here call_pattern (strip line)) as [m|] eqn:Ec.
    + assert (Hf : found call_pattern m) by (eexists; exact Ec).
      constructor; [|constructor]; cbn [name ret args].
      split; [apply (@ident_group _ call_pattern 1 m Hf); reflexivity|].
      assert (H3 : matches (plus (Cls type_char)) (group_str m 3))
        by (apply (@group_str_matches call_pattern _ 3 m Hf); reflexivity).
      apply matches_plus_cls in H3; destruct H3 as [H3 H3'].
      split; [exact H3|split; [exact H3'|]].
      assert (H2 : matches (Star (none_of (str ")"))) (group_str m 2))
        by (apply (@group_str_matches call_pattern _ 2 m Hf); reflexivity).
      apply matches_star_cls in H2.
      eapply Forall_impl; [|exact H2]; cbv beta; intros c Hc ->.
      discriminate Hc.
    + destruct (match_here field_pattern (strip line)) as [m|] eqn:Ef;
        [|constructor].
      assert (Hf : found field_pattern m) by (eexists; exact Ef).
      constructor; [|constructor]; cbn [name ret args].
      split; [apply (@ident_group _ field_pattern 1 m Hf); reflexivity|].
      assert (H2 : matches (plus (Cls type_char)) (group_str m 2))
        by (apply (@group_str_matches field_pattern _ 2 m Hf); reflexivity).
      apply matches_plus_cls in H2; destruct H2 as [H2 H2'].
      split; [exact H2|split; [exact H2'|constructor]].
  - intros line [H|H]; unfold ops_of_line; rewrite H;
      [reflexivity | rewrite orb_true_r; reflexivity].
  - intros content H; unfold extract_ops, findall1.
    change (block_pattern kind)
      with (Seq (seq (List.map Chr (str "extend" ++ [])))
                (seq [plus space; lit "type"; plus space; lit kind; ws;
                      lit "{"; Grp 1 (LazyStar any); lit "}"])).
    rewrite (finditer_without_literal _ [] _ _ H); reflexivity.
Qed.

End OperationClaims.

(** The theorem X23 at the action of the scenario, in its two forms. *)
Lemma X23_forms_of_an_action_witness :
  @Laravel._normalize_route_action Py.ascii_db
    (Py.str "[" ++ Py.str "UserController" ++ Py.str "::class" ++ []
       ++ Py.str "," ++ Py.str " " ++ 39%N :: Py.str "index"
       ++ 39%N :: Py.str "]")
  = Py.str "UserController" ++ Py.str "@" ++ Py.str "index"
  /\ @Laravel._normalize_route_action Py.ascii_db
       (39%N :: Py.str "UserController" ++ Py.str "@" ++ Py.str "index"
            ++ [39%N])
     = Py.str "UserController" ++ Py.str "@" ++ Py.str "index".
Proof.
  assert (Hc : Py.str "UserController" <> []) by discriminate.
  assert (Hcls : Forall (fun c => @Greedy.class_char Py.ascii_db c = true)
                        (Py.str "UserController"))
    by (repeat constructor).
  assert (Hm : @Shape.word_name Py.ascii_db (Py.str "index"))
    by (split; [discriminate | repeat constructor]).
  pose proof (@X23_forms_of_an_action Py.ascii_db _ _ Hc Hcls Hm) as [H1 H2].
  split.
  - apply H1; try reflexivity; repeat constructor.
  - apply H2; reflexivity.
Defined.

(** The theorem X24 at a schema that declares its queries without
    extending a type. *)
Lemma X24_graphql_operations_witness :
  @Operations.extract_ops Py.ascii_db "Query" (Py.str "type Query { me: User }")
  = [].
Proof.
  apply (proj2 (proj2 (@X24_graphql_operations Py.ascii_db "Query"))).
  reflexivity.
Defined.
